(** * MegaMesh firmware (esp32_lora_unified.ino): mesh frame codec, CTR
    cipher layer, duplicate cache, radio bring-up, setup loop and persisted
    configuration, as a shallow embedding over [Z] bytes. *)

From Stdlib Require Import ZArith Bool Lia QArith.
From Stdlib Require Strings.String.
From Stdlib Require Import List.
Import ListNotations.
Open Scope Z_scope.

(** ** Fixed-width integers

    [uintN_t] values are [Z]; a store into a [uintN_t] is a mask. *)

Definition u8 (x : Z) : Z := Z.land x 255.
Definition u16 (x : Z) : Z := Z.land x 65535.
Definition u32 (x : Z) : Z := Z.land x 4294967295.

Definition is_u8 (x : Z) : Prop := 0 <= x < 256.
Definition is_u16 (x : Z) : Prop := 0 <= x < 65536.
Definition is_u32 (x : Z) : Prop := 0 <= x < 4294967296.

(** ** crc16_ccitt *)

(** One iteration of the inner [for (i = 0; i < 8; i++)] loop. *)
Definition crc16_bit (crc : Z) : Z :=
  if negb (Z.land crc 0x8000 =? 0)
  then u16 (Z.lxor (Z.shiftl crc 1) 0x1021)
  else u16 (Z.shiftl crc 1).

Fixpoint crc16_bits (i : nat) (crc : Z) : Z :=
  match i with
  | O => crc
  | S i' => crc16_bits i' (crc16_bit crc)
  end.

(** The outer [while (len--)] loop: xor the next byte into the high half, then eight shifts. *)
Fixpoint crc16_loop (crc : Z) (data : list Z) : Z :=
  match data with
  | [] => crc
  | b :: rest => crc16_loop (crc16_bits 8 (u16 (Z.lxor crc (Z.shiftl b 8)))) rest
  end.

Definition crc16_ccitt (data : list Z) : Z := crc16_loop 0xFFFF data.

(** ** Frame layout of sendMeshPacket *)

Definition MESH_MAGIC0 : Z := 0x4D.
Definition MESH_MAGIC1 : Z := 0x58.
Definition MESH_VERSION : Z := 0x01.
Definition BROADCAST : Z := 0xFFFF.

Definition be16 (x : Z) : list Z :=
  [u8 (Z.shiftr x 8); u8 x].

Definition be32 (x : Z) : list Z :=
  [u8 (Z.shiftr x 24); u8 (Z.shiftr x 16); u8 (Z.shiftr x 8); u8 x].

(** [memcpy(nonce, &r0, 4); memcpy(nonce + 4, &r1, 4)] on the little-endian
    ESP32. *)
Definition le32 (x : Z) : list Z :=
  [u8 x; u8 (Z.shiftr x 8); u8 (Z.shiftr x 16); u8 (Z.shiftr x 24)].

Definition make_nonce (r0 r1 : Z) : list Z := le32 r0 ++ le32 r1.

(** The bytes written into [frame] before the CRC: magic, version, type,
    srcId, dstId, counter, nonce, payloadLen, payload. *)
Definition frame_header (type src dst counter : Z) (nonce : list Z) (len : Z) : list Z :=
  [MESH_MAGIC0; MESH_MAGIC1; MESH_VERSION; type] ++ be16 src ++ be16 dst
  ++ be32 counter ++ nonce ++ [len].

Definition frame_body (type src dst counter : Z) (nonce enc : list Z) : list Z :=
  frame_header type src dst counter nonce (Z.of_nat (length enc)) ++ enc.

Definition seal_frame (body : list Z) : list Z :=
  let crc := crc16_ccitt body in
  body ++ [u8 (Z.shiftr crc 8); u8 crc].

(** ** Data model *)

(** [float] fields are only copied, compared and printed by the firmware;
    they are kept as rationals. *)
Record LoraConfig := mkLoraConfig {
  magic : Z; deviceType : Z;
  csPin : Z; resetPin : Z; busyPin : Z; dioPin : Z;
  frequency : Q; bandwidth : Q;
  spreadingFactor : Z; codingRate : Z; syncWord : Z; preambleLength : Z;
  tcxoVoltage : Q; useDio2AsRfSwitch : bool; btEnabled : bool;
  pwr : Z; sclkPin : Z; misoPin : Z; mosiPin : Z;
  nssPin : Z; rstPin : Z; dio0Pin : Z; dio1Pin : Z }.

(** The layout [loadConfig] still accepts (struct LegacyLoraConfig). *)
Record LegacyLoraConfig := mkLegacyLoraConfig {
  l_magic : Z; l_deviceType : Z;
  l_csPin : Z; l_resetPin : Z; l_busyPin : Z; l_dioPin : Z;
  l_frequency : Q; l_bandwidth : Q;
  l_spreadingFactor : Z; l_codingRate : Z; l_syncWord : Z; l_preambleLength : Z;
  l_tcxoVoltage : Q; l_useDio2AsRfSwitch : bool; l_btEnabled : bool }.

Record MeshPeer := mkMeshPeer { peer_id : Z; lastSeenMs : Z }.

Record SensorDef := mkSensorDef { sensor_pin : Z; sensor_analog : bool }.

Record WeatherPersistConfig := mkWeatherPersistConfig {
  w_magic : Z; w_weatherMode : Z; w_weatherIntervalMs : Z;
  w_sensorCount : Z; w_sensors : list SensorDef }.

(** g_weatherModeEnabled, g_weatherIntervalMs and g_sensors[0..g_sensorCount). *)
Record Weather := mkWeather {
  weatherModeEnabled : bool; weatherIntervalMs : Z; sensors : list SensorDef }.

(** What [g_prefs.getBytes("cfg", ...)] can find: nothing, a blob of
    [sizeof(LoraConfig)] bytes, a blob of [sizeof(LegacyLoraConfig)] bytes,
    or a blob of any other length. *)
Inductive CfgBlob :=
| CfgAbsent
| CfgCurrent (c : LoraConfig)
| CfgLegacy (c : LegacyLoraConfig)
| CfgOtherSize (len : Z).

Inductive WxBlob :=
| WxAbsent
| WxCurrent (w : WeatherPersistConfig)
| WxOtherSize (len : Z).

(** The "lora" namespace of the Preferences store. *)
Record Prefs := mkPrefs { cfg_blob : CfgBlob; wx_blob : WxBlob }.

(** The JSON notifications passed to [sendMsg], by their "evt" field.
    Payload-carrying events keep the decoded payload bytes. *)
Inductive Evt :=
| EvtTcxoAuto (v : Q)
| EvtRadioReady
| EvtRadioErr (code : Z)
| EvtRadioNotReady
| EvtMeshStarted (id : Z)
| EvtPeerFound (id : Z)
| EvtWeatherRx (from : Z) (data : list Z)
| EvtMsgRx (from : Z) (data : list Z)
| EvtMeshKeyRx (from : Z) (key : list Z)
| EvtMeshKeyRxErr (from : Z)
| EvtMeshKeyAck (from : Z)
| EvtMeshRx (from : Z) (t : Z) (data : list Z)
| EvtRx (data : list Z)
| EvtCfgSaved
| EvtCfgStaged
| EvtConfigDone
| EvtSetupAlready
| EvtAutostartOk
| EvtAutostartErr
| EvtOk
| EvtUnknownCmd
| EvtConfigMode
| EvtSerialSetupReady
| EvtSetupInfo
| EvtCfgStatus (saved radio_ok : bool)
| EvtOther (name : Strings.String.string).

(** The node's globals. [msgs] and [air] are newest first: [msgs] are the
    notifications sent, [air] the frames handed to [g_radio->transmit].
    [beginCalls] counts the driver's [begin] calls so far. *)
Record Node := mkNode {
  cfg : LoraConfig;
  radioPresent : bool;
  radioReady : bool;
  setupMode : bool;
  setupSaveRequested : bool;
  configSaved : bool;
  meshRunning : bool;
  encEnabled : bool;
  nodeId : Z;
  meshKey : list Z;
  txCounter : Z;
  peers : list MeshPeer;
  dupCache : list Z;
  dupHead : Z;
  beginCalls : nat;
  msgs : list Evt;
  air : list (list Z);
  prefs : Prefs;
  weather : Weather }.

Definition set_cfg (v : LoraConfig) (st : Node) : Node :=
  {| cfg := v; radioPresent := radioPresent st; radioReady := radioReady st; setupMode := setupMode st; setupSaveRequested := setupSaveRequested st; configSaved := configSaved st; meshRunning := meshRunning st; encEnabled := encEnabled st; nodeId := nodeId st; meshKey := meshKey st; txCounter := txCounter st; peers := peers st; dupCache := dupCache st; dupHead := dupHead st; beginCalls := beginCalls st; msgs := msgs st; air := air st; prefs := prefs st; weather := weather st |}.

Definition set_radioPresent (v : bool) (st : Node) : Node :=
  {| cfg := cfg st; radioPresent := v; radioReady := radioReady st; setupMode := setupMode st; setupSaveRequested := setupSaveRequested st; configSaved := configSaved st; meshRunning := meshRunning st; encEnabled := encEnabled st; nodeId := nodeId st; meshKey := meshKey st; txCounter := txCounter st; peers := peers st; dupCache := dupCache st; dupHead := dupHead st; beginCalls := beginCalls st; msgs := msgs st; air := air st; prefs := prefs st; weather := weather st |}.

Definition set_radioReady (v : bool) (st : Node) : Node :=
  {| cfg := cfg st; radioPresent := radioPresent st; radioReady := v; setupMode := setupMode st; setupSaveRequested := setupSaveRequested st; configSaved := configSaved st; meshRunning := meshRunning st; encEnabled := encEnabled st; nodeId := nodeId st; meshKey := meshKey st; txCounter := txCounter st; peers := peers st; dupCache := dupCache st; dupHead := dupHead st; beginCalls := beginCalls st; msgs := msgs st; air := air st; prefs := prefs st; weather := weather st |}.

Definition set_setupMode (v : bool) (st : Node) : Node :=
  {| cfg := cfg st; radioPresent := radioPresent st; radioReady := radioReady st; setupMode := v; setupSaveRequested := setupSaveRequested st; configSaved := configSaved st; meshRunning := meshRunning st; encEnabled := encEnabled st; nodeId := nodeId st; meshKey := meshKey st; txCounter := txCounter st; peers := peers st; dupCache := dupCache st; dupHead := dupHead st; beginCalls := beginCalls st; msgs := msgs st; air := air st; prefs := prefs st; weather := weather st |}.

Definition set_setupSaveRequested (v : bool) (st : Node) : Node :=
  {| cfg := cfg st; radioPresent := radioPresent st; radioReady := radioReady st; setupMode := setupMode st; setupSaveRequested := v; configSaved := configSaved st; meshRunning := meshRunning st; encEnabled := encEnabled st; nodeId := nodeId st; meshKey := meshKey st; txCounter := txCounter st; peers := peers st; dupCache := dupCache st; dupHead := dupHead st; beginCalls := beginCalls st; msgs := msgs st; air := air st; prefs := prefs st; weather := weather st |}.

Definition set_configSaved (v : bool) (st : Node) : Node :=
  {| cfg := cfg st; radioPresent := radioPresent st; radioReady := radioReady st; setupMode := setupMode st; setupSaveRequested := setupSaveRequested st; configSaved := v; meshRunning := meshRunning st; encEnabled := encEnabled st; nodeId := nodeId st; meshKey := meshKey st; txCounter := txCounter st; peers := peers st; dupCache := dupCache st; dupHead := dupHead st; beginCalls := beginCalls st; msgs := msgs st; air := air st; prefs := prefs st; weather := weather st |}.

Definition set_meshRunning (v : bool) (st : Node) : Node :=
  {| cfg := cfg st; radioPresent := radioPresent st; radioReady := radioReady st; setupMode := setupMode st; setupSaveRequested := setupSaveRequested st; configSaved := configSaved st; meshRunning := v; encEnabled := encEnabled st; nodeId := nodeId st; meshKey := meshKey st; txCounter := txCounter st; peers := peers st; dupCache := dupCache st; dupHead := dupHead st; beginCalls := beginCalls st; msgs := msgs st; air := air st; prefs := prefs st; weather := weather st |}.

Definition set_encEnabled (v : bool) (st : Node) : Node :=
  {| cfg := cfg st; radioPresent := radioPresent st; radioReady := radioReady st; setupMode := setupMode st; setupSaveRequested := setupSaveRequested st; configSaved := configSaved st; meshRunning := meshRunning st; encEnabled := v; nodeId := nodeId st; meshKey := meshKey st; txCounter := txCounter st; peers := peers st; dupCache := dupCache st; dupHead := dupHead st; beginCalls := beginCalls st; msgs := msgs st; air := air st; prefs := prefs st; weather := weather st |}.

Definition set_nodeId (v : Z) (st : Node) : Node :=
  {| cfg := cfg st; radioPresent := radioPresent st; radioReady := radioReady st; setupMode := setupMode st; setupSaveRequested := setupSaveRequested st; configSaved := configSaved st; meshRunning := meshRunning st; encEnabled := encEnabled st; nodeId := v; meshKey := meshKey st; txCounter := txCounter st; peers := peers st; dupCache := dupCache st; dupHead := dupHead st; beginCalls := beginCalls st; msgs := msgs st; air := air st; prefs := prefs st; weather := weather st |}.

Definition set_meshKey (v : list Z) (st : Node) : Node :=
  {| cfg := cfg st; radioPresent := radioPresent st; radioReady := radioReady st; setupMode := setupMode st; setupSaveRequested := setupSaveRequested st; configSaved := configSaved st; meshRunning := meshRunning st; encEnabled := encEnabled st; nodeId := nodeId st; meshKey := v; txCounter := txCounter st; peers := peers st; dupCache := dupCache st; dupHead := dupHead st; beginCalls := beginCalls st; msgs := msgs st; air := air st; prefs := prefs st; weather := weather st |}.

Definition set_txCounter (v : Z) (st : Node) : Node :=
  {| cfg := cfg st; radioPresent := radioPresent st; radioReady := radioReady st; setupMode := setupMode st; setupSaveRequested := setupSaveRequested st; configSaved := configSaved st; meshRunning := meshRunning st; encEnabled := encEnabled st; nodeId := nodeId st; meshKey := meshKey st; txCounter := v; peers := peers st; dupCache := dupCache st; dupHead := dupHead st; beginCalls := beginCalls st; msgs := msgs st; air := air st; prefs := prefs st; weather := weather st |}.

Definition set_peers (v : list MeshPeer) (st : Node) : Node :=
  {| cfg := cfg st; radioPresent := radioPresent st; radioReady := radioReady st; setupMode := setupMode st; setupSaveRequested := setupSaveRequested st; configSaved := configSaved st; meshRunning := meshRunning st; encEnabled := encEnabled st; nodeId := nodeId st; meshKey := meshKey st; txCounter := txCounter st; peers := v; dupCache := dupCache st; dupHead := dupHead st; beginCalls := beginCalls st; msgs := msgs st; air := air st; prefs := prefs st; weather := weather st |}.

Definition set_dupCache (v : list Z) (st : Node) : Node :=
  {| cfg := cfg st; radioPresent := radioPresent st; radioReady := radioReady st; setupMode := setupMode st; setupSaveRequested := setupSaveRequested st; configSaved := configSaved st; meshRunning := meshRunning st; encEnabled := encEnabled st; nodeId := nodeId st; meshKey := meshKey st; txCounter := txCounter st; peers := peers st; dupCache := v; dupHead := dupHead st; beginCalls := beginCalls st; msgs := msgs st; air := air st; prefs := prefs st; weather := weather st |}.

Definition set_dupHead (v : Z) (st : Node) : Node :=
  {| cfg := cfg st; radioPresent := radioPresent st; radioReady := radioReady st; setupMode := setupMode st; setupSaveRequested := setupSaveRequested st; configSaved := configSaved st; meshRunning := meshRunning st; encEnabled := encEnabled st; nodeId := nodeId st; meshKey := meshKey st; txCounter := txCounter st; peers := peers st; dupCache := dupCache st; dupHead := v; beginCalls := beginCalls st; msgs := msgs st; air := air st; prefs := prefs st; weather := weather st |}.

Definition set_beginCalls (v : nat) (st : Node) : Node :=
  {| cfg := cfg st; radioPresent := radioPresent st; radioReady := radioReady st; setupMode := setupMode st; setupSaveRequested := setupSaveRequested st; configSaved := configSaved st; meshRunning := meshRunning st; encEnabled := encEnabled st; nodeId := nodeId st; meshKey := meshKey st; txCounter := txCounter st; peers := peers st; dupCache := dupCache st; dupHead := dupHead st; beginCalls := v; msgs := msgs st; air := air st; prefs := prefs st; weather := weather st |}.

Definition set_msgs (v : list Evt) (st : Node) : Node :=
  {| cfg := cfg st; radioPresent := radioPresent st; radioReady := radioReady st; setupMode := setupMode st; setupSaveRequested := setupSaveRequested st; configSaved := configSaved st; meshRunning := meshRunning st; encEnabled := encEnabled st; nodeId := nodeId st; meshKey := meshKey st; txCounter := txCounter st; peers := peers st; dupCache := dupCache st; dupHead := dupHead st; beginCalls := beginCalls st; msgs := v; air := air st; prefs := prefs st; weather := weather st |}.

Definition set_air (v : list (list Z)) (st : Node) : Node :=
  {| cfg := cfg st; radioPresent := radioPresent st; radioReady := radioReady st; setupMode := setupMode st; setupSaveRequested := setupSaveRequested st; configSaved := configSaved st; meshRunning := meshRunning st; encEnabled := encEnabled st; nodeId := nodeId st; meshKey := meshKey st; txCounter := txCounter st; peers := peers st; dupCache := dupCache st; dupHead := dupHead st; beginCalls := beginCalls st; msgs := msgs st; air := v; prefs := prefs st; weather := weather st |}.

Definition set_prefs (v : Prefs) (st : Node) : Node :=
  {| cfg := cfg st; radioPresent := radioPresent st; radioReady := radioReady st; setupMode := setupMode st; setupSaveRequested := setupSaveRequested st; configSaved := configSaved st; meshRunning := meshRunning st; encEnabled := encEnabled st; nodeId := nodeId st; meshKey := meshKey st; txCounter := txCounter st; peers := peers st; dupCache := dupCache st; dupHead := dupHead st; beginCalls := beginCalls st; msgs := msgs st; air := air st; prefs := v; weather := weather st |}.

Definition set_weather (v : Weather) (st : Node) : Node :=
  {| cfg := cfg st; radioPresent := radioPresent st; radioReady := radioReady st; setupMode := setupMode st; setupSaveRequested := setupSaveRequested st; configSaved := configSaved st; meshRunning := meshRunning st; encEnabled := encEnabled st; nodeId := nodeId st; meshKey := meshKey st; txCounter := txCounter st; peers := peers st; dupCache := dupCache st; dupHead := dupHead st; beginCalls := beginCalls st; msgs := msgs st; air := air st; prefs := prefs st; weather := v |}.

Definition emit (e : Evt) (st : Node) : Node := set_msgs (e :: msgs st) st.

Definition DUP_CACHE_SIZE : Z := 24.
Definition MAX_PEERS : nat := 16.
Definition CFG_MAGIC : Z := 0x4C4F5241.
Definition WX_MAGIC : Z := 0x57585452.
Definition MAX_SENSORS : Z := 6.

(** The initial values of the globals. *)
Definition default_key : list Z :=
  [0x10; 0x32; 0x54; 0x76; 0x98; 0xBA; 0xDC; 0xFE;
   0x22; 0x44; 0x66; 0x88; 0xAA; 0xCC; 0xEE; 0x00].

Definition zero_cfg : LoraConfig :=
  mkLoraConfig 0 0 0 0 0 0 0 0 0 0 0 0 0 false false 0 0 0 0 0 0 0 0.

Definition initial_node (p : Prefs) : Node :=
  {| cfg := zero_cfg; radioPresent := false; radioReady := false;
     setupMode := false; setupSaveRequested := false; configSaved := false;
     meshRunning := false; encEnabled := false; nodeId := 0;
     meshKey := default_key; txCounter := 1; peers := [];
     dupCache := repeat 0 24; dupHead := 0; beginCalls := 0%nat;
     msgs := []; air := []; prefs := p;
     weather := mkWeather false 5000 [] |}.

(** ** Sample interfaces and states

    Concrete stand-ins for the hardware and library interfaces, used to run
    the statements below on particular inputs. *)

Definition sample_setkey (key : list Z) : bool := true.
Definition sample_setkey_fail (key : list Z) : bool := false.
Definition sample_ecb (key block : list Z) : list Z :=
  map (fun x => u8 (x * 7 + 0x5A)) block.
Definition sample_transmit (frame : list Z) : Z := 0.
(** The driver refuses the first two [begin] calls and accepts the rest. *)
Definition sample_begin (n : nat) (c : LoraConfig) (tcxo : Q) (outPwr : Z) : Z :=
  if (n <? 2)%nat then -2 else 0.
Definition sample_mac : Z := 0x24A16057F3C8.

Definition boot_node : Node := initial_node (mkPrefs CfgAbsent WxAbsent).
Definition ready_node : Node :=
  set_radioPresent true (set_radioReady true (set_nodeId 0x1234 boot_node)).

Definition u8b (x : Z) : bool := (0 <=? x) && (x <? 256).

(** A broadcast text frame and a frame for node 7, both well formed. *)
Definition frame_to_all : list Z :=
  seal_frame (frame_header 0x20 5 BROADCAST 1 (repeat 0 8) 2 ++ [72; 105]).
Definition frame_to_7 : list Z :=
  seal_frame (frame_header 0x20 5 7 1 (repeat 0 8) 0).

Definition legacy_sample : LegacyLoraConfig :=
  mkLegacyLoraConfig CFG_MAGIC 1 5 14 26 35 (868 # 1) (125 # 1) 9 7 0x12 8 (0 # 1) false true.

(** The names of the notifications that appear only as [EvtOther]. *)
Module EvtName.
Import Strings.String.
Local Open Scope string_scope.
Definition weather_tx : string := "weather_tx".
Definition scan_started : string := "scan_started".
Definition mesh_key_tx : string := "mesh_key_tx".
Definition mesh_key_tx_err : string := "mesh_key_tx_err".
Definition mesh_key : string := "mesh_key".
End EvtName.

(** Sample sensor readings: analog sensors read 4095, digital ones 1. *)
Definition sample_read (s : SensorDef) : Z := if sensor_analog s then 4095 else 1.


(** Further sample nodes: two known peers, two sensors, the mesh running, another id. *)
Definition peers_node : Node :=
  set_peers [mkMeshPeer 5 100; mkMeshPeer 7 200] ready_node.
Definition sensor_node : Node :=
  set_weather (mkWeather true 60000 [mkSensorDef 34 true; mkSensorDef 27 false]) ready_node.
Definition mesh_node : Node := set_meshRunning true ready_node.
Definition peer_b : Node := set_nodeId 0x42 ready_node.

(** ** Hardware and library interfaces

    The AES block function of mbedtls, its key schedule's status, the
    RadioLib driver and the eFuse MAC are not code of this repository;
    everything below is stated for all of them. *)
Section Firmware.

(** [mbedtls_aes_setkey_enc(&ctx, key, 128) == 0] *)
Variable aes_setkey_ok : list Z -> bool.
(** [mbedtls_aes_crypt_ecb(&ctx, MBEDTLS_AES_ENCRYPT, in, out)] on a
    16-byte block under the given key. *)
Variable aes_ecb : list Z -> list Z -> list Z.
(** [g_radio->begin(...)]: the status code of the [n]-th call since boot
    with the configuration's radio fields, the TCXO voltage and the power. *)
Variable radio_begin : nat -> LoraConfig -> Q -> Z -> Z.
(** [g_radio->transmit(frame, len)]: the status code. *)
Variable radio_transmit : list Z -> Z.
(** [ESP.getEfuseMac()]. *)
Variable efuse_mac : Z.

Definition RADIOLIB_ERR_NONE : Z := 0.

(** ** Cipher layer: mbedtls_aes_crypt_ctr, encryptCtr, decryptCtr *)

(** [for (i = 16; i > 0; i--) if (++nonce_counter[i - 1] != 0) break;]
    on the reversed block. *)
Fixpoint ctr_incr_rev (rbytes : list Z) : list Z :=
  match rbytes with
  | [] => []
  | b :: rest =>
      let b' := u8 (b + 1) in
      if b' =? 0 then b' :: ctr_incr_rev rest else b' :: rest
  end.

Definition ctr_increment (nc : list Z) : list Z := rev (ctr_incr_rev (rev nc)).

(** The byte loop of [mbedtls_aes_crypt_ctr]: [n] is [*nc_off], [nc] the
    nonce counter block and [sb] the stream block. *)
Fixpoint aes_crypt_ctr (key : list Z) (n : Z) (nc sb : list Z) (input : list Z)
  : list Z :=
  match input with
  | [] => []
  | c :: rest =>
      let sb' := if n =? 0 then aes_ecb key nc else sb in
      let nc' := if n =? 0 then ctr_increment nc else nc in
      u8 (Z.lxor c (nth (Z.to_nat n) sb' 0))
        :: aes_crypt_ctr key (Z.land (n + 1) 0x0F) nc' sb' rest
  end.

(** The initial counter block: [nonce ‖ counter (big-endian) ‖ 0x00000000]. *)
Definition nonce_counter (nonce : list Z) (counter : Z) : list Z :=
  firstn 8 nonce ++ be32 counter ++ [0; 0; 0; 0].

(** [encryptCtr(plain, cipher, len, nonce, counter)] reading
    [g_meshEncryptionEnabled] and [g_meshKey]; [None] is [return false].
    [mbedtls_aes_crypt_ctr] returns 0 for [*nc_off = 0]. *)
Definition encryptCtr (enabled : bool) (key plain nonce : list Z) (counter : Z)
  : option (list Z) :=
  if negb enabled then Some plain
  else if negb (aes_setkey_ok key) then None
  else Some (aes_crypt_ctr key 0 (nonce_counter nonce counter) (repeat 0 16) plain).

Definition decryptCtr (enabled : bool) (key cipher nonce : list Z) (counter : Z)
  : option (list Z) :=
  encryptCtr enabled key cipher nonce counter.

(** ** sendMeshPacket *)

Definition plainType (type : Z) : bool :=
  (type =? 0x01) || (type =? 0x02) || (type =? 0x30) || (type =? 0x31).

(** [r0], [r1] are the two [esp_random()] words of the nonce. Returns the
    function's result and the node afterwards. *)
Definition sendMeshPacket (st : Node) (type dst : Z) (payload : list Z) (r0 r1 : Z)
  : bool * Node :=
  if negb (radioReady st && radioPresent st) then (false, st)
  else if 120 <? Z.of_nat (length payload) then (false, st)
  else
    let nonce := make_nonce r0 r1 in
    let enc := if plainType type then Some payload
               else encryptCtr (encEnabled st) (meshKey st) payload nonce (txCounter st) in
    match enc with
    | None => (false, st)
    | Some enc =>
        let frame := seal_frame (frame_header type (nodeId st) dst (txCounter st) nonce
                                   (Z.of_nat (length payload)) ++ enc) in
        let st' := set_txCounter (u32 (txCounter st + 1)) st in
        let st'' := set_air (frame :: air st') st' in
        (radio_transmit frame =? RADIOLIB_ERR_NONE, st'')
    end.

(** ** handleMeshFrame, up to the decrypted payload *)

Record Decoded := mkDecoded {
  d_type : Z; d_src : Z; d_dst : Z; d_ctr : Z; d_nonce : list Z; d_payload : list Z }.

Definition byte_at (buf : list Z) (i : nat) : Z := nth i buf 0.

(** The checks and parsing at the top of [handleMeshFrame]; [None] is one of
    its early [return]s.  For a [payloadLen] above 120 the source copies or
    decrypts the payload past the end of [uint8_t plain[120]], which is
    undefined; the model returns the buffer's bytes there, and no statement
    about a decoded frame relies on that case. *)
Definition decodeFrame (st : Node) (buf : list Z) : option Decoded :=
  let len := length buf in
  if (len <? 22)%nat then None
  else if negb ((byte_at buf 0 =? 0x4D) && (byte_at buf 1 =? 0x58)) then None
  else
  let fcrc := u16 (Z.lor (Z.shiftl (byte_at buf (len - 2)) 8) (byte_at buf (len - 1))) in
  let ccrc := crc16_ccitt (firstn (len - 2) buf) in
  if negb (fcrc =? ccrc) then None
  else
  let type := byte_at buf 3 in
  let src := u16 (Z.lor (Z.shiftl (byte_at buf 4) 8) (byte_at buf 5)) in
  let dst := u16 (Z.lor (Z.shiftl (byte_at buf 6) 8) (byte_at buf 7)) in
  let ctr := u32 (Z.lor (Z.lor (Z.lor (Z.shiftl (byte_at buf 8) 24)
                                      (Z.shiftl (byte_at buf 9) 16))
                               (Z.shiftl (byte_at buf 10) 8))
                        (byte_at buf 11)) in
  let nonce := firstn 8 (skipn 12 buf) in
  let payloadLen := byte_at buf 20 in
  if negb (21 + payloadLen + 2 =? Z.of_nat len) then None
  else if negb ((dst =? 0xFFFF) || (dst =? nodeId st)) then None
  else
  let body := firstn (Z.to_nat payloadLen) (skipn 21 buf) in
  let plain := if plainType type then Some body
               else decryptCtr (encEnabled st) (meshKey st) body nonce ctr in
  match plain with
  | None => None
  | Some p => Some (mkDecoded type src dst ctr nonce p)
  end.

(** ** Peer table: updatePeer *)

Fixpoint refresh_peer (id now : Z) (ps : list MeshPeer) : option (list MeshPeer) :=
  match ps with
  | [] => None
  | p :: rest =>
      if peer_id p =? id then Some (mkMeshPeer (peer_id p) now :: rest)
      else option_map (cons p) (refresh_peer id now rest)
  end.

(** [now] is [millis()]. *)
Definition updatePeer (id now : Z) (st : Node) : Node :=
  if id =? 0 then st
  else match refresh_peer id now (peers st) with
       | Some ps => set_peers ps st
       | None =>
           if (length (peers st) <? MAX_PEERS)%nat
           then set_peers (peers st ++ [mkMeshPeer id now]) st
           else st
       end.

(** ** Arduino [String] helpers on ASCII byte lists *)

(** [String(n)] for an unsigned [n]: its decimal digits. *)
Fixpoint dec_digits (fuel : nat) (n : Z) (acc : list Z) : list Z :=
  match fuel with
  | O => acc
  | S f =>
      let acc' := (48 + n mod 10) :: acc in
      if n / 10 =? 0 then acc' else dec_digits f (n / 10) acc'
  end.

Definition dec_string (n : Z) : list Z := dec_digits 20 n [].

Definition str_NODE : list Z := [78; 79; 68; 69; 58].
Definition str_KEY : list Z := [75; 69; 89; 58].
Definition str_KEY_OK : list Z := [75; 69; 89; 95; 79; 75].

(** [String::trim]: drop [isspace] characters at both ends. *)
Definition is_space (c : Z) : bool := (c =? 32) || ((9 <=? c) && (c <=? 13)).

Fixpoint drop_spaces (s : list Z) : list Z :=
  match s with
  | c :: r => if is_space c then drop_spaces r else s
  | [] => []
  end.

Definition trim (s : list Z) : list Z := rev (drop_spaces (rev (drop_spaces s))).

(** The [nibble] lambda of parseHexKey16. *)
Definition nibble (c : Z) : Z :=
  if (48 <=? c) && (c <=? 57) then c - 48
  else if (97 <=? c) && (c <=? 102) then 10 + (c - 97)
  else if (65 <=? c) && (c <=? 70) then 10 + (c - 65)
  else -1.

Fixpoint parse_pairs (s : list Z) : option (list Z) :=
  match s with
  | hi :: lo :: rest =>
      let h := nibble hi in
      let l := nibble lo in
      if (h <? 0) || (l <? 0) then None
      else option_map (cons (u8 (Z.lor (Z.shiftl h 4) l))) (parse_pairs rest)
  | _ => Some []
  end.

Definition parseHexKey16 (inHex : list Z) : option (list Z) :=
  let s := trim inHex in
  let s := match s with
           | c0 :: c1 :: r => if (c0 =? 48) && ((c1 =? 120) || (c1 =? 88)) then r else s
           | _ => s
           end in
  if negb (length s =? 32)%nat then None else parse_pairs s.

(** ** handleMeshFrame *)

(** The type dispatch of [handleMeshFrame] after a frame has been decoded.
    [now] is [millis()]; [r0], [r1] feed the nonce of a reply frame. The
    payload [String] of the source is kept as the byte list. *)
Definition dispatchFrame (st : Node) (d : Decoded) (now r0 r1 : Z) : Node :=
  let src := d_src d in
  let type := d_type d in
  let payload := d_payload d in
  let st := updatePeer src now st in
  if type =? 0x01 then
    let st := snd (sendMeshPacket st 0x02 src (str_NODE ++ dec_string (nodeId st)) r0 r1) in
    emit (EvtPeerFound src) st
  else if type =? 0x02 then emit (EvtPeerFound src) st
  else if type =? 0x10 then emit (EvtWeatherRx src payload) st
  else if type =? 0x20 then emit (EvtMsgRx src payload) st
  else if type =? 0x30 then
    let parsed := if list_eq_dec Z.eq_dec (firstn 4 payload) str_KEY
                  then parseHexKey16 (skipn 4 payload) else None in
    match parsed with
    | Some k =>
        let st := emit (EvtMeshKeyRx src k) (set_meshKey k st) in
        snd (sendMeshPacket st 0x31 src str_KEY_OK r0 r1)
    | None => emit (EvtMeshKeyRxErr src) st
    end
  else if type =? 0x31 then emit (EvtMeshKeyAck src) st
  else emit (EvtMeshRx src type payload) st.

Definition handleMeshFrame (st : Node) (buf : list Z) (now r0 r1 : Z) : Node :=
  match decodeFrame st buf with
  | None => st
  | Some d => dispatchFrame st d now r0 r1
  end.

(** ** Duplicate cache: isDuplicate, handleIncoming *)

(** [a[i] = v] on an array; [i] is always in range here. *)
Fixpoint list_set {A} (i : nat) (v : A) (l : list A) : list A :=
  match l, i with
  | [], _ => []
  | _ :: r, O => v :: r
  | x :: r, S i' => x :: list_set i' v r
  end.

Definition isDuplicate (crc : Z) (st : Node) : bool * Node :=
  if existsb (fun c => (c =? crc) && negb (crc =? 0)) (dupCache st) then (true, st)
  else
    let cache := list_set (Z.to_nat (dupHead st)) crc (dupCache st) in
    let head := dupHead st + 1 in
    let head := if head >=? DUP_CACHE_SIZE then 0 else head in
    (false, set_dupHead head (set_dupCache cache st)).

Definition handleIncoming (st : Node) (buf : list Z) (now r0 r1 : Z) : Node :=
  let crc := crc16_ccitt buf in
  let '(dup, st) := isDuplicate crc st in
  if dup then st
  else handleMeshFrame (emit (EvtRx buf) st) buf now r0 r1.

(** ** Radio bring-up: enforceHeltecPins, initRadioRobust, ensureMeshRunning *)

(** [enforceHeltecPins()] on [g_cfg]. *)
Definition enforceHeltecPins (c : LoraConfig) : LoraConfig :=
  {| magic := magic c; deviceType := deviceType c;
     csPin := 8; resetPin := 12; busyPin := 13; dioPin := 14;
     frequency := frequency c; bandwidth := bandwidth c;
     spreadingFactor := spreadingFactor c; codingRate := codingRate c;
     syncWord := syncWord c; preambleLength := preambleLength c;
     tcxoVoltage := if Qle_bool (tcxoVoltage c) (1 # 100) then 18 # 10
                    else tcxoVoltage c;
     useDio2AsRfSwitch := useDio2AsRfSwitch c; btEnabled := btEnabled c;
     pwr := pwr c; sclkPin := 9; misoPin := 11; mosiPin := 10;
     nssPin := 8; rstPin := 12; dio0Pin := 13; dio1Pin := 14 |}.

(** [g_cfg.tcxoVoltage = tcxo; g_cfg.pwr = outPwr;] *)
Definition commit_profile (tcxo : Q) (outPwr : Z) (c : LoraConfig) : LoraConfig :=
  {| magic := magic c; deviceType := deviceType c;
     csPin := csPin c; resetPin := resetPin c; busyPin := busyPin c; dioPin := dioPin c;
     frequency := frequency c; bandwidth := bandwidth c;
     spreadingFactor := spreadingFactor c; codingRate := codingRate c;
     syncWord := syncWord c; preambleLength := preambleLength c;
     tcxoVoltage := tcxo;
     useDio2AsRfSwitch := useDio2AsRfSwitch c; btEnabled := btEnabled c;
     pwr := outPwr; sclkPin := sclkPin c; misoPin := misoPin c; mosiPin := mosiPin c;
     nssPin := nssPin c; rstPin := rstPin c; dio0Pin := dio0Pin c; dio1Pin := dio1Pin c |}.

(** The [beginWith] lambda: a fresh [SX1262] on the configured pins, then
    [begin] with the configured radio parameters, [pwr] and [tcxo]. *)
Definition beginWith (tcxo : Q) (outPwr : Z) (st : Node) : Z * Node :=
  (radio_begin (beginCalls st) (cfg st) tcxo outPwr,
   set_beginCalls (S (beginCalls st)) (set_radioPresent true st)).

(** [tcxoTry[]] and [pwrTry[]]. *)
Definition tcxoTry (c : LoraConfig) : list Q := [tcxoVoltage c; 18 # 10; 16 # 10; 0 # 1].
Definition pwrTry (c : LoraConfig) : list Z := [pwr c; 14; 10].

(** The (tcxo, outPwr) pairs in the order of the two nested loops of
    [tryProfile]: power outside, voltage inside. *)
Definition tryOrder (c : LoraConfig) : list (Q * Z) :=
  flat_map (fun p => map (fun t => (t, p)) (tcxoTry c)) (pwrTry c).

(** The loop body of [tryProfile] over the remaining pairs; the [Z] threaded
    through is [lastState]. *)
Fixpoint tryCombos (doEmit : bool) (combos : list (Q * Z)) (st : Node) (lastState : Z)
    : bool * Node * Z :=
  match combos with
  | [] => (false, st, lastState)
  | (tcxo, outPwr) :: rest =>
      let (state, st1) := beginWith tcxo outPwr st in
      if state =? RADIOLIB_ERR_NONE then
        let st2 := set_cfg (commit_profile tcxo outPwr (cfg st1)) st1 in
        (true, if doEmit then emit (EvtTcxoAuto tcxo) st2 else st2, state)
      else tryCombos doEmit rest st1 state
  end.

(** The [tryProfile] lambda. *)
Definition tryProfile (doEmit enforcePins : bool) (st : Node) (lastState : Z)
    : bool * Node * Z :=
  let st0 := if enforcePins && (deviceType (cfg st) =? 0)
             then set_cfg (enforceHeltecPins (cfg st)) st else st in
  tryCombos doEmit (tryOrder (cfg st0)) st0 lastState.

(** [initRadioRobust(emit)]. *)
Definition initRadioRobust (doEmit : bool) (st : Node) : bool * Node :=
  let '(ok1, st1, last1) := tryProfile doEmit false st (-999) in
  let '(ok, st2, lastState) :=
    if negb ok1 && (deviceType (cfg st1) =? 0) then tryProfile doEmit true st1 last1
    else (ok1, st1, last1) in
  let st3 := set_radioReady ok st2 in
  if ok then (true, if doEmit then emit EvtRadioReady st3 else st3)
  else (false, if doEmit then emit (EvtRadioErr lastState) st3 else st3).

(** [ensureMeshRunning(emit)]. *)
Definition ensureMeshRunning (doEmit : bool) (st : Node) : bool * Node :=
  let '(ok, st1) := if radioReady st then (true, st) else initRadioRobust doEmit st in
  if negb ok then (false, if doEmit then emit EvtRadioNotReady st1 else st1)
  else
    let id := u16 (Z.land efuse_mac 0xFFFF) in
    let st2 := set_meshRunning true (set_nodeId id st1) in
    (true, if doEmit then emit (EvtMeshStarted id) st2 else st2).

(** ** Persistence: saveConfig, loadConfig *)

Definition with_magic (m : Z) (c : LoraConfig) : LoraConfig :=
  {| magic := m; deviceType := deviceType c;
     csPin := csPin c; resetPin := resetPin c; busyPin := busyPin c; dioPin := dioPin c;
     frequency := frequency c; bandwidth := bandwidth c;
     spreadingFactor := spreadingFactor c; codingRate := codingRate c;
     syncWord := syncWord c; preambleLength := preambleLength c;
     tcxoVoltage := tcxoVoltage c;
     useDio2AsRfSwitch := useDio2AsRfSwitch c; btEnabled := btEnabled c;
     pwr := pwr c; sclkPin := sclkPin c; misoPin := misoPin c; mosiPin := mosiPin c;
     nssPin := nssPin c; rstPin := rstPin c; dio0Pin := dio0Pin c; dio1Pin := dio1Pin c |}.

(** [saveWeatherConfig()]: the sensors in use, padded with [{0, false}] to
    [MAX_SENSORS].  [putBytesIfChanged] leaves the store holding the new
    bytes whether or not it writes. *)
Definition saveWeatherConfig (st : Node) : Node :=
  let w := weather st in
  let n := length (sensors w) in
  let pw := mkWeatherPersistConfig WX_MAGIC (if weatherModeEnabled w then 1 else 0)
              (weatherIntervalMs w) (Z.of_nat n)
              (sensors w ++ repeat (mkSensorDef 0 false) (Z.to_nat MAX_SENSORS - n)) in
  set_prefs (mkPrefs (cfg_blob (prefs st)) (WxCurrent pw)) st.

(** [saveConfig()]. *)
Definition saveConfig (st : Node) : Node :=
  let c := with_magic CFG_MAGIC (cfg st) in
  let st1 := set_cfg c st in
  let st2 := set_prefs (mkPrefs (CfgCurrent c) (wx_blob (prefs st1))) st1 in
  emit EvtCfgSaved (set_configSaved true (saveWeatherConfig st2)).

(** [loadWeatherConfig()]; [pinMode] calls are not modelled. *)
Definition loadWeatherConfig (st : Node) : Node :=
  let w := weather st in
  match wx_blob (prefs st) with
  | WxCurrent pw =>
      if w_magic pw =? WX_MAGIC then
        let count := if w_sensorCount pw >? MAX_SENSORS then MAX_SENSORS
                     else w_sensorCount pw in
        set_weather
          (mkWeather (negb (w_weatherMode pw =? 0))
             (if w_weatherIntervalMs pw <? 500 then 500 else w_weatherIntervalMs pw)
             (firstn (Z.to_nat count) (w_sensors pw))) st
      else set_weather (mkWeather (weatherModeEnabled w) (weatherIntervalMs w) []) st
  | _ => set_weather (mkWeather (weatherModeEnabled w) (weatherIntervalMs w) []) st
  end.

(** The field-by-field copy of [oldCfg] into [g_cfg] in [loadConfig]. *)
Definition legacy_copy (o : LegacyLoraConfig) (c : LoraConfig) : LoraConfig :=
  {| magic := l_magic o; deviceType := l_deviceType o;
     csPin := l_csPin o; resetPin := l_resetPin o; busyPin := l_busyPin o;
     dioPin := l_dioPin o;
     frequency := l_frequency o; bandwidth := l_bandwidth o;
     spreadingFactor := l_spreadingFactor o; codingRate := l_codingRate o;
     syncWord := l_syncWord o; preambleLength := l_preambleLength o;
     tcxoVoltage := l_tcxoVoltage o;
     useDio2AsRfSwitch := l_useDio2AsRfSwitch o; btEnabled := l_btEnabled o;
     pwr := pwr c; sclkPin := sclkPin c; misoPin := misoPin c; mosiPin := mosiPin c;
     nssPin := nssPin c; rstPin := rstPin c; dio0Pin := dio0Pin c; dio1Pin := dio1Pin c |}.

(** The [deviceType != 0] branch of the legacy upgrade. *)
Definition legacy_wroom (c : LoraConfig) : LoraConfig :=
  {| magic := magic c; deviceType := deviceType c;
     csPin := csPin c; resetPin := resetPin c; busyPin := busyPin c; dioPin := dioPin c;
     frequency := frequency c; bandwidth := bandwidth c;
     spreadingFactor := spreadingFactor c; codingRate := codingRate c;
     syncWord := syncWord c; preambleLength := preambleLength c;
     tcxoVoltage := tcxoVoltage c;
     useDio2AsRfSwitch := useDio2AsRfSwitch c; btEnabled := btEnabled c;
     pwr := 17; sclkPin := 18; misoPin := 19; mosiPin := 23;
     nssPin := csPin c; rstPin := resetPin c; dio0Pin := busyPin c; dio1Pin := dioPin c |}.

(** The [deviceType == 0] branch: [g_cfg.pwr = 14; enforceHeltecPins();]. *)
Definition legacy_heltec (c : LoraConfig) : LoraConfig :=
  enforceHeltecPins (commit_profile (tcxoVoltage c) 14 c).

(** [loadConfig()]: a blob of the current size is read into [g_cfg] before
    its magic is checked. *)
Definition loadConfig (st : Node) : bool * Node :=
  match cfg_blob (prefs st) with
  | CfgCurrent c =>
      let st1 := set_cfg c st in
      if magic c =? CFG_MAGIC then
        let st2 := if deviceType c =? 0 then set_cfg (enforceHeltecPins c) st1 else st1 in
        (true, set_configSaved true (loadWeatherConfig st2))
      else (false, st1)
  | CfgLegacy o =>
      if l_magic o =? CFG_MAGIC then
        let c := legacy_copy o (cfg st) in
        let c' := if deviceType c =? 0 then legacy_heltec c else legacy_wroom c in
        (true, set_configSaved true (loadWeatherConfig (set_cfg c' st)))
      else (false, st)
  | _ => (false, st)
  end.

(** ** Console commands and the SETUP loop *)

(** The commands of [handleCommand] that read or write [g_setupMode],
    [g_setupSaveRequested] or [g_radioReady]. *)
Inductive Cmd := CmdSave | CmdInit | CmdAutostart | CmdStartmesh | CmdSetup.

(** The statements of [startConfigMode()] before its [while] loop. *)
Definition enterConfigMode (st : Node) : Node :=
  emit EvtSetupInfo (emit EvtSerialSetupReady (emit EvtConfigMode
    (set_setupSaveRequested false (set_setupMode true st)))).

(** [handleCommand] on these commands.  Outside SETUP, [setup] runs
    [startConfigMode], whose loop consumes the lines that follow: its
    entry is [enterConfigMode] and the rest is [startConfigMode] below. *)
Definition handleCommand (c : Cmd) (st : Node) : Node :=
  match c with
  | CmdSetup => if setupMode st then emit EvtSetupAlready st else enterConfigMode st
  | CmdSave =>
      if negb (setupMode st) then emit EvtCfgStaged (saveConfig st)
      else emit EvtCfgStaged (set_setupSaveRequested true st)
  | CmdInit => snd (initRadioRobust true st)
  | CmdAutostart =>
      let st1 := if setupMode st then set_setupSaveRequested true st else st in
      let '(ok, st2) := ensureMeshRunning true (saveConfig st1) in
      if ok then emit EvtAutostartOk st2 else emit EvtAutostartErr st2
  | CmdStartmesh => snd (ensureMeshRunning true st)
  end.

(** The periodic [cfg_status] prompt. *)
Definition setup_prompt (st : Node) : Node :=
  emit (EvtCfgStatus (setupSaveRequested st) (radioReady st)) st.

(** The [while (true)] loop of [startConfigMode].  Each iteration reads at
    most one line ([None]: no complete line available) and the flag says
    whether the 5 s prompt interval has elapsed.  [Some rest]: the loop
    broke, leaving [rest] unread; [None]: the input ran out while still
    looping. *)
Fixpoint setup_loop (inputs : list (option Cmd * bool)) (st : Node)
    : option (list (option Cmd * bool)) * Node :=
  match inputs with
  | [] => (None, st)
  | (line, due) :: rest =>
      let st1 := match line with Some c => handleCommand c st | None => st end in
      if setupSaveRequested st1 && radioReady st1 then (Some rest, st1)
      else setup_loop rest (if due then setup_prompt st1 else st1)
  end.

(** [startConfigMode()] on the given input. *)
Definition startConfigMode (inputs : list (option Cmd * bool)) (st : Node)
    : option (list (option Cmd * bool)) * Node :=
  match setup_loop inputs (enterConfigMode st) with
  | (Some rest, st1) =>
      let st2 := emit EvtConfigDone (saveConfig st1) in
      (Some rest, set_setupMode false (snd (ensureMeshRunning true st2)))
  | (None, st1) => (None, st1)
  end.


(** ** Hex and JSON text: toHexByte, meshKeyHex, toHex, jsonEscape *)

(** ["0123456789ABCDEF"]. *)
Definition hex_table : list Z :=
  [48; 49; 50; 51; 52; 53; 54; 55; 56; 57; 65; 66; 67; 68; 69; 70].

(** [toHexByte(b)]: [hex[(b >> 4) & 0x0F]], then [hex[b & 0x0F]]. *)
Definition toHexByte (b : Z) : list Z :=
  [nth (Z.to_nat (Z.land (Z.shiftr b 4) 0x0F)) hex_table 0;
   nth (Z.to_nat (Z.land b 0x0F)) hex_table 0].

(** [meshKeyHex()]: [toHexByte(g_meshKey[i])] for [i] in [0 .. 16). *)
Definition meshKeyHex (key : list Z) : list Z := flat_map toHexByte (firstn 16 key).

(** The digit expression of [toHex]: [n < 10 ? '0' + n : 'A' + n - 10]. *)
Definition hex_char (n : Z) : Z := if n <? 10 then 48 + n else 65 + n - 10.

(** [toHex(buf, len)]. *)
Definition toHex (buf : list Z) : list Z :=
  flat_map (fun b => [hex_char (Z.land (Z.shiftr b 4) 0x0F); hex_char (Z.land b 0x0F)]) buf.

(** The loop body of [jsonEscape] on [in[i]]; [c] is [(uint8_t)in[i]]. *)
Definition jsonEscape_char (ch : Z) : list Z :=
  let c := u8 ch in
  if c =? 34 then [92; 34]
  else if c =? 92 then [92; 92]
  else if c =? 10 then [92; 110]
  else if c =? 13 then [92; 114]
  else if c =? 9 then [92; 116]
  else if (32 <=? c) && (c <=? 126) then [c]
  else [92; 117; 48; 48] ++ toHexByte c.

Definition jsonEscape (s : list Z) : list Z := flat_map jsonEscape_char s.

(** [String::toLowerCase] on one character. *)
Definition to_lower (c : Z) : Z := if (65 <=? c) && (c <=? 90) then c + 32 else c.

(** ** sendMsg: the Bluetooth notification chunks *)

Definition BLE_CHUNK : nat := 180.

(** The [for (off = 0; off < len; off += chunk)] loop of [sendMsg]: the
    bytes [raw + off .. raw + off + chunkLen) of each notification, in
    order.  The loop runs at most [len] times, which is the fuel. *)
Fixpoint sendMsg_chunks (fuel off : nat) (line : list Z) : list (list Z) :=
  match fuel with
  | O => []
  | S f =>
      if (off <? length line)%nat then
        let chunkLen := Nat.min BLE_CHUNK (length line - off) in
        firstn chunkLen (skipn off line) :: sendMsg_chunks f (off + BLE_CHUNK) line
      else []
  end.

Definition ble_chunks (line : list Z) : list (list Z) := sendMsg_chunks (length line) 0 line.

(** ** RxCB::onWrite: assembling command lines from Bluetooth writes *)

(** [String(value.c_str())]: the written bytes up to the first NUL. *)
Fixpoint until_nul (v : list Z) : list Z :=
  match v with
  | [] => []
  | c :: r => if c =? 0 then [] else c :: until_nul r
  end.

(** The [for] loop of [onWrite] over [incoming] from the buffer [*_target]:
    the buffer afterwards and the lines handed to [handleCommand], in
    order. *)
Fixpoint rx_feed (target incoming : list Z) : list Z * list (list Z) :=
  match incoming with
  | [] => (target, [])
  | ch :: rest =>
      if ch =? 13 then rx_feed target rest
      else if ch =? 10 then
        let line := trim target in
        let '(t, lines) := rx_feed [] rest in
        (t, if (length line =? 0)%nat then lines else line :: lines)
      else rx_feed (target ++ [ch]) rest
  end.

Definition RxCB_onWrite (target value : list Z) : list Z * list (list Z) :=
  let incoming := until_nul value in
  if (length incoming =? 0)%nat then (target, []) else rx_feed target incoming.

(** ** Weather sensors: addSensor, sendWeatherPacket *)

(** The search loop of [addSensor]: [Some] the table with the matching
    entry's mode replaced, [None] when no entry has the pin. *)
Fixpoint set_sensor_mode (pin : Z) (analogMode : bool) (ss : list SensorDef)
    : option (list SensorDef) :=
  match ss with
  | [] => None
  | s :: rest =>
      if sensor_pin s =? pin then Some (mkSensorDef (sensor_pin s) analogMode :: rest)
      else option_map (cons s) (set_sensor_mode pin analogMode rest)
  end.

(** [addSensor(pin, analogMode)]; [pinMode] is not modelled. *)
Definition addSensor (pin : Z) (analogMode : bool) (st : Node) : bool * Node :=
  let w := weather st in
  match set_sensor_mode pin analogMode (sensors w) with
  | Some ss => (true, set_weather (mkWeather (weatherModeEnabled w) (weatherIntervalMs w) ss) st)
  | None =>
      if Z.of_nat (length (sensors w)) >=? MAX_SENSORS then (false, st)
      else (true, set_weather (mkWeather (weatherModeEnabled w) (weatherIntervalMs w)
                                 (sensors w ++ [mkSensorDef pin analogMode])) st)
  end.

Definition str_WX : list Z := [87; 88; 58].

(** [String(v)] for an [int]. *)
Definition int_string (v : Z) : list Z :=
  if v <? 0 then 45 :: dec_string (- v) else dec_string v.

(** The payload [String] of [sendWeatherPacket]: ["WX:" + id], then
    [";" + pin + ":" + value] per sensor. *)
Definition weather_payload (id : Z) (ss : list SensorDef) (read : SensorDef -> Z) : list Z :=
  str_WX ++ dec_string id
  ++ flat_map (fun s => [59] ++ dec_string (sensor_pin s) ++ [58] ++ int_string (read s)) ss.

(** [sendWeatherPacket()]: [read s] is [analogRead] or [digitalRead] on the
    sensor's pin, [r0], [r1] feed the nonce.  [sendMeshPacket] gets
    [(uint8_t)payload.length()] bytes of the payload.  The sensor count of
    the [weather_tx] notification is not kept. *)
Definition sendWeatherPacket (st : Node) (read : SensorDef -> Z) (r0 r1 : Z) : Node :=
  if negb (meshRunning st && radioReady st) then st
  else
    let payload := weather_payload (nodeId st) (sensors (weather st)) read in
    let len := u8 (Z.of_nat (length payload)) in
    let '(ok, st1) := sendMeshPacket st 0x10 BROADCAST (firstn (Z.to_nat len) payload) r0 r1 in
    if ok then emit (EvtOther EvtName.weather_tx) st1 else st1.

(** ** Sending text and discovery: sendWebsiteMessage, broadcastDiscovery *)

(** [sendWebsiteMessage(dst, payload)]. *)
Definition sendWebsiteMessage (st : Node) (dst : Z) (payload : list Z) (r0 r1 : Z)
    : bool * Node :=
  if negb (meshRunning st && radioReady st) then (false, st)
  else
    let p := trim payload in
    if (length p =? 0)%nat || (120 <? Z.of_nat (length p)) then (false, st)
    else sendMeshPacket st 0x20 dst (firstn (Z.to_nat (u8 (Z.of_nat (length p)))) p) r0 r1.

Definition str_DISCOVER : list Z := [68; 73; 83; 67; 79; 86; 69; 82; 58].

(** [broadcastDiscovery()]. *)
Definition broadcastDiscovery (st : Node) (r0 r1 : Z) : Node :=
  let p := str_DISCOVER ++ dec_string (nodeId st) in
  let '(ok, st1) :=
    sendMeshPacket st 0x01 BROADCAST (firstn (Z.to_nat (u8 (Z.of_nat (length p)))) p) r0 r1 in
  if ok then emit (EvtOther EvtName.scan_started) st1 else emit (EvtRadioErr (-999)) st1.

(** The [mesh keysend <nodeId>] branch of [handleCommand]; [dst] is
    [(uint16_t)cmd.substring(13).toInt()].  The [dst] field of the
    [mesh_key_tx] / [mesh_key_tx_err] notifications is not kept. *)
Definition meshKeysend (st : Node) (dst r0 r1 : Z) : Node :=
  if negb (meshRunning st && radioReady st) then emit EvtRadioNotReady st
  else
    let payload := str_KEY ++ meshKeyHex (meshKey st) in
    let '(ok, st1) :=
      sendMeshPacket st 0x30 dst (firstn (Z.to_nat (u8 (Z.of_nat (length payload)))) payload)
        r0 r1 in
    emit (EvtOther (if ok then EvtName.mesh_key_tx else EvtName.mesh_key_tx_err)) st1.

(** ** The [mesh key <hex>] command *)

(** ["mesh key "]. *)
Definition str_mesh_key_sp : list Z := [109; 101; 115; 104; 32; 107; 101; 121; 32].

(** The [mesh key <hex>] branch of [handleCommand(raw)]: [cmd] is [raw]
    trimmed and lower-cased, and [keyHex] is [cmd.substring(9)].  The branch
    is the one taken when [cmd] starts with ["mesh key "] and is none of the
    commands tested before it.  The value of the [mesh_key] notification is
    not kept. *)
Definition meshKeySetCommand (raw : list Z) (st : Node) : Node :=
  let cmd := map to_lower (trim raw) in
  let keyHex := skipn 9 cmd in
  match parseHexKey16 keyHex with
  | None => emit (EvtRadioErr (-910)) st
  | Some parsed => emit EvtOk (emit (EvtOther EvtName.mesh_key) (set_meshKey parsed st))
  end.

(** ** Auxiliary notions for the further statements *)

(** The string [parseHexKey16] checks, after [trim] and an optional [0x]/[0X]. *)
Definition hex_body (inHex : list Z) : list Z :=
  let s := trim inHex in
  match s with
  | c0 :: c1 :: r => if (c0 =? 48) && ((c1 =? 120) || (c1 =? 88)) then r else s
  | _ => s
  end.

(** At most [MAX_PEERS] entries, distinct ids, none of them 0. *)
Definition peers_wf (ps : list MeshPeer) : Prop :=
  (length ps <= MAX_PEERS)%nat /\ NoDup (map peer_id ps) /\ ~ In 0 (map peer_id ps).

(** At most [MAX_SENSORS] entries with distinct pins. *)
Definition sensors_wf (ss : list SensorDef) : Prop :=
  Z.of_nat (length ss) <= MAX_SENSORS /\ NoDup (map sensor_pin ss).

(** [start], [start + 1], ..., [n] values. *)
Fixpoint zrange (start : Z) (n : nat) : list Z :=
  match n with
  | O => []
  | S n' => start :: zrange (start + 1) n'
  end.

(** Undoes one step of [crc16_bit] on 16-bit values: the low bit of the
    result is the bit shifted out. *)
Definition crc16_unbit (y : Z) : Z :=
  if Z.odd y then Z.lor (Z.shiftr (Z.lxor y 0x1021) 1) 0x8000 else Z.shiftr y 1.

(** The two hex digits of [toHexByte b], after [f], are neither blanks nor
    [x]/[X], and the [nibble] decoding of [parseHexKey16] gives [b] back. *)
Definition hex_pair_ok (f : Z -> Z) (b : Z) : bool :=
  let h := f (nth 0 (toHexByte b) 0) in
  let l := f (nth 1 (toHexByte b) 0) in
  negb ((nibble h <? 0) || (nibble l <? 0))
  && (u8 (Z.lor (Z.shiftl (nibble h) 4) (nibble l)) =? b)
  && negb (is_space h) && negb (is_space l)
  && negb ((l =? 120) || (l =? 88)).

(** [a] is a prefix of [b]. *)
Fixpoint is_prefix (a b : list Z) : bool :=
  match a, b with
  | [], _ => true
  | x :: a', y :: b' => (x =? y) && is_prefix a' b'
  | _ :: _, [] => false
  end.


(** ** Auxiliary notions used by the statements *)

Definition wire_frame (st : Node) (type dst : Z) (payload : list Z) (r0 r1 : Z)
    (enc : list Z) : list Z :=
  seal_frame (frame_header type (nodeId st) dst (txCounter st) (make_nonce r0 r1)
                (Z.of_nat (length payload)) ++ enc).

Definition ctr_payload (st : Node) (payload : list Z) (r0 r1 : Z) : list Z :=
  aes_crypt_ctr (meshKey st) 0 (nonce_counter (make_nonce r0 r1) (txCounter st))
    (repeat 0 16) payload.

Definition dup_wf (st : Node) : Prop :=
  length (dupCache st) = 24%nat /\ 0 <= dupHead st < 24.

Fixpoint submit_all (crcs : list Z) (st : Node) : Node :=
  match crcs with
  | [] => st
  | c :: rest => submit_all rest (snd (isDuplicate c st))
  end.

(** The counter field of a frame, read as [handleMeshFrame] reads it. *)
Definition frame_ctr (f : list Z) : Z :=
  u32 (Z.lor (Z.lor (Z.lor (Z.shiftl (byte_at f 8) 24) (Z.shiftl (byte_at f 9) 16))
                    (Z.shiftl (byte_at f 10) 8))
             (byte_at f 11)).

(** Frames, oldest first, whose counters are [c], [c + 1], ... modulo 2^32. *)
Fixpoint stamped_from (c : Z) (oldest_first : list (list Z)) : Prop :=
  match oldest_first with
  | [] => True
  | f :: fs => frame_ctr f = u32 c /\ stamped_from (c + 1) fs
  end.

(** From [st] to [st'] the node sent the frames [sent] (newest first), they
    carry consecutive counters from [txCounter st], and the counter moved by
    their number. *)
Definition advances (st st' : Node) : Prop :=
  exists sent, air st' = sent ++ air st
    /\ stamped_from (txCounter st) (rev sent)
    /\ txCounter st' = u32 (txCounter st + Z.of_nat (length sent)).

(** The operations of the firmware that change a node: sending a mesh
    packet, a frame arriving through [handleIncoming], the [send]/[sendto],
    [mesh scan], [mesh keysend], [mesh key <hex>] and [weather add] commands,
    a weather report, the [save], [init], [autostart], [startmesh] and
    [setup] commands, a run of the SETUP loop, and [loadConfig]. *)
Inductive MeshOp :=
| OpSend (type dst : Z) (payload : list Z) (r0 r1 : Z)
| OpReceive (buf : list Z) (now r0 r1 : Z)
| OpWebsite (dst : Z) (payload : list Z) (r0 r1 : Z)
| OpDiscovery (r0 r1 : Z)
| OpKeysend (dst r0 r1 : Z)
| OpMeshKey (raw : list Z)
| OpAddSensor (pin : Z) (analogMode : bool)
| OpWeather (read : SensorDef -> Z) (r0 r1 : Z)
| OpCommand (c : Cmd)
| OpConfigMode (inputs : list (option Cmd * bool))
| OpLoadConfig.

Definition run_op (st : Node) (op : MeshOp) : Node :=
  match op with
  | OpSend type dst payload r0 r1 => snd (sendMeshPacket st type dst payload r0 r1)
  | OpReceive buf now r0 r1 => handleIncoming st buf now r0 r1
  | OpWebsite dst payload r0 r1 => snd (sendWebsiteMessage st dst payload r0 r1)
  | OpDiscovery r0 r1 => broadcastDiscovery st r0 r1
  | OpKeysend dst r0 r1 => meshKeysend st dst r0 r1
  | OpMeshKey raw => meshKeySetCommand raw st
  | OpAddSensor pin analogMode => snd (addSensor pin analogMode st)
  | OpWeather read r0 r1 => sendWeatherPacket st read r0 r1
  | OpCommand c => handleCommand c st
  | OpConfigMode inputs => snd (startConfigMode inputs st)
  | OpLoadConfig => snd (loadConfig st)
  end.

(** The operations run one after the other. *)
Definition run_ops (st : Node) (ops : list MeshOp) : Node := fold_left run_op ops st.

(** * Proofs *)

(** CRC-16/CCITT-FALSE check value. *)
Example crc16_check :
  crc16_ccitt [0x31; 0x32; 0x33; 0x34; 0x35; 0x36; 0x37; 0x38; 0x39] = 0x29B1.
Proof. reflexivity. Qed.

(** ** Byte-level lemmas *)

Lemma u8_spec x : u8 x = x mod 256.
Proof. unfold u8. change 255 with (Z.ones 8). now rewrite Z.land_ones by lia. Qed.

Lemma u16_spec x : u16 x = x mod 65536.
Proof. unfold u16. change 65535 with (Z.ones 16). now rewrite Z.land_ones by lia. Qed.

Lemma u32_spec x : u32 x = x mod 4294967296.
Proof. unfold u32. change 4294967295 with (Z.ones 32). now rewrite Z.land_ones by lia. Qed.

Lemma u8_range x : is_u8 (u8 x).
Proof. unfold is_u8. rewrite u8_spec. apply Z.mod_pos_bound. lia. Qed.

Lemma u16_range x : is_u16 (u16 x).
Proof. unfold is_u16. rewrite u16_spec. apply Z.mod_pos_bound. lia. Qed.

Lemma u8_id x : is_u8 x -> u8 x = x.
Proof. unfold is_u8. intros. rewrite u8_spec. apply Z.mod_small. lia. Qed.

Lemma u16_id x : is_u16 x -> u16 x = x.
Proof. unfold is_u16. intros. rewrite u16_spec. apply Z.mod_small. lia. Qed.

Lemma u32_id x : is_u32 x -> u32 x = x.
Proof. unfold is_u32. intros. rewrite u32_spec. apply Z.mod_small. lia. Qed.

(** Testbit rewriting for masks, shifts and bitwise connectives. *)
Ltac bits_simpl :=
  repeat first
    [ rewrite Z.lor_spec | rewrite Z.land_spec | rewrite Z.lxor_spec
    | rewrite Z.shiftl_spec by lia | rewrite Z.shiftr_spec by lia ].

Lemma u8_lxor_u8 x s : u8 (Z.lxor (u8 x) s) = u8 (Z.lxor x s).
Proof.
  unfold u8. apply Z.bits_inj'. intros n Hn. bits_simpl.
  destruct (Z.testbit x n), (Z.testbit s n), (Z.testbit 255 n); reflexivity.
Qed.

Lemma ctr_byte_involutive c s : is_u8 c -> u8 (Z.lxor (u8 (Z.lxor c s)) s) = c.
Proof.
  intros Hc. rewrite u8_lxor_u8, Z.lxor_assoc, Z.lxor_nilpotent, Z.lxor_0_r.
  now apply u8_id.
Qed.

(** [x << k | y] with [y] below [2^k] is an addition. *)
Lemma lor_shiftl_low x y k : 0 <= k -> 0 <= y < 2 ^ k ->
  Z.lor (Z.shiftl x k) y = x * 2 ^ k + y.
Proof.
  intros Hk Hy.
  assert (Hd : Z.land (Z.shiftl x k) y = 0).
  { apply Z.bits_inj'. intros n Hn. rewrite Z.land_spec, Z.bits_0.
    destruct (Z.lt_ge_cases n k).
    - rewrite Z.shiftl_spec_low by lia. reflexivity.
    - rewrite <- (Z.mod_small y (2 ^ k)) by lia.
      rewrite Z.mod_pow2_bits_high by lia. apply andb_false_r. }
  rewrite <- Z.lxor_lor by exact Hd.
  rewrite <- Z.add_nocarry_lxor by exact Hd.
  now rewrite Z.shiftl_mul_pow2 by lia.
Qed.

Lemma join2 a b : is_u8 b -> Z.lor (Z.shiftl a 8) b = a * 256 + b.
Proof. unfold is_u8. intros. apply lor_shiftl_low; simpl; lia. Qed.

Lemma join4 a b c d : is_u8 b -> is_u8 c -> is_u8 d ->
  Z.lor (Z.lor (Z.lor (Z.shiftl a 24) (Z.shiftl b 16)) (Z.shiftl c 8)) d
  = ((a * 256 + b) * 256 + c) * 256 + d.
Proof.
  intros Hb Hc Hd.
  assert (E1 : Z.lor (Z.shiftl a 24) (Z.shiftl b 16) = Z.shiftl (a * 256 + b) 16).
  { replace (Z.shiftl a 24) with (Z.shiftl (Z.shiftl a 8) 16)
      by (rewrite Z.shiftl_shiftl by lia; reflexivity).
    rewrite <- Z.shiftl_lor, join2 by assumption. reflexivity. }
  assert (E2 : Z.lor (Z.shiftl (a * 256 + b) 16) (Z.shiftl c 8)
               = Z.shiftl ((a * 256 + b) * 256 + c) 8).
  { replace (Z.shiftl (a * 256 + b) 16) with (Z.shiftl (Z.shiftl (a * 256 + b) 8) 8)
      by (rewrite Z.shiftl_shiftl by lia; reflexivity).
    rewrite <- Z.shiftl_lor, join2 by assumption. reflexivity. }
  rewrite E1, E2, join2 by assumption. reflexivity.
Qed.

Lemma byte_of_shiftr c k : 0 <= k -> u8 (Z.shiftr c k) = (c / 2 ^ k) mod 256.
Proof. intros. now rewrite u8_spec, Z.shiftr_div_pow2. Qed.

(** Reading back what [be16] and [be32] wrote. *)
Lemma join16 c : is_u16 c ->
  u16 (Z.lor (Z.shiftl (u8 (Z.shiftr c 8)) 8) (u8 c)) = c.
Proof.
  unfold is_u16. intros Hc. rewrite join2 by apply u8_range.
  rewrite byte_of_shiftr, u8_spec by lia. change (2 ^ 8) with 256.
  rewrite u16_id; unfold is_u16; Z.to_euclidean_division_equations; lia.
Qed.

Lemma join32 c : is_u32 c ->
  u32 (Z.lor (Z.lor (Z.lor (Z.shiftl (u8 (Z.shiftr c 24)) 24)
                            (Z.shiftl (u8 (Z.shiftr c 16)) 16))
                     (Z.shiftl (u8 (Z.shiftr c 8)) 8))
              (u8 c)) = c.
Proof.
  unfold is_u32. intros Hc. rewrite join4 by apply u8_range.
  rewrite !byte_of_shiftr, u8_spec by lia.
  change (2 ^ 24) with 16777216. change (2 ^ 16) with 65536. change (2 ^ 8) with 256.
  rewrite u32_id; unfold is_u32; Z.to_euclidean_division_equations; lia.
Qed.

(** ** Cipher lemmas *)

Lemma aes_crypt_ctr_length key n nc sb input :
  length (aes_crypt_ctr key n nc sb input) = length input.
Proof.
  revert n nc sb. induction input as [|c rest IH]; intros n nc sb; simpl; [reflexivity|].
  now rewrite IH.
Qed.

(** The keystream does not depend on the data, so running the CTR loop twice
    from the same state gives back the input bytes. *)
Lemma aes_crypt_ctr_involutive key n nc sb input :
  Forall is_u8 input ->
  aes_crypt_ctr key n nc sb (aes_crypt_ctr key n nc sb input) = input.
Proof.
  revert n nc sb. induction input as [|c rest IH]; intros n nc sb Hb; [reflexivity|].
  inversion Hb as [|? ? Hc Hrest]; subst.
  simpl. rewrite ctr_byte_involutive by exact Hc. f_equal. now apply IH.
Qed.

Lemma encryptCtr_length enabled key plain nonce counter c :
  encryptCtr enabled key plain nonce counter = Some c -> length c = length plain.
Proof.
  unfold encryptCtr. destruct enabled; simpl.
  - destruct (aes_setkey_ok key); simpl; intros H; inversion H; subst.
    apply aes_crypt_ctr_length.
  - intros H; now inversion H.
Qed.

(** ** Frame lemmas *)

Lemma crc16_bit_range crc : is_u16 (crc16_bit crc).
Proof. unfold crc16_bit. destruct (negb _); apply u16_range. Qed.

Lemma crc16_bits_range i crc : is_u16 crc -> is_u16 (crc16_bits i crc).
Proof.
  revert crc. induction i as [|i IH]; intros crc H; [exact H|].
  exact (IH _ (crc16_bit_range crc)).
Qed.

Lemma crc16_loop_range crc data : is_u16 crc -> is_u16 (crc16_loop crc data).
Proof.
  revert crc. induction data as [|b rest IH]; intros crc H; [exact H|].
  exact (IH _ (crc16_bits_range _ _ (u16_range _))).
Qed.

Lemma crc16_ccitt_range data : is_u16 (crc16_ccitt data).
Proof. apply crc16_loop_range. unfold is_u16. lia. Qed.

Lemma seal_frame_length body : length (seal_frame body) = (length body + 2)%nat.
Proof. unfold seal_frame. rewrite length_app. reflexivity. Qed.

Lemma seal_frame_firstn body : firstn (length body) (seal_frame body) = body.
Proof.
  unfold seal_frame. rewrite firstn_app, Nat.sub_diag, firstn_all. simpl.
  apply app_nil_r.
Qed.

Lemma seal_frame_body body i : (i < length body)%nat ->
  byte_at (seal_frame body) i = byte_at body i.
Proof. intros H. unfold seal_frame, byte_at. now rewrite app_nth1. Qed.

Lemma seal_frame_hi body :
  byte_at (seal_frame body) (length body) = u8 (Z.shiftr (crc16_ccitt body) 8).
Proof.
  unfold seal_frame, byte_at. rewrite app_nth2, Nat.sub_diag by lia. reflexivity.
Qed.

Lemma seal_frame_lo body :
  byte_at (seal_frame body) (S (length body)) = u8 (crc16_ccitt body).
Proof.
  unfold seal_frame, byte_at. rewrite app_nth2 by lia.
  replace (S (length body) - length body)%nat with 1%nat by lia. reflexivity.
Qed.

Lemma make_nonce_length r0 r1 : length (make_nonce r0 r1) = 8%nat.
Proof. reflexivity. Qed.

(** Decoding a frame laid out by [sendMeshPacket]. *)
Lemma decode_sealed st type src dst ctr r0 r1 enc p :
  is_u8 type -> is_u16 src -> is_u16 dst -> is_u32 ctr -> (length enc <= 120)%nat ->
  (dst = BROADCAST \/ dst = nodeId st) ->
  (if plainType type then Some enc
   else decryptCtr (encEnabled st) (meshKey st) enc (make_nonce r0 r1) ctr) = Some p ->
  decodeFrame st (seal_frame (frame_header type src dst ctr (make_nonce r0 r1)
                                (Z.of_nat (length enc)) ++ enc))
  = Some (mkDecoded type src dst ctr (make_nonce r0 r1) p).
Proof.
  intros Ht Hs Hd Hc Hlen Haddr Hp.
  set (hdr := frame_header type src dst ctr (make_nonce r0 r1) (Z.of_nat (length enc))).
  set (body := hdr ++ enc).
  assert (Hlb : length body = (21 + length enc)%nat)
    by (unfold body; rewrite length_app; reflexivity).
  assert (Hsplit : seal_frame body
                   = hdr ++ enc ++ [u8 (Z.shiftr (crc16_ccitt body) 8); u8 (crc16_ccitt body)])
    by (unfold seal_frame, body; rewrite <- app_assoc; reflexivity).
  unfold decodeFrame.
  rewrite seal_frame_length, Hlb.
  replace (21 + length enc + 2 - 2)%nat with (length body) by lia.
  replace (21 + length enc + 2 - 1)%nat with (S (length body)) by lia.
  rewrite seal_frame_firstn, seal_frame_hi, seal_frame_lo.
  rewrite join16 by apply crc16_ccitt_range.
  rewrite Z.eqb_refl.
  replace ((21 + length enc + 2 <? 22)%nat) with false
    by (symmetry; apply Nat.ltb_ge; lia).
  rewrite Hsplit. generalize (crc16_ccitt body). intros crc. revert Hp.
  unfold hdr, frame_header, be16, be32, make_nonce, le32,
    MESH_MAGIC0, MESH_MAGIC1, MESH_VERSION, byte_at.
  cbn [app nth skipn firstn].
  rewrite Nat2Z.id, firstn_app, firstn_all, Nat.sub_diag, app_nil_r.
  rewrite !join16, join32 by assumption.
  replace (21 + Z.of_nat (length enc) + 2 =? Z.of_nat (21 + length enc + 2)) with true
    by (symmetry; apply Z.eqb_eq; lia).
  cbn [negb andb orb Z.eqb].
  replace ((dst =? 0xFFFF) || (dst =? nodeId st)) with true
    by (unfold BROADCAST in Haddr; destruct Haddr as [->| ->];
        [reflexivity | symmetry; apply orb_true_iff; right; apply Z.eqb_refl]).
  cbn [negb]. intros Hp. rewrite Hp, Z.eqb_refl. reflexivity.
Qed.

Lemma encryptCtr_roundtrip enabled key payload nonce counter c :
  Forall is_u8 payload ->
  encryptCtr enabled key payload nonce counter = Some c ->
  decryptCtr enabled key c nonce counter = Some payload.
Proof.
  intros Hb. unfold decryptCtr, encryptCtr. destruct enabled; cbn [negb].
  - destruct (aes_setkey_ok key); cbn [negb]; intros H; inversion H; subst.
    now rewrite aes_crypt_ctr_involutive.
  - intros H. now inversion H.
Qed.

Lemma encryptCtr_ok enabled key payload nonce counter :
  (enabled = false \/ aes_setkey_ok key = true) ->
  exists c, encryptCtr enabled key payload nonce counter = Some c.
Proof.
  unfold encryptCtr. intros [He | Hk].
  - subst enabled. eexists. reflexivity.
  - rewrite Hk. destruct enabled; eexists; reflexivity.
Qed.

Lemma encryptCtr_disabled key payload nonce counter :
  encryptCtr false key payload nonce counter = Some payload.
Proof. reflexivity. Qed.

(** C1. Encode/decode round trip: a frame that [sendMeshPacket] builds for a
    type byte, a destination and a payload of at most 120 bytes, handed to
    [handleMeshFrame] on a node addressed by it (its id or broadcast) with the
    same encryption flag and key, decodes to the sent type, the sender's id,
    the destination, the sender's counter, the nonce and the payload. *)
Theorem encode_decode_roundtrip (sender receiver : Node) (type dst : Z)
    (payload : list Z) (r0 r1 : Z) :
  is_u8 type -> is_u16 dst -> Forall is_u8 payload -> (length payload <= 120)%nat ->
  is_u16 (nodeId sender) -> is_u32 (txCounter sender) ->
  radioReady sender = true -> radioPresent sender = true ->
  aes_setkey_ok (meshKey sender) = true ->
  (dst = BROADCAST \/ dst = nodeId receiver) ->
  encEnabled receiver = encEnabled sender -> meshKey receiver = meshKey sender ->
  exists frame,
    air (snd (sendMeshPacket sender type dst payload r0 r1)) = frame :: air sender /\
    decodeFrame receiver frame
    = Some (mkDecoded type (nodeId sender) dst (txCounter sender) (make_nonce r0 r1) payload).
Proof.
  intros Ht Hd Hb Hlen Hsrc Hctr Hready Hpres Hkey Haddr Henc Hmk.
  unfold sendMeshPacket. rewrite Hready, Hpres. cbn [andb negb].
  replace (120 <? Z.of_nat (length payload)) with false
    by (symmetry; apply Z.ltb_ge; lia).
  destruct (plainType type) eqn:Hpt.
  - eexists; split; [reflexivity|].
    apply decode_sealed; try assumption. now rewrite Hpt.
  - destruct (encryptCtr_ok (encEnabled sender) (meshKey sender) payload
                (make_nonce r0 r1) (txCounter sender) (or_intror Hkey)) as [c Hc].
    rewrite Hc. eexists; split; [reflexivity|].
    rewrite <- (encryptCtr_length _ _ _ _ _ _ Hc).
    apply decode_sealed; try assumption.
    + now rewrite (encryptCtr_length _ _ _ _ _ _ Hc).
    + rewrite Hpt, Henc, Hmk. now apply (encryptCtr_roundtrip _ _ _ _ _ _ Hb).
Qed.

(** C3. Cipher round trip: whenever [encryptCtr] produces a ciphertext for a
    payload under a key, a nonce and a counter, [decryptCtr] with the same
    key, nonce and counter gives the payload back; with encryption disabled
    [encryptCtr] returns the payload unchanged. *)
Theorem cipher_roundtrip (enabled : bool) (key payload nonce : list Z) (counter : Z)
    (c : list Z) :
  Forall is_u8 payload ->
  encryptCtr enabled key payload nonce counter = Some c ->
  decryptCtr enabled key c nonce counter = Some payload
  /\ encryptCtr false key payload nonce counter = Some payload.
Proof.
  intros Hb Hc. split.
  - exact (encryptCtr_roundtrip _ _ _ _ _ _ Hb Hc).
  - apply encryptCtr_disabled.
Qed.

(** ** Notifications and the frame handler *)

Lemma updatePeer_msgs id now st : msgs (updatePeer id now st) = msgs st.
Proof.
  unfold updatePeer. destruct (id =? 0); [reflexivity|].
  destruct (refresh_peer id now (peers st)); [reflexivity|].
  destruct (_ <? _)%nat; reflexivity.
Qed.

Lemma sendMeshPacket_msgs st type dst payload r0 r1 :
  msgs (snd (sendMeshPacket st type dst payload r0 r1)) = msgs st.
Proof.
  unfold sendMeshPacket.
  destruct (negb _); [reflexivity|].
  destruct (120 <? _); [reflexivity|].
  destruct (if plainType type then _ else _); reflexivity.
Qed.

Lemma dispatchFrame_emits st d now r0 r1 :
  exists e, msgs (dispatchFrame st d now r0 r1) = e :: msgs st.
Proof.
  unfold dispatchFrame. cbv zeta.
  destruct (d_type d =? 1).
  { eexists. cbn [emit set_msgs msgs].
    now rewrite sendMeshPacket_msgs, updatePeer_msgs. }
  destruct (d_type d =? 2).
  { eexists. cbn [emit set_msgs msgs]. now rewrite updatePeer_msgs. }
  destruct (d_type d =? 16).
  { eexists. cbn [emit set_msgs msgs]. now rewrite updatePeer_msgs. }
  destruct (d_type d =? 32).
  { eexists. cbn [emit set_msgs msgs]. now rewrite updatePeer_msgs. }
  destruct (d_type d =? 48).
  { destruct (if list_eq_dec Z.eq_dec _ _ then _ else None).
    - eexists. rewrite sendMeshPacket_msgs. cbn [emit set_msgs set_meshKey msgs].
      now rewrite updatePeer_msgs.
    - eexists. cbn [emit set_msgs msgs]. now rewrite updatePeer_msgs. }
  destruct (d_type d =? 49);
    eexists; cbn [emit set_msgs msgs]; now rewrite updatePeer_msgs.
Qed.

Lemma byte_at_u8 buf i : Forall is_u8 buf -> is_u8 (byte_at buf i).
Proof.
  intros H. unfold byte_at. destruct (Nat.lt_ge_cases i (length buf)) as [Hi|Hi].
  - exact (proj1 (Forall_nth is_u8 buf) H i 0 Hi).
  - rewrite nth_overflow by exact Hi. unfold is_u8. lia.
Qed.

(** The big-endian 16-bit fields read by [handleMeshFrame]. *)
Lemma frame_word buf i j : Forall is_u8 buf ->
  u16 (Z.lor (Z.shiftl (byte_at buf i) 8) (byte_at buf j))
  = byte_at buf i * 256 + byte_at buf j.
Proof.
  intros H. pose proof (byte_at_u8 buf i H) as Hi. pose proof (byte_at_u8 buf j H) as Hj.
  rewrite join2 by exact Hj. apply u16_id. unfold is_u8, is_u16 in *. lia.
Qed.

(** C4 (amended). [handleMeshFrame] returns without any state change or
    notification when the input is shorter than 22 bytes, when the magic
    bytes differ, when the CRC-16/CCITT-FALSE of all but the last two bytes
    differs from the big-endian value of the last two, or when
    [21 + payloadLen + 2] differs from the length. These are not the only
    silent drops: a frame that passes all four checks is still dropped
    silently when its destination is neither 0xFFFF nor the node's id, and
    when its type is not a plaintext type while encryption is on and the key
    cannot be set (the payload cannot be decrypted). Otherwise, for a
    [payloadLen] of at most 120 (a larger one is copied or decrypted past
    the end of [plain[120]]), a notification is emitted. *)
Theorem handleMeshFrame_rejects (st : Node) (buf : list Z) (now r0 r1 : Z) :
  Forall is_u8 buf ->
  (((length buf < 22)%nat \/ byte_at buf 0 <> 0x4D \/ byte_at buf 1 <> 0x58 \/
    byte_at buf (length buf - 2) * 256 + byte_at buf (length buf - 1)
      <> crc16_ccitt (firstn (length buf - 2) buf) \/
    21 + byte_at buf 20 + 2 <> Z.of_nat (length buf)) ->
   decodeFrame st buf = None /\ handleMeshFrame st buf now r0 r1 = st)
  /\
  (((22 <= length buf)%nat /\ byte_at buf 0 = 0x4D /\ byte_at buf 1 = 0x58 /\
    byte_at buf (length buf - 2) * 256 + byte_at buf (length buf - 1)
      = crc16_ccitt (firstn (length buf - 2) buf) /\
    21 + byte_at buf 20 + 2 = Z.of_nat (length buf)) ->
   ((byte_at buf 6 * 256 + byte_at buf 7 <> BROADCAST
     /\ byte_at buf 6 * 256 + byte_at buf 7 <> nodeId st) ->
    decodeFrame st buf = None /\ handleMeshFrame st buf now r0 r1 = st)
   /\
   ((byte_at buf 6 * 256 + byte_at buf 7 = BROADCAST
     \/ byte_at buf 6 * 256 + byte_at buf 7 = nodeId st) ->
    plainType (byte_at buf 3) = false -> encEnabled st = true ->
    aes_setkey_ok (meshKey st) = false ->
    decodeFrame st buf = None /\ handleMeshFrame st buf now r0 r1 = st)
   /\
   ((byte_at buf 6 * 256 + byte_at buf 7 = BROADCAST
     \/ byte_at buf 6 * 256 + byte_at buf 7 = nodeId st) ->
    (plainType (byte_at buf 3) = true \/ encEnabled st = false
     \/ aes_setkey_ok (meshKey st) = true) ->
    byte_at buf 20 <= 120 ->
    exists e, msgs (handleMeshFrame st buf now r0 r1) = e :: msgs st)).
Proof.
  intros Hb. split.
  - intros Hrej.
    assert (Hd : decodeFrame st buf = None).
    { unfold decodeFrame. cbv zeta.
      destruct (Nat.ltb_spec (length buf) 22) as [HL|HL]; [reflexivity|].
      rewrite !frame_word by exact Hb.
      destruct ((byte_at buf 0 =? 0x4D) && (byte_at buf 1 =? 0x58)) eqn:HM;
        cbn [negb]; [|reflexivity].
      apply andb_true_iff in HM. destruct HM as [HM0 HM1].
      apply Z.eqb_eq in HM0, HM1.
      destruct (Z.eqb_spec (byte_at buf (length buf - 2) * 256 + byte_at buf (length buf - 1))
                           (crc16_ccitt (firstn (length buf - 2) buf))) as [HC|HC];
        cbn [negb]; [|reflexivity].
      destruct (Z.eqb_spec (21 + byte_at buf 20 + 2) (Z.of_nat (length buf))) as [HE|HE];
        cbn [negb]; [|reflexivity].
      exfalso. destruct Hrej as [H|[H|[H|[H|H]]]]; [lia|contradiction..]. }
    split; [exact Hd|]. unfold handleMeshFrame. now rewrite Hd.
  - intros (HL & HM0 & HM1 & HC & HE).
    set (dw := byte_at buf 6 * 256 + byte_at buf 7).
    set (body := firstn (Z.to_nat (byte_at buf 20)) (skipn 21 buf)).
    set (nonce := firstn 8 (skipn 12 buf)).
    set (ctr := u32 (Z.lor (Z.lor (Z.lor (Z.shiftl (byte_at buf 8) 24)
                                         (Z.shiftl (byte_at buf 9) 16))
                                  (Z.shiftl (byte_at buf 10) 8))
                           (byte_at buf 11))).
    assert (Hpass : decodeFrame st buf
                    = if negb ((dw =? 0xFFFF) || (dw =? nodeId st)) then None
                      else match (if plainType (byte_at buf 3) then Some body
                                  else decryptCtr (encEnabled st) (meshKey st) body nonce ctr)
                           with
                           | None => None
                           | Some p => Some (mkDecoded (byte_at buf 3)
                                              (byte_at buf 4 * 256 + byte_at buf 5) dw ctr
                                              nonce p)
                           end).
    { unfold decodeFrame. cbv zeta.
      replace (length buf <? 22)%nat with false by (symmetry; apply Nat.ltb_ge; lia).
      rewrite !frame_word by exact Hb.
      rewrite HM0, HM1, HC, HE, !Z.eqb_refl. reflexivity. }
    assert (Hnone : decodeFrame st buf = None ->
                    decodeFrame st buf = None /\ handleMeshFrame st buf now r0 r1 = st)
      by (intros Hd; split; [exact Hd | unfold handleMeshFrame; now rewrite Hd]).
    assert (Hdst : (dw = BROADCAST \/ dw = nodeId st) ->
                   (dw =? 0xFFFF) || (dw =? nodeId st) = true)
      by (unfold BROADCAST; intros [H|H]; apply orb_true_iff; [left|right]; now apply Z.eqb_eq).
    split; [|split].
    + intros [N1 N2]. apply Hnone. rewrite Hpass.
      unfold BROADCAST in N1.
      rewrite (proj2 (Z.eqb_neq _ _) N1), (proj2 (Z.eqb_neq _ _) N2). reflexivity.
    + intros Haddr Hpt Hen Hk. apply Hnone. rewrite Hpass, (Hdst Haddr), Hpt.
      unfold decryptCtr, encryptCtr. rewrite Hen, Hk. reflexivity.
    + intros Haddr Hciph _.
      assert (Hd : exists d, decodeFrame st buf = Some d).
      { rewrite Hpass, (Hdst Haddr). cbn [negb].
        destruct (plainType (byte_at buf 3)) eqn:Hpt; [eexists; reflexivity|].
        unfold decryptCtr.
        destruct (encryptCtr_ok (encEnabled st) (meshKey st) body nonce ctr) as [c Hc].
        { destruct Hciph as [H|H]; [congruence|exact H]. }
        rewrite Hc. eexists; reflexivity. }
      destruct Hd as [d Hd]. unfold handleMeshFrame. rewrite Hd.
      apply dispatchFrame_emits.
Qed.

(** ** What sendMeshPacket puts on the air *)

(** A non-plaintext frame with encryption on: either nothing is sent and the
    node is unchanged, or the CTR ciphertext is sent. *)
Lemma send_encrypted_air st type dst payload r0 r1 :
  plainType type = false -> encEnabled st = true ->
  (aes_setkey_ok (meshKey st) = false ->
   sendMeshPacket st type dst payload r0 r1 = (false, st))
  /\ (aes_setkey_ok (meshKey st) = true ->
      snd (sendMeshPacket st type dst payload r0 r1) = st
      \/ air (snd (sendMeshPacket st type dst payload r0 r1))
         = wire_frame st type dst payload r0 r1 (ctr_payload st payload r0 r1) :: air st).
Proof.
  intros Hpt He. unfold sendMeshPacket. rewrite Hpt.
  unfold encryptCtr. rewrite He. cbn [negb].
  split; intros Hk; rewrite Hk; cbn [negb].
  - destruct (negb _); [reflexivity|]. destruct (120 <? _); reflexivity.
  - destruct (negb _); [left; reflexivity|]. destruct (120 <? _); [left; reflexivity|].
    right. reflexivity.
Qed.

(** C5. Frames of the four plaintext types (0x01, 0x02, 0x30, 0x31) carry the
    payload bytes unencrypted whatever the encryption flag, and
    [handleMeshFrame] takes their payload from the wire as is; any other
    type sent with encryption on carries the CTR encryption of the payload
    (and is not sent at all when the key setup fails). *)
Theorem plaintext_types_bypass_cipher (st : Node) (type dst : Z) (payload : list Z)
    (r0 r1 : Z) :
  radioReady st = true -> radioPresent st = true -> (length payload <= 120)%nat ->
  (plainType type = true ->
   air (snd (sendMeshPacket st type dst payload r0 r1))
   = wire_frame st type dst payload r0 r1 payload :: air st)
  /\ (plainType type = false -> encEnabled st = true ->
      air (snd (sendMeshPacket st type dst payload r0 r1))
      = if aes_setkey_ok (meshKey st)
        then wire_frame st type dst payload r0 r1 (ctr_payload st payload r0 r1) :: air st
        else air st)
  /\ (forall (rcv : Node) (buf : list Z) (d : Decoded),
      decodeFrame rcv buf = Some d -> plainType (d_type d) = true ->
      d_payload d = firstn (Z.to_nat (byte_at buf 20)) (skipn 21 buf)).
Proof.
  intros Hr Hp Hlen. split; [|split].
  - intros Hpt. unfold sendMeshPacket. rewrite Hr, Hp, Hpt. cbn [andb negb].
    replace (120 <? Z.of_nat (length payload)) with false
      by (symmetry; apply Z.ltb_ge; lia).
    reflexivity.
  - intros Hpt He. unfold sendMeshPacket. rewrite Hr, Hp, Hpt. cbn [andb negb].
    replace (120 <? Z.of_nat (length payload)) with false
      by (symmetry; apply Z.ltb_ge; lia).
    unfold encryptCtr. rewrite He. cbn [negb].
    destruct (aes_setkey_ok (meshKey st)); reflexivity.
  - intros rcv buf d Hd Hpt. unfold decodeFrame in Hd. cbv zeta in Hd.
    destruct (length buf <? 22)%nat; [discriminate|].
    destruct (negb (_ && _)); [discriminate|].
    destruct (negb (_ =? _)); [discriminate|].
    destruct (negb (_ =? _)); [discriminate|].
    destruct (negb (_ || _)); [discriminate|].
    destruct (plainType (byte_at buf 3)) eqn:Hp3.
    + inversion Hd. reflexivity.
    + destruct (decryptCtr _ _ _ _ _); inversion Hd; subst. cbn in Hpt. congruence.
Qed.

(** C6. A frame of a non-plaintext type with encryption on: when the key
    setup fails, [sendMeshPacket] returns false and leaves the node as it was,
    so no frame reaches [g_radio->transmit]; any frame it does transmit
    carries the CTR ciphertext, never the plaintext. *)
Theorem send_key_failure_aborts (st : Node) (type dst : Z) (payload : list Z)
    (r0 r1 : Z) :
  plainType type = false -> encEnabled st = true ->
  (aes_setkey_ok (meshKey st) = false ->
   sendMeshPacket st type dst payload r0 r1 = (false, st))
  /\ (air (snd (sendMeshPacket st type dst payload r0 r1)) = air st
      \/ air (snd (sendMeshPacket st type dst payload r0 r1))
         = wire_frame st type dst payload r0 r1 (ctr_payload st payload r0 r1) :: air st).
Proof.
  intros Hpt He. destruct (send_encrypted_air st type dst payload r0 r1 Hpt He) as [H1 H2].
  split; [exact H1|].
  destruct (aes_setkey_ok (meshKey st)) eqn:Hk.
  - destruct (H2 eq_refl) as [H|H]; [left; now rewrite H | right; exact H].
  - left. now rewrite (H1 eq_refl).
Qed.

(** ** Duplicate cache lemmas *)

Lemma list_set_length {A} i (v : A) l : length (list_set i v l) = length l.
Proof.
  revert i. induction l as [|x l IH]; intros [|i]; simpl; auto.
Qed.

Lemma nth_list_set {A} i j (v d : A) l : (j < length l)%nat ->
  nth i (list_set j v l) d = if Nat.eqb i j then v else nth i l d.
Proof.
  revert i j. induction l as [|x l IH]; intros i j Hj; simpl in Hj; [lia|].
  destruct j as [|j], i as [|i]; simpl; try reflexivity.
  apply IH. lia.
Qed.

Lemma dup_head_next h : 0 <= h < 24 ->
  (if h + 1 >=? DUP_CACHE_SIZE then 0 else h + 1) = (h + 1) mod 24.
Proof.
  intros Hh. unfold DUP_CACHE_SIZE.
  destruct (Z.geb_spec (h + 1) 24).
  - replace (h + 1) with 24 by lia. reflexivity.
  - rewrite Z.mod_small; lia.
Qed.

Lemma isDuplicate_spec crc st : dup_wf st ->
  isDuplicate crc st
  = if negb (crc =? 0) && existsb (fun c => c =? crc) (dupCache st) then (true, st)
    else (false, set_dupHead ((dupHead st + 1) mod 24)
                   (set_dupCache (list_set (Z.to_nat (dupHead st)) crc (dupCache st)) st)).
Proof.
  intros [Hl Hh]. unfold isDuplicate.
  assert (E : existsb (fun c => (c =? crc) && negb (crc =? 0)) (dupCache st)
              = negb (crc =? 0) && existsb (fun c => c =? crc) (dupCache st)).
  { clear Hl Hh. destruct (crc =? 0); cbn [negb andb].
    - apply not_true_iff_false. intros Hx. apply existsb_exists in Hx.
      destruct Hx as [x [_ Hx]]. rewrite andb_false_r in Hx. discriminate.
    - induction (dupCache st) as [|x l IH]; [reflexivity|].
      cbn [existsb]. now rewrite andb_true_r, IH. }
  rewrite E. destruct (_ && _); [reflexivity|].
  rewrite dup_head_next by exact Hh. reflexivity.
Qed.

Lemma isDuplicate_wf crc st : dup_wf st -> dup_wf (snd (isDuplicate crc st)).
Proof.
  intros Hw. rewrite isDuplicate_spec by exact Hw. destruct Hw as [Hl Hh].
  destruct (_ && _); [split; assumption|].
  split; cbn [snd set_dupHead set_dupCache dupCache dupHead].
  - now rewrite list_set_length.
  - apply Z.mod_pos_bound. lia.
Qed.

(** A checksum sitting at ring position [h] survives as long as fewer than
    24 insertions have happened since it was written. *)
Lemma submit_all_keeps crc h l st m :
  dup_wf st -> 0 <= h < 24 -> nth (Z.to_nat h) (dupCache st) 0 = crc ->
  dupHead st = (h + 1 + m) mod 24 -> 0 <= m -> m + Z.of_nat (length l) <= 23 ->
  nth (Z.to_nat h) (dupCache (submit_all l st)) 0 = crc.
Proof.
  revert st m. induction l as [|c l IH]; intros st m Hw Hh Hn Hhead Hm Hlen;
    [exact Hn|].
  cbn [submit_all]. cbn [length] in Hlen.
  pose proof (isDuplicate_wf c st Hw) as Hw'.
  rewrite isDuplicate_spec in Hw' |- * by exact Hw.
  destruct (_ && _).
  - apply (IH st m); auto. lia.
  - apply (IH _ (m + 1)); auto; cbn [snd set_dupHead set_dupCache dupCache dupHead].
    + destruct Hw as [Hl Hd].
      rewrite nth_list_set by lia.
      destruct (Nat.eqb_spec (Z.to_nat h) (Z.to_nat (dupHead st))) as [E|E]; [|exact Hn].
      exfalso. rewrite Hhead in E.
      assert (Hm24 : (h + 1 + m) mod 24 = h) by lia.
      rewrite Z.mod_eq in Hm24 by lia.
      assert (Hq : (h + 1 + m) / 24 = 1 \/ (h + 1 + m) / 24 = 0) by
        (Z.to_euclidean_division_equations; lia).
      destruct Hq as [Hq|Hq]; rewrite Hq in Hm24; lia.
    + rewrite Hhead, Z.add_mod_idemp_l by lia. f_equal. lia.
    + lia.
    + lia.
Qed.

Lemma submit_all_wf l st : dup_wf st -> dup_wf (submit_all l st).
Proof.
  revert st. induction l as [|c l IH]; intros st Hw; [exact Hw|].
  apply IH, isDuplicate_wf, Hw.
Qed.

(** C2 (amended). [isDuplicate] scans the 24 entries and never matches the
    checksum 0. On a match it returns true and leaves the ring and its
    position untouched; otherwise it writes the checksum at the current
    position, advances the position modulo 24 and returns false. A nonzero
    checksum so written is reported as a duplicate for at least the next 23
    submissions of other checksums. *)
Theorem isDuplicate_ring (crc : Z) (st : Node) :
  dup_wf st ->
  (crc <> 0 -> In crc (dupCache st) -> isDuplicate crc st = (true, st))
  /\ ((crc = 0 \/ ~ In crc (dupCache st)) ->
      isDuplicate crc st
      = (false, set_dupHead ((dupHead st + 1) mod 24)
                  (set_dupCache (list_set (Z.to_nat (dupHead st)) crc (dupCache st)) st)))
  /\ (crc <> 0 -> fst (isDuplicate crc st) = false ->
      forall l : list Z, (length l <= 23)%nat ->
      fst (isDuplicate crc (submit_all l (snd (isDuplicate crc st)))) = true).
Proof.
  intros Hw. split; [|split].
  - intros Hnz Hin. rewrite isDuplicate_spec by exact Hw.
    replace (negb (crc =? 0) && existsb (fun c => c =? crc) (dupCache st)) with true;
      [reflexivity|].
    symmetry. apply andb_true_iff. split.
    + apply negb_true_iff, Z.eqb_neq, Hnz.
    + apply existsb_exists. exists crc. split; [exact Hin | apply Z.eqb_refl].
  - intros Hc. rewrite isDuplicate_spec by exact Hw.
    replace (negb (crc =? 0) && existsb (fun c => c =? crc) (dupCache st)) with false;
      [reflexivity|].
    symmetry. apply andb_false_iff. destruct Hc as [Hc|Hc].
    + left. subst. reflexivity.
    + right. apply not_true_iff_false. intros Hx. apply existsb_exists in Hx.
      destruct Hx as [x [Hx Hxe]]. apply Z.eqb_eq in Hxe. subst. contradiction.
  - intros Hnz Hfresh l Hl.
    pose proof Hw as [Hlen Hh].
    assert (Hst1 : snd (isDuplicate crc st)
                   = set_dupHead ((dupHead st + 1) mod 24)
                       (set_dupCache (list_set (Z.to_nat (dupHead st)) crc (dupCache st)) st)).
    { revert Hfresh. rewrite isDuplicate_spec by exact Hw.
      destruct (_ && _); [discriminate | reflexivity]. }
    set (st1 := snd (isDuplicate crc st)) in *.
    assert (Hw1 : dup_wf st1) by apply isDuplicate_wf, Hw.
    assert (Hkeep : nth (Z.to_nat (dupHead st)) (dupCache (submit_all l st1)) 0 = crc).
    { apply (submit_all_keeps crc (dupHead st) l st1 0 Hw1 Hh).
      - rewrite Hst1. cbn [set_dupHead set_dupCache dupCache].
        rewrite nth_list_set by lia. now rewrite Nat.eqb_refl.
      - rewrite Hst1. cbn [set_dupHead dupHead]. f_equal. lia.
      - lia.
      - lia. }
    pose proof (submit_all_wf l st1 Hw1) as Hw2.
    rewrite isDuplicate_spec by exact Hw2.
    replace (negb (crc =? 0) && existsb (fun c => c =? crc) (dupCache (submit_all l st1)))
      with true; [reflexivity|].
    symmetry. apply andb_true_iff. split.
    + apply negb_true_iff, Z.eqb_neq, Hnz.
    + apply existsb_exists. exists crc. split; [|apply Z.eqb_refl].
      rewrite <- Hkeep. apply nth_In. destruct Hw2 as [Hl2 _]. lia.
Qed.

(** ** The transmit counter *)

Lemma u32_add_idemp x y : u32 (u32 x + y) = u32 (x + y).
Proof. rewrite !u32_spec. apply Z.add_mod_idemp_l. lia. Qed.

Lemma u32_u32 x : u32 (u32 x) = u32 x.
Proof. rewrite !u32_spec. apply Z.mod_mod. lia. Qed.

Lemma stamped_from_app c l1 l2 :
  stamped_from c (l1 ++ l2)
  <-> stamped_from c l1 /\ stamped_from (c + Z.of_nat (length l1)) l2.
Proof.
  revert c. induction l1 as [|f l1 IH]; intros c; cbn [app stamped_from length].
  - rewrite Z.add_0_r. tauto.
  - rewrite IH. replace (c + 1 + Z.of_nat (length l1)) with (c + Z.of_nat (S (length l1)))
      by lia. tauto.
Qed.

Lemma stamped_from_u32 c d l : u32 c = u32 d -> stamped_from c l -> stamped_from d l.
Proof.
  revert c d. induction l as [|f l IH]; intros c d Hcd H; [exact I|].
  destruct H as [Hf Hl]. split; [congruence|].
  apply (IH (c + 1)); [|exact Hl].
  rewrite <- (u32_add_idemp c), <- (u32_add_idemp d). congruence.
Qed.

Lemma advances_refl st : is_u32 (txCounter st) -> advances st st.
Proof.
  intros H. exists []. split; [reflexivity|]. split; [exact I|].
  cbn [length Z.of_nat]. rewrite Z.add_0_r. symmetry. now apply u32_id.
Qed.

Lemma advances_trans a b c : advances a b -> advances b c -> advances a c.
Proof.
  intros [s1 [Ha1 [Hs1 Hc1]]] [s2 [Ha2 [Hs2 Hc2]]].
  exists (s2 ++ s1). split; [|split].
  - rewrite Ha2, Ha1. apply app_assoc.
  - rewrite rev_app_distr. apply stamped_from_app. split; [exact Hs1|].
    apply (stamped_from_u32 (txCounter b)); [|exact Hs2].
    rewrite Hc1, length_rev, u32_u32. reflexivity.
  - rewrite Hc2, Hc1, u32_add_idemp, length_app. f_equal. lia.
Qed.

Lemma advances_same_l st0 st1 st2 :
  air st1 = air st0 -> txCounter st1 = txCounter st0 -> advances st1 st2 -> advances st0 st2.
Proof.
  intros Ha Hc [s [H1 [H2 H3]]]. exists s. rewrite <- Ha, <- Hc. auto.
Qed.

Lemma advances_same_r st0 st1 st2 :
  advances st0 st1 -> air st2 = air st1 -> txCounter st2 = txCounter st1 -> advances st0 st2.
Proof.
  intros [s [H1 [H2 H3]]] Ha Hc. exists s. rewrite Ha, Hc. auto.
Qed.

Lemma frame_ctr_wire st type dst payload r0 r1 enc :
  is_u32 (txCounter st) -> frame_ctr (wire_frame st type dst payload r0 r1 enc) = txCounter st.
Proof.
  intros Hc. unfold frame_ctr, wire_frame.
  rewrite !seal_frame_body by (rewrite length_app; cbn; lia).
  unfold frame_header, be16, be32, byte_at. cbn [app nth].
  now apply join32.
Qed.

(** One call of [sendMeshPacket]: it fails with the node unchanged, or it
    sends one frame stamped with the old counter and bumps the counter. *)
Lemma sendMeshPacket_counter st type dst payload r0 r1 :
  sendMeshPacket st type dst payload r0 r1 = (false, st)
  \/ exists enc,
       let frame := wire_frame st type dst payload r0 r1 enc in
       sendMeshPacket st type dst payload r0 r1
       = (radio_transmit frame =? RADIOLIB_ERR_NONE,
          set_air (frame :: air st) (set_txCounter (u32 (txCounter st + 1)) st)).
Proof.
  unfold sendMeshPacket.
  destruct (negb _); [left; reflexivity|].
  destruct (120 <? _); [left; reflexivity|].
  destruct (if plainType type then _ else _) as [enc|]; [|left; reflexivity].
  right. exists enc. reflexivity.
Qed.

Lemma sendMeshPacket_advances st type dst payload r0 r1 :
  is_u32 (txCounter st) -> advances st (snd (sendMeshPacket st type dst payload r0 r1)).
Proof.
  intros Hc. destruct (sendMeshPacket_counter st type dst payload r0 r1) as [H|[enc H]];
    rewrite H; cbn [snd]; [now apply advances_refl|].
  exists [wire_frame st type dst payload r0 r1 enc]. split; [reflexivity|]. split.
  - cbn [rev app stamped_from]. split; [|exact I]. rewrite frame_ctr_wire by exact Hc. symmetry. now apply u32_id.
  - reflexivity.
Qed.

Lemma dispatchFrame_advances st d now r0 r1 :
  is_u32 (txCounter st) -> advances st (dispatchFrame st d now r0 r1).
Proof.
  intros Hc.
  assert (Hu : air (updatePeer (d_src d) now st) = air st
               /\ txCounter (updatePeer (d_src d) now st) = txCounter st).
  { unfold updatePeer. destruct (_ =? 0); [auto|].
    destruct (refresh_peer _ _ _); [auto|]. destruct (_ <? _)%nat; auto. }
  destruct Hu as [Hua Huc].
  set (st1 := updatePeer (d_src d) now st) in *.
  assert (Hadv1 : forall ty dst p, advances st (snd (sendMeshPacket st1 ty dst p r0 r1))).
  { intros. apply (advances_same_l st st1); auto.
    apply sendMeshPacket_advances. congruence. }
  assert (Hst1 : advances st st1) by (apply (advances_same_r st st); auto using advances_refl).
  unfold dispatchFrame. fold st1. cbv zeta.
  destruct (d_type d =? 1).
  { eapply advances_same_r; [apply Hadv1 | reflexivity | reflexivity]. }
  destruct (d_type d =? 2); [eapply advances_same_r; [exact Hst1|reflexivity|reflexivity]|].
  destruct (d_type d =? 16); [eapply advances_same_r; [exact Hst1|reflexivity|reflexivity]|].
  destruct (d_type d =? 32); [eapply advances_same_r; [exact Hst1|reflexivity|reflexivity]|].
  destruct (d_type d =? 48).
  { destruct (if list_eq_dec Z.eq_dec _ _ then _ else None) as [k|].
    - apply (advances_same_l st (emit (EvtMeshKeyRx (d_src d) k) (set_meshKey k st1)));
        [exact Hua | exact Huc|].
      apply sendMeshPacket_advances. cbn [emit set_msgs set_meshKey txCounter]. congruence.
    - eapply advances_same_r; [exact Hst1|reflexivity|reflexivity]. }
  destruct (d_type d =? 49); eapply advances_same_r; [exact Hst1|reflexivity|reflexivity
                                                     |exact Hst1|reflexivity|reflexivity].
Qed.

Lemma handleMeshFrame_advances st buf now r0 r1 :
  is_u32 (txCounter st) -> advances st (handleMeshFrame st buf now r0 r1).
Proof.
  intros Hc. unfold handleMeshFrame.
  destruct (decodeFrame st buf); [now apply dispatchFrame_advances | now apply advances_refl].
Qed.

Lemma handleIncoming_advances st buf now r0 r1 :
  is_u32 (txCounter st) -> advances st (handleIncoming st buf now r0 r1).
Proof.
  intros Hc. unfold handleIncoming.
  assert (Hd : air (snd (isDuplicate (crc16_ccitt buf) st)) = air st
               /\ txCounter (snd (isDuplicate (crc16_ccitt buf) st)) = txCounter st).
  { unfold isDuplicate. destruct (existsb _ _); auto. }
  destruct (isDuplicate (crc16_ccitt buf) st) as [dup st1] eqn:E. cbn [snd] in Hd.
  destruct Hd as [Ha Hc1].
  destruct dup; [apply (advances_same_r st st); auto using advances_refl|].
  apply (advances_same_l st (emit (EvtRx buf) st1)); [exact Ha|exact Hc1|].
  apply handleMeshFrame_advances. cbn [emit set_msgs txCounter]. congruence.
Qed.

(** ** The counter over the other operations *)

Lemma advances_quiet st st' :
  is_u32 (txCounter st) -> air st' = air st -> txCounter st' = txCounter st -> advances st st'.
Proof. intros Hc Ha Ht. apply (advances_same_r st st); auto using advances_refl. Qed.

Lemma advances_u32 st st' : advances st st' -> is_u32 (txCounter st').
Proof. intros [s [_ [_ H]]]. rewrite H, u32_spec. unfold is_u32. apply Z.mod_pos_bound. lia. Qed.

Lemma tryCombos_quiet doEmit combos st last :
  air (snd (fst (tryCombos doEmit combos st last))) = air st
  /\ txCounter (snd (fst (tryCombos doEmit combos st last))) = txCounter st.
Proof.
  revert st last. induction combos as [|[t p] rest IH]; intros st last; [split; reflexivity|].
  cbn [tryCombos]. unfold beginWith.
  destruct (radio_begin (beginCalls st) (cfg st) t p =? RADIOLIB_ERR_NONE).
  - destruct doEmit; split; reflexivity.
  - destruct (IH (set_beginCalls (S (beginCalls st)) (set_radioPresent true st))
                 (radio_begin (beginCalls st) (cfg st) t p)) as [A B].
    rewrite A, B. split; reflexivity.
Qed.

Lemma tryProfile_quiet doEmit enforcePins st last :
  air (snd (fst (tryProfile doEmit enforcePins st last))) = air st
  /\ txCounter (snd (fst (tryProfile doEmit enforcePins st last))) = txCounter st.
Proof.
  unfold tryProfile. destruct (enforcePins && (deviceType (cfg st) =? 0)).
  - set (st0 := set_cfg (enforceHeltecPins (cfg st)) st).
    destruct (tryCombos_quiet doEmit (tryOrder (cfg st0)) st0 last) as [A B].
    split; assumption.
  - apply tryCombos_quiet.
Qed.

Lemma initRadioRobust_quiet doEmit st :
  air (snd (initRadioRobust doEmit st)) = air st
  /\ txCounter (snd (initRadioRobust doEmit st)) = txCounter st.
Proof.
  unfold initRadioRobust.
  pose proof (tryProfile_quiet doEmit false st (-999)) as [A1 B1].
  destruct (tryProfile doEmit false st (-999)) as [[ok1 st1] last1]. cbn [fst snd] in A1, B1.
  assert (H2 : forall r, r = (if negb ok1 && (deviceType (cfg st1) =? 0)
                              then tryProfile doEmit true st1 last1 else (ok1, st1, last1)) ->
               air (snd (fst r)) = air st /\ txCounter (snd (fst r)) = txCounter st).
  { intros r ->. destruct (negb ok1 && _); [|split; assumption].
    destruct (tryProfile_quiet doEmit true st1 last1) as [A B]. rewrite A, B. split; assumption. }
  specialize (H2 _ eq_refl).
  destruct (if negb ok1 && _ then _ else _) as [[ok st2] lastState]. cbn [fst snd] in H2.
  destruct H2 as [A B]. destruct ok, doEmit; split; assumption.
Qed.

Lemma ensureMeshRunning_quiet doEmit st :
  air (snd (ensureMeshRunning doEmit st)) = air st
  /\ txCounter (snd (ensureMeshRunning doEmit st)) = txCounter st.
Proof.
  unfold ensureMeshRunning.
  assert (H : forall r, r = (if radioReady st then (true, st) else initRadioRobust doEmit st) ->
              air (snd r) = air st /\ txCounter (snd r) = txCounter st).
  { intros r ->. destruct (radioReady st); [split; reflexivity|apply initRadioRobust_quiet]. }
  specialize (H _ eq_refl).
  destruct (if radioReady st then _ else _) as [ok st1]. cbn [snd] in H. destruct H as [A B].
  destruct ok, doEmit; split; assumption.
Qed.

Lemma saveConfig_quiet st :
  air (saveConfig st) = air st /\ txCounter (saveConfig st) = txCounter st.
Proof. split; reflexivity. Qed.

Lemma loadConfig_quiet st :
  air (snd (loadConfig st)) = air st /\ txCounter (snd (loadConfig st)) = txCounter st.
Proof.
  unfold loadConfig, loadWeatherConfig.
  destruct (cfg_blob (prefs st)) as [|c|o|n];
    repeat match goal with
           | |- context [if ?b then _ else _] => destruct b
           | |- context [match wx_blob ?p with _ => _ end] => destruct (wx_blob p)
           end; split; reflexivity.
Qed.

Lemma handleCommand_quiet c st :
  air (handleCommand c st) = air st /\ txCounter (handleCommand c st) = txCounter st.
Proof.
  destruct c; cbn [handleCommand].
  - destruct (negb (setupMode st)); split; reflexivity.
  - apply initRadioRobust_quiet.
  - pose proof (ensureMeshRunning_quiet true
                  (saveConfig (if setupMode st then set_setupSaveRequested true st else st)))
      as [A B].
    destruct (ensureMeshRunning true _) as [ok st2]. cbn [snd] in A, B.
    destruct (setupMode st), ok; split; assumption.
  - apply ensureMeshRunning_quiet.
  - destruct (setupMode st); split; reflexivity.
Qed.

Lemma setup_loop_quiet inputs st :
  air (snd (setup_loop inputs st)) = air st
  /\ txCounter (snd (setup_loop inputs st)) = txCounter st.
Proof.
  revert st. induction inputs as [|[line due] rest IH]; intros st; [split; reflexivity|].
  cbn [setup_loop].
  assert (H1 : air (match line with Some c => handleCommand c st | None => st end) = air st
               /\ txCounter (match line with Some c => handleCommand c st | None => st end)
                  = txCounter st)
    by (destruct line; [apply handleCommand_quiet | split; reflexivity]).
  destruct H1 as [A1 B1].
  destruct (setupSaveRequested _ && radioReady _); [split; assumption|].
  destruct due; rewrite (proj1 (IH _)), (proj2 (IH _)); cbn [setup_prompt emit];
    split; assumption.
Qed.

Lemma startConfigMode_quiet inputs st :
  air (snd (startConfigMode inputs st)) = air st
  /\ txCounter (snd (startConfigMode inputs st)) = txCounter st.
Proof.
  unfold startConfigMode.
  pose proof (setup_loop_quiet inputs (enterConfigMode st)) as [A B].
  destruct (setup_loop inputs (enterConfigMode st)) as [[rest|] st1]; cbn [snd] in A, B.
  - cbn [snd]. destruct (ensureMeshRunning_quiet true (emit EvtConfigDone (saveConfig st1)))
      as [A2 B2].
    split; cbn [set_setupMode air txCounter]; [rewrite A2; exact A | rewrite B2; exact B].
  - split; assumption.
Qed.

Lemma run_op_advances st op : is_u32 (txCounter st) -> advances st (run_op st op).
Proof.
  intros Hc. destruct op; cbn [run_op].
  - now apply sendMeshPacket_advances.
  - now apply handleIncoming_advances.
  - unfold sendWebsiteMessage.
    destruct (negb _); [now apply advances_refl|].
    destruct (_ || _); [now apply advances_refl|]. now apply sendMeshPacket_advances.
  - unfold broadcastDiscovery. cbv zeta.
    pose proof (sendMeshPacket_advances st 1 BROADCAST
                  (firstn (Z.to_nat (u8 (Z.of_nat (length (str_DISCOVER ++ dec_string (nodeId st))))))
                     (str_DISCOVER ++ dec_string (nodeId st))) r0 r1 Hc) as H.
    destruct (sendMeshPacket st _ _ _ _ _) as [ok st1]. cbn [snd] in H.
    destruct ok; apply (advances_same_r _ _ _ H); reflexivity.
  - unfold meshKeysend. destruct (negb _); [apply advances_quiet; auto|]. cbv zeta.
    pose proof (sendMeshPacket_advances st 48 dst
                  (firstn (Z.to_nat (u8 (Z.of_nat (length (str_KEY ++ meshKeyHex (meshKey st))))))
                     (str_KEY ++ meshKeyHex (meshKey st))) r0 r1 Hc) as H.
    destruct (sendMeshPacket st _ _ _ _ _) as [ok st1]. cbn [snd] in H.
    apply (advances_same_r _ _ _ H); reflexivity.
  - unfold meshKeySetCommand. destruct (parseHexKey16 _); apply advances_quiet; auto.
  - unfold addSensor. destruct (set_sensor_mode _ _ _); [apply advances_quiet; auto|].
    destruct (_ >=? _); apply advances_quiet; auto.
  - unfold sendWeatherPacket. destruct (negb _); [now apply advances_refl|]. cbv zeta.
    match goal with |- context [sendMeshPacket st 16 BROADCAST ?p r0 r1] =>
      pose proof (sendMeshPacket_advances st 16 BROADCAST p r0 r1 Hc) as H end.
    destruct (sendMeshPacket st _ _ _ _ _) as [ok st1]. cbn [snd] in H.
    destruct ok; apply (advances_same_r _ _ _ H); reflexivity.
  - apply advances_quiet; [exact Hc|apply handleCommand_quiet..].
  - apply advances_quiet; [exact Hc|apply startConfigMode_quiet..].
  - apply advances_quiet; [exact Hc|apply loadConfig_quiet..].
Qed.

Lemma run_ops_advances ops st : is_u32 (txCounter st) -> advances st (run_ops st ops).
Proof.
  unfold run_ops. revert st. induction ops as [|op ops IH]; intros st Hc; cbn [fold_left].
  - now apply advances_refl.
  - pose proof (run_op_advances st op Hc) as H1.
    apply (advances_trans _ _ _ H1). apply IH. exact (advances_u32 _ _ H1).
Qed.

(** C10 (amended). A [sendMeshPacket] call that passes the radio and length
    checks and whose cipher step succeeds transmits one frame carrying the
    current counter and leaves the counter one higher modulo 2^32, whatever
    the driver's transmit status; a call failing those checks changes
    nothing. The counter is written nowhere else: over any sequence of the
    node's operations ([run_ops]: sending, receiving frames, the [send],
    [sendto], [mesh scan], [mesh keysend], [mesh key], [weather add],
    [save], [init], [autostart], [startmesh] and [setup] commands, weather
    reports, the SETUP loop, loading the configuration), the frames sent
    carry consecutive counters modulo 2^32 from the counter before, and the
    counter ends that many steps further. *)
Theorem txCounter_advances (st : Node) (type dst : Z) (payload : list Z) (r0 r1 : Z) :
  is_u32 (txCounter st) ->
  ((radioReady st = true -> radioPresent st = true -> (length payload <= 120)%nat ->
    (plainType type = true \/ encEnabled st = false \/ aes_setkey_ok (meshKey st) = true) ->
    exists frame,
      air (snd (sendMeshPacket st type dst payload r0 r1)) = frame :: air st
      /\ frame_ctr frame = txCounter st
      /\ txCounter (snd (sendMeshPacket st type dst payload r0 r1)) = u32 (txCounter st + 1)
      /\ fst (sendMeshPacket st type dst payload r0 r1)
         = (radio_transmit frame =? RADIOLIB_ERR_NONE))
   /\ ((radioReady st = false \/ radioPresent st = false \/ (120 < length payload)%nat) ->
       sendMeshPacket st type dst payload r0 r1 = (false, st))
   /\ advances st (snd (sendMeshPacket st type dst payload r0 r1))
   /\ (forall ops : list MeshOp, advances st (run_ops st ops))).
Proof.
  intros Hc. split; [|split; [|split]].
  - intros Hr Hp Hlen Hciph. unfold sendMeshPacket. rewrite Hr, Hp. cbn [andb negb].
    replace (120 <? Z.of_nat (length payload)) with false
      by (symmetry; apply Z.ltb_ge; lia).
    assert (He : exists enc, (if plainType type then Some payload
                              else encryptCtr (encEnabled st) (meshKey st) payload
                                     (make_nonce r0 r1) (txCounter st)) = Some enc).
    { destruct (plainType type) eqn:Hpt; [eexists; reflexivity|].
      apply encryptCtr_ok. destruct Hciph as [H|[H|H]]; [congruence|left|right]; exact H. }
    destruct He as [enc He]. rewrite He.
    exists (wire_frame st type dst payload r0 r1 enc).
    split; [reflexivity|]. split; [now apply frame_ctr_wire|]. split; reflexivity.
  - intros H. unfold sendMeshPacket.
    destruct H as [H|[H|H]].
    + rewrite H. reflexivity.
    + rewrite H, andb_false_r. reflexivity.
    + destruct (negb _); [reflexivity|].
      replace (120 <? Z.of_nat (length payload)) with true
        by (symmetry; apply Z.ltb_lt; lia).
      reflexivity.
  - now apply sendMeshPacket_advances.
  - intros ops. now apply run_ops_advances.
Qed.

(** ** Radio bring-up lemmas *)

(** Reduce field reads through the setters. *)
Ltac node_simpl := cbn [cfg radioPresent radioReady setupMode setupSaveRequested configSaved meshRunning encEnabled nodeId meshKey txCounter peers dupCache dupHead beginCalls msgs air prefs weather
  set_cfg set_radioPresent set_radioReady set_setupMode set_setupSaveRequested set_configSaved set_meshRunning set_encEnabled set_nodeId set_meshKey set_txCounter set_peers set_dupCache set_dupHead set_beginCalls set_msgs set_air set_prefs set_weather emit] in *.

Lemma tryCombos_success doEmit combos st lastState k d :
  (k < length combos)%nat ->
  (forall j, (j < k)%nat ->
     radio_begin (beginCalls st + j) (cfg st) (fst (nth j combos d)) (snd (nth j combos d)) <> 0) ->
  radio_begin (beginCalls st + k) (cfg st) (fst (nth k combos d)) (snd (nth k combos d)) = 0 ->
  exists st', tryCombos doEmit combos st lastState = (true, st', 0)
    /\ cfg st' = commit_profile (fst (nth k combos d)) (snd (nth k combos d)) (cfg st)
    /\ radioReady st' = radioReady st /\ setupMode st' = setupMode st
    /\ setupSaveRequested st' = setupSaveRequested st
    /\ msgs st' = (if doEmit then [EvtTcxoAuto (fst (nth k combos d))] else []) ++ msgs st.
Proof.
  revert st lastState k.
  induction combos as [|[t p] rest IH]; intros st lastState k Hk Hf Hs;
    cbn [length] in Hk; [lia|].
  destruct k as [|k].
  - cbn [nth fst snd] in Hs |- *. rewrite Nat.add_0_r in Hs.
    cbn [tryCombos]. unfold beginWith. rewrite Hs. cbn [Z.eqb RADIOLIB_ERR_NONE].
    unfold RADIOLIB_ERR_NONE. cbn [Z.eqb].
    destruct doEmit; eexists; repeat split; reflexivity.
  - assert (H0 := Hf 0%nat ltac:(lia)). cbn [nth fst snd] in H0.
    rewrite Nat.add_0_r in H0.
    cbn [tryCombos]. unfold beginWith.
    destruct (Z.eqb_spec (radio_begin (beginCalls st) (cfg st) t p) RADIOLIB_ERR_NONE)
      as [E|_]; [unfold RADIOLIB_ERR_NONE in E; contradiction|].
    destruct (IH (set_beginCalls (S (beginCalls st)) (set_radioPresent true st))
                 (radio_begin (beginCalls st) (cfg st) t p) k)
      as (st' & E & Hc & Hr & Hm & Hq & Hmsg).
    + lia.
    + intros j Hj. cbn [beginCalls cfg set_beginCalls set_radioPresent].
      replace (S (beginCalls st) + j)%nat with (beginCalls st + S j)%nat by lia.
      exact (Hf (S j) ltac:(lia)).
    + cbn [beginCalls cfg set_beginCalls set_radioPresent].
      replace (S (beginCalls st) + k)%nat with (beginCalls st + S k)%nat by lia.
      exact Hs.
    + exists st'. rewrite E. cbn [nth]. split; [reflexivity|].
      rewrite Hc, Hr, Hm, Hq, Hmsg. repeat split; reflexivity.
Qed.

Lemma tryCombos_fail doEmit combos st lastState d :
  combos <> [] ->
  (forall j, (j < length combos)%nat ->
     radio_begin (beginCalls st + j) (cfg st) (fst (nth j combos d)) (snd (nth j combos d)) <> 0) ->
  exists st', tryCombos doEmit combos st lastState =
      (false, st', radio_begin (beginCalls st + pred (length combos)) (cfg st)
                     (fst (nth (pred (length combos)) combos d))
                     (snd (nth (pred (length combos)) combos d)))
    /\ cfg st' = cfg st /\ beginCalls st' = (beginCalls st + length combos)%nat
    /\ radioReady st' = radioReady st /\ setupMode st' = setupMode st
    /\ setupSaveRequested st' = setupSaveRequested st /\ msgs st' = msgs st.
Proof.
  revert st lastState.
  induction combos as [|[t p] rest IH]; intros st lastState Hne Hf; [congruence|].
  assert (H0 := Hf 0%nat ltac:(cbn [length]; lia)). cbn [nth fst snd] in H0.
  rewrite Nat.add_0_r in H0.
  cbn [tryCombos]. unfold beginWith.
  destruct (Z.eqb_spec (radio_begin (beginCalls st) (cfg st) t p) RADIOLIB_ERR_NONE)
    as [E|_]; [unfold RADIOLIB_ERR_NONE in E; contradiction|].
  destruct rest as [|x rest'].
  - cbn [tryCombos length pred nth fst snd]. rewrite Nat.add_0_r.
    eexists; repeat split; cbn; try reflexivity; lia.
  - destruct (IH (set_beginCalls (S (beginCalls st)) (set_radioPresent true st))
                 (radio_begin (beginCalls st) (cfg st) t p))
      as (st' & E & Hc & Hb & Hr & Hm & Hq & Hmsg).
    + discriminate.
    + intros j Hj. cbn [beginCalls cfg set_beginCalls set_radioPresent].
      replace (S (beginCalls st) + j)%nat with (beginCalls st + S j)%nat by lia.
      exact (Hf (S j) ltac:(cbn [length] in *; lia)).
    + exists st'. rewrite E. node_simpl.
      cbn [length pred nth].
      replace (S (beginCalls st) + length rest')%nat
        with (beginCalls st + S (length rest'))%nat by lia.
      split; [reflexivity|].
      repeat split; try assumption. cbn [length] in Hb. lia.
Qed.

Lemma tryOrder_length c : length (tryOrder c) = 12%nat.
Proof. reflexivity. Qed.

Lemma tryProfile_plain doEmit st lastState :
  tryProfile doEmit false st lastState = tryCombos doEmit (tryOrder (cfg st)) st lastState.
Proof. reflexivity. Qed.

Lemma tryProfile_enforced doEmit st lastState :
  deviceType (cfg st) = 0 ->
  tryProfile doEmit true st lastState =
    tryCombos doEmit (tryOrder (enforceHeltecPins (cfg st)))
      (set_cfg (enforceHeltecPins (cfg st)) st) lastState.
Proof. intros H. unfold tryProfile. rewrite H. reflexivity. Qed.

Lemma tryOrder_nonempty c : tryOrder c <> [].
Proof. discriminate. Qed.

Lemma initRadio_first_pass doEmit st k :
  let c := cfg st in let b := beginCalls st in let d := (0 # 1, 0) in
  (k < 12)%nat ->
  (forall j, (j < k)%nat ->
     radio_begin (b + j) c (fst (nth j (tryOrder c) d)) (snd (nth j (tryOrder c) d)) <> 0) ->
  radio_begin (b + k) c (fst (nth k (tryOrder c) d)) (snd (nth k (tryOrder c) d)) = 0 ->
  exists st', initRadioRobust doEmit st = (true, st') /\ radioReady st' = true
    /\ cfg st' = commit_profile (fst (nth k (tryOrder c) d)) (snd (nth k (tryOrder c) d)) c
    /\ setupMode st' = setupMode st /\ setupSaveRequested st' = setupSaveRequested st
    /\ msgs st' = (if doEmit then [EvtRadioReady; EvtTcxoAuto (fst (nth k (tryOrder c) d))]
                   else []) ++ msgs st.
Proof.
  cbv zeta. intros Hk Hf Hs.
  destruct (tryCombos_success doEmit (tryOrder (cfg st)) st (-999) k (0 # 1, 0)
              ltac:(rewrite tryOrder_length; exact Hk) Hf Hs)
    as (st1 & E & Hc & Hr & Hm & Hq & Hmsg).
  unfold initRadioRobust. rewrite tryProfile_plain, E.
  cbv beta iota zeta delta [negb andb].
  eexists; split; [reflexivity|].
  destruct doEmit; node_simpl; rewrite ?Hc, ?Hm, ?Hq, ?Hmsg; repeat split; reflexivity.
Qed.

Lemma initRadio_second_pass doEmit st k :
  let c := cfg st in let e := enforceHeltecPins (cfg st) in
  let b := beginCalls st in let d := (0 # 1, 0) in
  deviceType c = 0 ->
  (forall j, (j < 12)%nat ->
     radio_begin (b + j) c (fst (nth j (tryOrder c) d)) (snd (nth j (tryOrder c) d)) <> 0) ->
  (k < 12)%nat ->
  (forall j, (j < k)%nat ->
     radio_begin (b + 12 + j) e (fst (nth j (tryOrder e) d)) (snd (nth j (tryOrder e) d)) <> 0) ->
  radio_begin (b + 12 + k) e (fst (nth k (tryOrder e) d)) (snd (nth k (tryOrder e) d)) = 0 ->
  exists st', initRadioRobust doEmit st = (true, st') /\ radioReady st' = true
    /\ cfg st' = commit_profile (fst (nth k (tryOrder e) d)) (snd (nth k (tryOrder e) d)) e
    /\ setupMode st' = setupMode st /\ setupSaveRequested st' = setupSaveRequested st.
Proof.
  cbv zeta. intros Hdev Hf1 Hk Hf2 Hs.
  destruct (tryCombos_fail doEmit (tryOrder (cfg st)) st (-999) (0 # 1, 0)
              (tryOrder_nonempty _)
              ltac:(intros j Hj; rewrite tryOrder_length in Hj; exact (Hf1 j Hj)))
    as (st1 & E1 & Hc1 & Hb1 & Hr1 & Hm1 & Hq1 & Hmsg1).
  rewrite tryOrder_length in Hb1.
  assert (Hd1 : deviceType (cfg st1) = 0) by (rewrite Hc1; exact Hdev).
  destruct (tryCombos_success doEmit (tryOrder (enforceHeltecPins (cfg st1)))
              (set_cfg (enforceHeltecPins (cfg st1)) st1)
              (radio_begin (beginCalls st + pred (length (tryOrder (cfg st)))) (cfg st)
                 (fst (nth (pred (length (tryOrder (cfg st)))) (tryOrder (cfg st)) (0 # 1, 0)))
                 (snd (nth (pred (length (tryOrder (cfg st)))) (tryOrder (cfg st)) (0 # 1, 0))))
              k (0 # 1, 0))
    as (st2 & E2 & Hc2 & Hr2 & Hm2 & Hq2 & _).
  - rewrite tryOrder_length. exact Hk.
  - intros j Hj. node_simpl. rewrite Hb1, Hc1. exact (Hf2 j Hj).
  - node_simpl. rewrite Hb1, Hc1. exact Hs.
  - unfold initRadioRobust. rewrite tryProfile_plain, E1.
    cbv beta iota zeta delta [negb andb]. rewrite Hd1. cbn [Z.eqb].
    rewrite (tryProfile_enforced _ _ _ Hd1), E2.
    cbv beta iota zeta.
    eexists; split; [reflexivity|].
    rewrite Hc1 in Hc2.
    destruct doEmit; node_simpl; rewrite ?Hc2, ?Hm2, ?Hq2, ?Hm1, ?Hq1;
      repeat split; reflexivity.
Qed.

Lemma initRadio_all_fail doEmit st :
  let c := cfg st in let e := enforceHeltecPins (cfg st) in
  let b := beginCalls st in let d := (0 # 1, 0) in
  (forall j, (j < 12)%nat ->
     radio_begin (b + j) c (fst (nth j (tryOrder c) d)) (snd (nth j (tryOrder c) d)) <> 0) ->
  (deviceType c = 0 -> forall j, (j < 12)%nat ->
     radio_begin (b + 12 + j) e (fst (nth j (tryOrder e) d)) (snd (nth j (tryOrder e) d)) <> 0) ->
  exists st', initRadioRobust doEmit st = (false, st') /\ radioReady st' = false
    /\ msgs st' = (if doEmit then
                     [EvtRadioErr (if deviceType c =? 0 then radio_begin (b + 23) e (0 # 1) 10
                                   else radio_begin (b + 11) c (0 # 1) 10)]
                   else []) ++ msgs st.
Proof.
  cbv zeta. intros Hf1 Hf2.
  destruct (tryCombos_fail doEmit (tryOrder (cfg st)) st (-999) (0 # 1, 0)
              (tryOrder_nonempty _)
              ltac:(intros j Hj; rewrite tryOrder_length in Hj; exact (Hf1 j Hj)))
    as (st1 & E1 & Hc1 & Hb1 & Hr1 & Hm1 & Hq1 & Hmsg1).
  rewrite tryOrder_length in Hb1.
  unfold initRadioRobust. rewrite tryProfile_plain, E1.
  cbv beta iota zeta delta [negb andb]. rewrite Hc1.
  destruct (Z.eqb_spec (deviceType (cfg st)) 0) as [Hdev|Hdev].
  - assert (Hd1 : deviceType (cfg st1) = 0) by (rewrite Hc1; exact Hdev).
    rewrite (tryProfile_enforced _ _ _ Hd1).
    destruct (tryCombos_fail doEmit (tryOrder (enforceHeltecPins (cfg st1)))
                (set_cfg (enforceHeltecPins (cfg st1)) st1)
                (radio_begin (beginCalls st + pred (length (tryOrder (cfg st)))) (cfg st)
                   (fst (nth (pred (length (tryOrder (cfg st)))) (tryOrder (cfg st)) (0 # 1, 0)))
                   (snd (nth (pred (length (tryOrder (cfg st)))) (tryOrder (cfg st)) (0 # 1, 0))))
                (0 # 1, 0) (tryOrder_nonempty _))
      as (st2 & E2 & Hc2 & Hb2 & Hr2 & Hm2 & Hq2 & Hmsg2).
    + intros j Hj. rewrite tryOrder_length in Hj. node_simpl. rewrite Hb1, Hc1.
      exact (Hf2 Hdev j Hj).
    + rewrite E2. cbv beta iota zeta.
      eexists; split; [reflexivity|].
      node_simpl. rewrite Hb1, Hc1 in *.
      replace (beginCalls st + 12 + pred (length (tryOrder (enforceHeltecPins (cfg st)))))%nat
        with (beginCalls st + 23)%nat by (rewrite tryOrder_length; lia).
      destruct doEmit; node_simpl; rewrite ?Hmsg2, ?Hmsg1; split; reflexivity.
  - cbv beta iota zeta.
    eexists; split; [reflexivity|].
    destruct doEmit; node_simpl; rewrite ?Hmsg1; split; reflexivity.
Qed.

(** C7.  [initRadioRobust] tries the power candidates (configured, 14, 10)
    in the outer loop and the TCXO voltages (configured, 1.8, 1.6, 0.0) in
    the inner one; the first pair the driver accepts is written back into
    [g_cfg.tcxoVoltage] and [g_cfg.pwr] and bring-up succeeds, so when the
    first two pairs fail and the third (1.6 V, configured power) succeeds,
    that pair is committed; for deviceType 0, after twelve failures the pins
    are reset by [enforceHeltecPins] and the twelve pairs are tried again;
    when every attempt fails, bring-up fails and reports the code of the last
    attempt.  Call [n] of the driver is the [beginCalls st + n]-th. *)
Theorem initRadioRobust_retry_matrix (doEmit : bool) (st : Node) :
  let c := cfg st in let e := enforceHeltecPins (cfg st) in
  let b := beginCalls st in let d := (0 # 1, 0) in
  tryOrder c = [(tcxoVoltage c, pwr c); (18 # 10, pwr c); (16 # 10, pwr c); (0 # 1, pwr c);
                (tcxoVoltage c, 14); (18 # 10, 14); (16 # 10, 14); (0 # 1, 14);
                (tcxoVoltage c, 10); (18 # 10, 10); (16 # 10, 10); (0 # 1, 10)]
  /\ (forall k, (k < 12)%nat ->
        (forall j, (j < k)%nat ->
           radio_begin (b + j) c (fst (nth j (tryOrder c) d)) (snd (nth j (tryOrder c) d)) <> 0) ->
        radio_begin (b + k) c (fst (nth k (tryOrder c) d)) (snd (nth k (tryOrder c) d)) = 0 ->
        exists st', initRadioRobust doEmit st = (true, st') /\ radioReady st' = true
          /\ cfg st' = commit_profile (fst (nth k (tryOrder c) d)) (snd (nth k (tryOrder c) d)) c)
  /\ (radio_begin b c (tcxoVoltage c) (pwr c) <> 0 ->
      radio_begin (S b) c (18 # 10) (pwr c) <> 0 ->
      radio_begin (S (S b)) c (16 # 10) (pwr c) = 0 ->
      exists st', initRadioRobust doEmit st = (true, st') /\ radioReady st' = true
        /\ tcxoVoltage (cfg st') = 16 # 10 /\ pwr (cfg st') = pwr c)
  /\ (deviceType c = 0 ->
      (forall j, (j < 12)%nat ->
         radio_begin (b + j) c (fst (nth j (tryOrder c) d)) (snd (nth j (tryOrder c) d)) <> 0) ->
      forall k, (k < 12)%nat ->
        (forall j, (j < k)%nat ->
           radio_begin (b + 12 + j) e (fst (nth j (tryOrder e) d)) (snd (nth j (tryOrder e) d)) <> 0) ->
        radio_begin (b + 12 + k) e (fst (nth k (tryOrder e) d)) (snd (nth k (tryOrder e) d)) = 0 ->
        exists st', initRadioRobust doEmit st = (true, st') /\ radioReady st' = true
          /\ cfg st' = commit_profile (fst (nth k (tryOrder e) d)) (snd (nth k (tryOrder e) d)) e)
  /\ ((forall j, (j < 12)%nat ->
         radio_begin (b + j) c (fst (nth j (tryOrder c) d)) (snd (nth j (tryOrder c) d)) <> 0) ->
      (deviceType c = 0 -> forall j, (j < 12)%nat ->
         radio_begin (b + 12 + j) e (fst (nth j (tryOrder e) d)) (snd (nth j (tryOrder e) d)) <> 0) ->
      exists st', initRadioRobust doEmit st = (false, st') /\ radioReady st' = false
        /\ msgs st' = (if doEmit then
                         [EvtRadioErr (if deviceType c =? 0 then radio_begin (b + 23) e (0 # 1) 10
                                       else radio_begin (b + 11) c (0 # 1) 10)]
                       else []) ++ msgs st).
Proof.
  cbv zeta. split; [reflexivity|]. split; [|split; [|split]].
  - intros k Hk Hf Hs.
    destruct (initRadio_first_pass doEmit st k Hk Hf Hs) as (st' & E & Hr & Hc & _).
    exists st'. auto.
  - intros H0 H1 H2.
    destruct (initRadio_first_pass doEmit st 2 ltac:(lia)) as (st' & E & Hr & Hc & _).
    + intros j Hj. destruct j as [|[|j]]; [| |lia]; cbn [nth tryOrder flat_map map pwrTry tcxoTry app fst snd].
      * rewrite Nat.add_0_r. exact H0.
      * replace (beginCalls st + 1)%nat with (S (beginCalls st)) by lia. exact H1.
    + cbn [nth tryOrder flat_map map pwrTry tcxoTry app fst snd].
      replace (beginCalls st + 2)%nat with (S (S (beginCalls st))) by lia. exact H2.
    + exists st'. rewrite Hc. repeat split; assumption || reflexivity.
  - intros Hdev Hf1 k Hk Hf2 Hs.
    destruct (initRadio_second_pass doEmit st k Hdev Hf1 Hk Hf2 Hs) as (st' & E & Hr & Hc & _).
    exists st'. auto.
  - intros Hf1 Hf2. exact (initRadio_all_fail doEmit st Hf1 Hf2).
Qed.
(** ** Setup loop lemmas *)

Lemma tryCombos_flags doEmit combos st lastState :
  let st' := snd (fst (tryCombos doEmit combos st lastState)) in
  setupMode st' = setupMode st /\ setupSaveRequested st' = setupSaveRequested st
  /\ radioReady st' = radioReady st.
Proof.
  revert st lastState.
  induction combos as [|[t p] rest IH]; intros st lastState; cbn [tryCombos];
    [repeat split|].
  unfold beginWith.
  destruct (radio_begin (beginCalls st) (cfg st) t p =? RADIOLIB_ERR_NONE).
  - destruct doEmit; cbn; repeat split.
  - destruct (IH (set_beginCalls (S (beginCalls st)) (set_radioPresent true st))
                 (radio_begin (beginCalls st) (cfg st) t p)) as (A & B & C).
    node_simpl. repeat split; assumption.
Qed.

Lemma tryProfile_flags doEmit enforcePins st lastState :
  let st' := snd (fst (tryProfile doEmit enforcePins st lastState)) in
  setupMode st' = setupMode st /\ setupSaveRequested st' = setupSaveRequested st
  /\ radioReady st' = radioReady st.
Proof.
  unfold tryProfile.
  destruct (enforcePins && (deviceType (cfg st) =? 0)).
  - destruct (tryCombos_flags doEmit (tryOrder (cfg (set_cfg (enforceHeltecPins (cfg st)) st)))
                (set_cfg (enforceHeltecPins (cfg st)) st) lastState) as (A & B & C).
    node_simpl. auto.
  - apply tryCombos_flags.
Qed.

Lemma initRadioRobust_flags doEmit st :
  let r := initRadioRobust doEmit st in
  radioReady (snd r) = fst r /\ setupMode (snd r) = setupMode st
  /\ setupSaveRequested (snd r) = setupSaveRequested st.
Proof.
  unfold initRadioRobust.
  destruct (tryProfile doEmit false st (-999)) as [[ok1 st1] l1] eqn:E1.
  destruct (tryProfile_flags doEmit false st (-999)) as (A1 & B1 & _).
  rewrite E1 in A1, B1. cbn [fst snd] in A1, B1.
  destruct (negb ok1 && (deviceType (cfg st1) =? 0)).
  - destruct (tryProfile doEmit true st1 l1) as [[ok2 st2] l2] eqn:E2.
    destruct (tryProfile_flags doEmit true st1 l1) as (A2 & B2 & _).
    rewrite E2 in A2, B2. cbn [fst snd] in A2, B2.
    destruct ok2, doEmit; cbn; repeat split; congruence.
  - destruct ok1, doEmit; cbn; repeat split; congruence.
Qed.

Lemma enterConfigMode_flags st :
  setupMode (enterConfigMode st) = true /\ setupSaveRequested (enterConfigMode st) = false
  /\ radioReady (enterConfigMode st) = radioReady st.
Proof. repeat split. Qed.

Lemma loadWeatherConfig_cfg st : cfg (loadWeatherConfig st) = cfg st.
Proof.
  unfold loadWeatherConfig.
  destruct (wx_blob (prefs st)); try reflexivity.
  destruct (w_magic w =? WX_MAGIC); reflexivity.
Qed.

(** C8.  The loop of [startConfigMode] breaks only after an iteration that
    leaves both [g_setupSaveRequested] and [g_radioReady] set; a [save]
    while the radio is not ready stages the save but keeps the node in
    SETUP; from a fresh SETUP, a successful [init] followed by [save] ends
    the mode: the configuration is persisted with its magic, [config_done]
    is sent and the mesh is started. *)
Theorem setup_loop_exit :
  (forall inputs st rest st',
     setup_loop inputs st = (Some rest, st') ->
     setupSaveRequested st' = true /\ radioReady st' = true)
  /\ (forall st due rest,
        setupMode st = true -> radioReady st = false ->
        let st1 := handleCommand CmdSave st in
        setupMode st1 = true /\ setupSaveRequested st1 = true /\ radioReady st1 = false
        /\ setup_loop ((Some CmdSave, due) :: rest) st
           = setup_loop rest (if due then setup_prompt st1 else st1))
  /\ (forall st due,
        radioReady st = false ->
        exists st', startConfigMode [(Some CmdSave, due)] st = (None, st')
          /\ setupMode st' = true /\ setupSaveRequested st' = true)
  /\ (forall st due1 due2 rest st1,
        initRadioRobust true (enterConfigMode st) = (true, st1) ->
        exists st', startConfigMode ((Some CmdInit, due1) :: (Some CmdSave, due2) :: rest) st
                    = (Some rest, st')
          /\ setupMode st' = false /\ configSaved st' = true
          /\ cfg_blob (prefs st') = CfgCurrent (with_magic CFG_MAGIC (cfg st1))
          /\ meshRunning st' = true /\ nodeId st' = u16 (Z.land efuse_mac 0xFFFF)
          /\ firstn 3 (msgs st')
             = [EvtMeshStarted (u16 (Z.land efuse_mac 0xFFFF)); EvtConfigDone; EvtCfgSaved]).
Proof.
  split; [|split; [|split]].
  - induction inputs as [|[line due] rest IH]; intros st rest' st' E;
      cbn [setup_loop] in E; [discriminate|].
    destruct (setupSaveRequested _ && radioReady _) eqn:G.
    + injection E as <- <-. apply andb_prop in G. exact G.
    + exact (IH _ _ _ E).
  - intros st due rest Hm Hr. cbn zeta.
    assert (Hs : handleCommand CmdSave st
                 = emit EvtCfgStaged (set_setupSaveRequested true st))
      by (cbn [handleCommand]; rewrite Hm; reflexivity).
    rewrite Hs. node_simpl. rewrite Hm, Hr.
    repeat split. cbn [setup_loop]. rewrite Hs. node_simpl. rewrite Hr. reflexivity.
  - intros st due Hr. unfold startConfigMode. cbn [setup_loop handleCommand].
    destruct (enterConfigMode_flags st) as (A & B & C).
    rewrite A. cbn [negb]. node_simpl. rewrite C, Hr. cbn [andb].
    destruct due; eexists; (split; [reflexivity|]); cbn; split; reflexivity.
  - intros st due1 due2 rest st1 Hi.
    destruct (initRadioRobust_flags true (enterConfigMode st)) as (A & B & C).
    destruct (enterConfigMode_flags st) as (A' & B' & _).
    rewrite Hi in A, B, C. cbn [fst snd] in A, B, C.
    rewrite A' in B. rewrite B' in C.
    set (st2 := if due1 then setup_prompt st1 else st1).
    assert (H2 : setupMode st2 = true /\ setupSaveRequested st2 = false
                 /\ radioReady st2 = true /\ cfg st2 = cfg st1)
      by (subst st2; destruct due1; cbn; auto).
    destruct H2 as (M2 & Q2 & R2 & C2).
    unfold startConfigMode. cbn [setup_loop handleCommand].
    rewrite Hi. cbn [snd]. rewrite C, A. cbn [andb].
    fold st2. rewrite M2. cbn [negb].
    node_simpl. rewrite R2. cbn [andb].
    unfold ensureMeshRunning, saveConfig, saveWeatherConfig. node_simpl. rewrite R2.
    eexists; split; [reflexivity|].
    cbn. rewrite C2. repeat split.
Qed.

(** C9.  A blob of the legacy size whose magic is [CFG_MAGIC] and whose
    deviceType is 1 loads as a current configuration: the shared fields are
    copied, power becomes 17, SCLK/MISO/MOSI become 18/19/23 and
    NSS/RST/DIO0/DIO1 take the legacy CS/RESET/BUSY/DIO pins, whatever
    [g_cfg] held before. *)
Theorem loadConfig_legacy_upgrade (st : Node) (o : LegacyLoraConfig) :
  cfg_blob (prefs st) = CfgLegacy o -> l_magic o = CFG_MAGIC -> l_deviceType o = 1 ->
  exists st', loadConfig st = (true, st') /\ configSaved st' = true
    /\ cfg st' =
       {| magic := CFG_MAGIC; deviceType := 1;
          csPin := l_csPin o; resetPin := l_resetPin o; busyPin := l_busyPin o;
          dioPin := l_dioPin o;
          frequency := l_frequency o; bandwidth := l_bandwidth o;
          spreadingFactor := l_spreadingFactor o; codingRate := l_codingRate o;
          syncWord := l_syncWord o; preambleLength := l_preambleLength o;
          tcxoVoltage := l_tcxoVoltage o;
          useDio2AsRfSwitch := l_useDio2AsRfSwitch o; btEnabled := l_btEnabled o;
          pwr := 17; sclkPin := 18; misoPin := 19; mosiPin := 23;
          nssPin := l_csPin o; rstPin := l_resetPin o;
          dio0Pin := l_busyPin o; dio1Pin := l_dioPin o |}.
Proof.
  intros Hb Hm Hd. unfold loadConfig. rewrite Hb, Hm, Z.eqb_refl.
  cbn [legacy_copy deviceType]. rewrite Hd. cbn [Z.eqb Pos.eqb].
  eexists; split; [reflexivity|]. split; [reflexivity|].
  cbn [configSaved cfg set_configSaved]. rewrite loadWeatherConfig_cfg.
  unfold legacy_wroom, legacy_copy. cbn. rewrite Hm, Hd. reflexivity.
Qed.

(** * Further properties *)

(** ** Exhaustive checks over small ranges *)

Lemma in_zrange v s n : In v (zrange s n) <-> s <= v < s + Z.of_nat n.
Proof.
  revert s. induction n as [|n IH]; intros s; cbn [zrange In].
  - lia.
  - rewrite IH. lia.
Qed.

Lemma range_check (P : Z -> bool) (n : nat) :
  forallb P (zrange 0 n) = true -> forall v, 0 <= v < Z.of_nat n -> P v = true.
Proof.
  intros H v Hv. rewrite forallb_forall in H. apply H, in_zrange. lia.
Qed.

(** ** CRC lemmas *)

Lemma crc16_loop_app crc a b : crc16_loop crc (a ++ b) = crc16_loop (crc16_loop crc a) b.
Proof. revert crc. induction a as [|x a IH]; intros crc; [reflexivity|]. apply IH. Qed.

Lemma crc16_unbit_bit x : is_u16 x -> crc16_unbit (crc16_bit x) = x.
Proof.
  intros Hx. apply Z.eqb_eq. unfold is_u16 in Hx.
  apply (range_check (fun x => crc16_unbit (crc16_bit x) =? x) (Z.to_nat 65536)); [|exact Hx].
  vm_compute. reflexivity.
Qed.

Lemma crc16_bits_byte v : 0 <= v < 256 -> crc16_bits 8 v = v * 256.
Proof.
  intros Hv. apply Z.eqb_eq.
  apply (range_check (fun v => crc16_bits 8 v =? v * 256) 256); [|exact Hv].
  vm_compute. reflexivity.
Qed.

Lemma crc16_bit_inj a b : is_u16 a -> is_u16 b -> crc16_bit a = crc16_bit b -> a = b.
Proof.
  intros Ha Hb E. rewrite <- (crc16_unbit_bit a Ha), <- (crc16_unbit_bit b Hb), E.
  reflexivity.
Qed.

Lemma crc16_bits_inj n a b : is_u16 a -> is_u16 b -> crc16_bits n a = crc16_bits n b -> a = b.
Proof.
  revert a b. induction n as [|n IH]; intros a b Ha Hb E; [exact E|].
  cbn [crc16_bits] in E.
  apply crc16_bit_inj; [exact Ha | exact Hb |].
  exact (IH _ _ (crc16_bit_range a) (crc16_bit_range b) E).
Qed.

Lemma u16_lxor_l s x : is_u16 s -> u16 (Z.lxor s x) = Z.lxor s (u16 x).
Proof.
  intros Hs. rewrite <- (u16_id s Hs) at 2. unfold u16.
  apply Z.bits_inj'. intros n Hn. bits_simpl.
  destruct (Z.testbit s n), (Z.testbit x n), (Z.testbit 65535 n); reflexivity.
Qed.

Lemma lxor_cancel_l s a b : Z.lxor s a = Z.lxor s b -> a = b.
Proof.
  intros E. rewrite <- (Z.lxor_0_l a), <- (Z.lxor_0_l b), <- (Z.lxor_nilpotent s),
    !Z.lxor_assoc, E. reflexivity.
Qed.

(** The state update of one byte in [crc16_loop]. *)
Lemma crc16_step_inj_state s1 s2 x : is_u16 s1 -> is_u16 s2 ->
  crc16_bits 8 (u16 (Z.lxor s1 (Z.shiftl x 8))) = crc16_bits 8 (u16 (Z.lxor s2 (Z.shiftl x 8))) ->
  s1 = s2.
Proof.
  intros H1 H2 E. apply crc16_bits_inj in E; try apply u16_range.
  rewrite !u16_lxor_l in E by assumption. rewrite !(Z.lxor_comm _ (u16 _)) in E.
  exact (lxor_cancel_l _ _ _ E).
Qed.

Lemma shiftl8_u16 x : is_u8 x -> u16 (Z.shiftl x 8) = x * 256.
Proof.
  unfold is_u8. intros Hx. rewrite Z.shiftl_mul_pow2 by lia. apply u16_id. unfold is_u16.
  change (2 ^ 8) with 256. lia.
Qed.

Lemma crc16_step_inj_byte s x y : is_u16 s -> is_u8 x -> is_u8 y ->
  crc16_bits 8 (u16 (Z.lxor s (Z.shiftl x 8))) = crc16_bits 8 (u16 (Z.lxor s (Z.shiftl y 8))) ->
  x = y.
Proof.
  intros Hs Hx Hy E. apply crc16_bits_inj in E; try apply u16_range.
  rewrite !u16_lxor_l in E by assumption. apply lxor_cancel_l in E.
  rewrite !shiftl8_u16 in E by assumption. lia.
Qed.

Lemma crc16_loop_inj s1 s2 d : is_u16 s1 -> is_u16 s2 ->
  crc16_loop s1 d = crc16_loop s2 d -> s1 = s2.
Proof.
  revert s1 s2. induction d as [|x d IH]; intros s1 s2 H1 H2 E; [exact E|].
  cbn [crc16_loop] in E.
  apply IH in E; try apply crc16_bits_range, u16_range.
  exact (crc16_step_inj_state _ _ _ H1 H2 E).
Qed.

(** Changing one byte of the data changes the CRC. *)
Lemma crc16_ccitt_byte_change a x y z : is_u8 x -> is_u8 y -> x <> y ->
  crc16_ccitt (a ++ x :: z) <> crc16_ccitt (a ++ y :: z).
Proof.
  intros Hx Hy Hxy E. unfold crc16_ccitt in E. rewrite !crc16_loop_app in E.
  cbn [crc16_loop] in E.
  assert (Hs : is_u16 (crc16_loop 0xFFFF a)) by (apply crc16_loop_range; unfold is_u16; lia).
  apply crc16_loop_inj in E; try apply crc16_bits_range, u16_range.
  exact (Hxy (crc16_step_inj_byte _ _ _ Hs Hx Hy E)).
Qed.

Lemma land_shiftl_low x y k : 0 <= k -> 0 <= y < 2 ^ k -> Z.land (Z.shiftl x k) y = 0.
Proof.
  intros Hk Hy. apply Z.bits_inj'. intros n Hn. rewrite Z.land_spec, Z.bits_0.
  destruct (Z.lt_ge_cases n k).
  - rewrite Z.shiftl_spec_low by lia. reflexivity.
  - rewrite <- (Z.mod_small y (2 ^ k)) by lia.
    rewrite Z.mod_pow2_bits_high by lia. apply andb_false_r.
Qed.

(** Running the CRC over its own big-endian value leaves 0. *)
Lemma crc16_trailer_zero hi lo : is_u8 hi -> is_u8 lo ->
  crc16_loop (hi * 256 + lo) [hi; lo] = 0.
Proof.
  intros Hh Hl. cbn [crc16_loop].
  assert (Hd : Z.land (Z.shiftl hi 8) lo = 0)
    by (apply land_shiftl_low; unfold is_u8 in Hl; change (2 ^ 8) with 256; lia).
  assert (E1 : u16 (Z.lxor (hi * 256 + lo) (Z.shiftl hi 8)) = lo).
  { rewrite <- join2 by exact Hl. rewrite <- Z.lxor_lor by exact Hd.
    rewrite (Z.lxor_comm (Z.shiftl hi 8) lo), Z.lxor_assoc, Z.lxor_nilpotent, Z.lxor_0_r.
    apply u16_id. unfold is_u8, is_u16 in *; lia. }
  rewrite E1, (crc16_bits_byte lo) by exact Hl.
  rewrite Z.shiftl_mul_pow2 by lia. change (2 ^ 8) with 256.
  rewrite Z.lxor_nilpotent. reflexivity.
Qed.

Lemma crc16_ccitt_sealed body : crc16_ccitt (seal_frame body) = 0.
Proof.
  unfold seal_frame, crc16_ccitt. rewrite crc16_loop_app. fold (crc16_ccitt body).
  pose proof (crc16_ccitt_range body) as Hc.
  assert (E : crc16_ccitt body = u8 (Z.shiftr (crc16_ccitt body) 8) * 256 + u8 (crc16_ccitt body)).
  { clear -Hc. rewrite byte_of_shiftr, u8_spec by lia. change (2 ^ 8) with 256.
    unfold is_u16 in Hc. Z.to_euclidean_division_equations; lia. }
  rewrite E at 1. apply crc16_trailer_zero; apply u8_range.
Qed.

Lemma cons_self_neq {A} (x : A) l : l <> x :: l.
Proof. intros H. apply (f_equal (@length A)) in H. cbn [length] in H. lia. Qed.

Lemma byte_at_trailer pre hi lo :
  byte_at (pre ++ [hi; lo]) (length pre) = hi /\ byte_at (pre ++ [hi; lo]) (S (length pre)) = lo.
Proof.
  unfold byte_at. split.
  - rewrite app_nth2, Nat.sub_diag by lia. reflexivity.
  - rewrite app_nth2 by lia. replace (S (length pre) - length pre)%nat with 1%nat by lia.
    reflexivity.
Qed.

(** A buffer whose last two bytes do not hold the CRC of the rest is refused. *)
Lemma decodeFrame_bad_crc st pre hi lo : is_u8 hi -> is_u8 lo ->
  hi * 256 + lo <> crc16_ccitt pre -> decodeFrame st (pre ++ [hi; lo]) = None.
Proof.
  intros Hh Hl Hc. destruct (byte_at_trailer pre hi lo) as [Bh Bl].
  unfold decodeFrame. cbv zeta. rewrite length_app. cbn [length].
  replace (length pre + 2 - 2)%nat with (length pre) by lia.
  replace (length pre + 2 - 1)%nat with (S (length pre)) by lia.
  rewrite Bh, Bl, firstn_app, Nat.sub_diag, firstn_all. cbn [firstn]. rewrite app_nil_r.
  rewrite join2, u16_id by (unfold is_u8, is_u16 in *; lia || exact Hl).
  destruct (_ <? 22)%nat; [reflexivity|]. destruct (negb (_ && _)); [reflexivity|].
  destruct (Z.eqb_spec (hi * 256 + lo) (crc16_ccitt pre)); [contradiction | reflexivity].
Qed.

Lemma skipn_nth_cons {A} n (d : A) l : (n < length l)%nat ->
  skipn n l = nth n l d :: skipn (S n) l.
Proof.
  revert n. induction l as [|x l IH]; intros [|n] Hn; cbn in Hn |- *; try lia; [reflexivity|].
  apply IH. lia.
Qed.

Lemma split_trailer buf : (2 <= length buf)%nat ->
  buf = firstn (length buf - 2) buf ++ [byte_at buf (length buf - 2); byte_at buf (length buf - 1)].
Proof.
  intros Hl. rewrite <- (firstn_skipn (length buf - 2) buf) at 1. f_equal.
  unfold byte_at. rewrite (skipn_nth_cons (length buf - 2) 0 buf) by lia.
  rewrite (skipn_nth_cons (S (length buf - 2)) 0 buf) by lia.
  replace (S (length buf - 2)) with (length buf - 1)%nat by lia.
  rewrite skipn_all2 by lia. reflexivity.
Qed.

Lemma list_set_split {A} i (v d : A) l : (i < length l)%nat ->
  list_set i v l = firstn i l ++ v :: skipn (S i) l.
Proof.
  revert i. induction l as [|x l IH]; intros [|i] Hi; cbn in Hi |- *; try lia; [reflexivity|].
  f_equal. apply IH. lia.
Qed.

Lemma list_nth_split {A} i (d : A) l : (i < length l)%nat ->
  l = firstn i l ++ nth i l d :: skipn (S i) l.
Proof.
  revert i. induction l as [|x l IH]; intros [|i] Hi; cbn in Hi |- *; try lia; [reflexivity|].
  f_equal. apply IH. lia.
Qed.

Lemma list_set_app_l {A} i (v : A) a b : (i < length a)%nat ->
  list_set i v (a ++ b) = list_set i v a ++ b.
Proof.
  revert i. induction a as [|x a IH]; intros [|i] Hi; cbn in Hi |- *; try lia; [reflexivity|].
  f_equal. apply IH. lia.
Qed.

Lemma list_set_app_r {A} i (v : A) a b : (length a <= i)%nat ->
  list_set i v (a ++ b) = a ++ list_set (i - length a) v b.
Proof.
  revert i. induction a as [|x a IH]; intros i Hi.
  - cbn. now rewrite Nat.sub_0_r.
  - destruct i as [|i]; cbn in Hi |- *; [lia|]. f_equal. apply IH. lia.
Qed.

Lemma isDuplicate_zero st : fst (isDuplicate 0 st) = false.
Proof.
  unfold isDuplicate. cbn [Z.eqb negb].
  replace (existsb (fun c => (c =? 0) && false) (dupCache st)) with false; [reflexivity|].
  induction (dupCache st) as [|c l IH]; [reflexivity|]. cbn [existsb].
  rewrite andb_false_r. exact IH.
Qed.

Lemma isDuplicate_msgs crc st : msgs (snd (isDuplicate crc st)) = msgs st.
Proof. unfold isDuplicate. destruct (existsb _ _); reflexivity. Qed.

Lemma handleMeshFrame_msgs st buf now r0 r1 :
  exists l, msgs (handleMeshFrame st buf now r0 r1) = l ++ msgs st.
Proof.
  unfold handleMeshFrame. destruct (decodeFrame st buf) as [d|].
  - destruct (dispatchFrame_emits st d now r0 r1) as [e He]. exists [e]. exact He.
  - exists []. reflexivity.
Qed.

(** X1. Every frame [sendMeshPacket] hands to [g_radio->transmit] is at
    least 23 bytes long, and its CRC-16/CCITT-FALSE over all its bytes,
    trailer included, is 0. *)
Theorem sendMeshPacket_frame_crc_zero (st : Node) (type dst : Z) (payload : list Z)
    (r0 r1 : Z) (frame : list Z) :
  air (snd (sendMeshPacket st type dst payload r0 r1)) = frame :: air st ->
  crc16_ccitt frame = 0 /\ (23 <= length frame)%nat.
Proof.
  destruct (sendMeshPacket_counter st type dst payload r0 r1) as [H|[enc H]];
    rewrite H; cbn [snd air set_air set_txCounter]; intros E.
  - now apply cons_self_neq in E.
  - injection E as <-. unfold wire_frame. split.
    + apply crc16_ccitt_sealed.
    + rewrite seal_frame_length, length_app. unfold frame_header.
      rewrite !length_app, make_nonce_length. unfold be16, be32. cbn [length]. lia.
Qed.

(** X2. [handleIncoming] hashes the whole received buffer, CRC trailer
    included. For every buffer that passes the CRC check of
    [handleMeshFrame] that hash is 0, which [isDuplicate] never matches: the
    buffer is always passed on to [handleMeshFrame], and the same frame
    received again right afterwards is processed again (a second [rx]
    notification and a second dispatch). *)
Theorem handleIncoming_valid_frames_not_suppressed (st : Node) (buf : list Z)
    (now r0 r1 : Z) :
  Forall is_u8 buf -> (2 <= length buf)%nat ->
  byte_at buf (length buf - 2) * 256 + byte_at buf (length buf - 1)
    = crc16_ccitt (firstn (length buf - 2) buf) ->
  crc16_ccitt buf = 0
  /\ fst (isDuplicate (crc16_ccitt buf) st) = false
  /\ handleIncoming st buf now r0 r1
     = handleMeshFrame (emit (EvtRx buf) (snd (isDuplicate 0 st))) buf now r0 r1
  /\ exists l, msgs (handleIncoming (handleIncoming st buf now r0 r1) buf now r0 r1)
               = l ++ EvtRx buf :: msgs (handleIncoming st buf now r0 r1).
Proof.
  intros Hb Hl Hc.
  assert (H0 : crc16_ccitt buf = 0).
  { rewrite (split_trailer buf Hl). unfold crc16_ccitt at 1. rewrite crc16_loop_app.
    fold (crc16_ccitt (firstn (length buf - 2) buf)). rewrite <- Hc.
    apply crc16_trailer_zero; apply byte_at_u8, Hb. }
  assert (Hi : forall s, handleIncoming s buf now r0 r1
                         = handleMeshFrame (emit (EvtRx buf) (snd (isDuplicate 0 s))) buf now r0 r1).
  { intros s. unfold handleIncoming. rewrite H0.
    pose proof (isDuplicate_zero s) as Hz.
    destruct (isDuplicate 0 s) as [dup s']. cbn in Hz. subst dup. reflexivity. }
  split; [exact H0|]. split; [rewrite H0; apply isDuplicate_zero|].
  split; [apply Hi|].
  rewrite (Hi (handleIncoming st buf now r0 r1)).
  destruct (handleMeshFrame_msgs (emit (EvtRx buf) (snd (isDuplicate 0 (handleIncoming st buf now r0 r1))))
              buf now r0 r1) as [l Hm].
  exists l. rewrite Hm. cbn [emit set_msgs msgs]. now rewrite isDuplicate_msgs.
Qed.

(** X3. Changing any one byte of a frame laid out by [sendMeshPacket]
    (header, payload or CRC trailer) to another byte value makes
    [handleMeshFrame] drop it without any effect: the CRC check fails. *)
Theorem frame_single_byte_change_rejected (st : Node) (body : list Z) (i : nat) (b : Z) :
  Forall is_u8 body -> is_u8 b -> (i < length (seal_frame body))%nat ->
  b <> nth i (seal_frame body) 0 ->
  decodeFrame st (list_set i b (seal_frame body)) = None
  /\ forall now r0 r1, handleMeshFrame st (list_set i b (seal_frame body)) now r0 r1 = st.
Proof.
  intros Hbody Hb Hi Hne.
  assert (Hd : decodeFrame st (list_set i b (seal_frame body)) = None).
  { pose proof (crc16_ccitt_range body) as Hc.
    set (c := crc16_ccitt body) in *.
    set (hi := u8 (Z.shiftr c 8)). set (lo := u8 c).
    assert (Ec : hi * 256 + lo = c).
    { clear -Hc. unfold hi, lo. rewrite byte_of_shiftr, u8_spec by lia. change (2 ^ 8) with 256.
      unfold is_u16 in Hc. Z.to_euclidean_division_equations; lia. }
    assert (Hs : seal_frame body = body ++ [hi; lo]) by reflexivity.
    rewrite Hs in Hi, Hne |- *. rewrite length_app in Hi. cbn [length] in Hi.
    destruct (Nat.lt_ge_cases i (length body)) as [Hlt|Hge].
    - rewrite list_set_app_l by exact Hlt.
      apply decodeFrame_bad_crc; try apply u8_range. rewrite Ec.
      rewrite app_nth1 in Hne by exact Hlt.
      pose proof (list_set_split i b 0 body Hlt) as Hset.
      pose proof (list_nth_split i 0 body Hlt) as Hsplit.
      set (pre := firstn i body) in *. set (suf := skipn (S i) body) in *.
      rewrite Hset. unfold c. rewrite Hsplit at 1. intros E.
      apply (crc16_ccitt_byte_change pre b (nth i body 0) suf); auto.
      exact (byte_at_u8 body i Hbody).
    - assert (Hu : list_set i b (body ++ [hi; lo])
                   = body ++ list_set (i - length body) b [hi; lo]).
      { now apply list_set_app_r. }
      rewrite Hu. rewrite app_nth2 in Hne by exact Hge.
      destruct (i - length body)%nat as [|[|k]] eqn:Ek; cbn [list_set nth] in Hne |- *;
        [| |cbn [length] in Hi; lia].
      + apply decodeFrame_bad_crc; [exact Hb | apply u8_range |].
        change (crc16_ccitt body) with c. lia.
      + apply decodeFrame_bad_crc; [apply u8_range | exact Hb |].
        change (crc16_ccitt body) with c. lia. }
  split; [exact Hd|]. intros now r0 r1. unfold handleMeshFrame. now rewrite Hd.
Qed.

(** ** Hex text *)

Lemma toHexByte_shape b : toHexByte b = [nth 0 (toHexByte b) 0; nth 1 (toHexByte b) 0].
Proof. reflexivity. Qed.

Lemma hex_pair_ok_id b : is_u8 b -> hex_pair_ok (fun c => c) b = true.
Proof.
  intros Hb. apply (range_check (hex_pair_ok (fun c => c)) 256); [|exact Hb].
  vm_compute. reflexivity.
Qed.

Lemma hex_pair_ok_lower b : is_u8 b -> hex_pair_ok to_lower b = true.
Proof.
  intros Hb. apply (range_check (hex_pair_ok to_lower) 256); [|exact Hb].
  vm_compute. reflexivity.
Qed.

Lemma parse_pairs_hex f k : (forall b, is_u8 b -> hex_pair_ok f b = true) ->
  Forall is_u8 k -> parse_pairs (map f (flat_map toHexByte k)) = Some k.
Proof.
  intros Hf Hk. induction Hk as [|b k Hb Hk IH]; [reflexivity|].
  cbn [flat_map]. rewrite toHexByte_shape, map_app. cbn [map app parse_pairs].
  pose proof (Hf b Hb) as H. unfold hex_pair_ok in H.
  apply andb_prop in H as [H _]. apply andb_prop in H as [H _].
  apply andb_prop in H as [H _]. apply andb_prop in H as [H1 H2].
  apply negb_true_iff in H1. rewrite H1, IH. cbn [option_map].
  apply Z.eqb_eq in H2. rewrite H2. reflexivity.
Qed.

Lemma hex_chars f k : (forall b, is_u8 b -> hex_pair_ok f b = true) -> Forall is_u8 k ->
  Forall (fun c => is_space c = false) (map f (flat_map toHexByte k)).
Proof.
  intros Hf Hk. induction Hk as [|b k Hb Hk IH]; [constructor|].
  cbn [flat_map]. rewrite toHexByte_shape, map_app. cbn [map app].
  pose proof (Hf b Hb) as H. unfold hex_pair_ok in H.
  apply andb_prop in H as [H _]. apply andb_prop in H as [H H4].
  apply andb_prop in H as [_ H3].
  apply negb_true_iff in H3, H4. repeat constructor; assumption.
Qed.

Lemma length_hex (f : Z -> Z) (k : list Z) : length (map f (flat_map toHexByte k)) = (2 * length k)%nat.
Proof.
  rewrite length_map. induction k as [|b k IH]; [reflexivity|].
  cbn [flat_map]. rewrite length_app, IH. cbn [length toHexByte]. lia.
Qed.

Lemma drop_spaces_id s : (forall c r, s = c :: r -> is_space c = false) -> drop_spaces s = s.
Proof. destruct s as [|c r]; [reflexivity|]. intros H. cbn. now rewrite (H c r eq_refl). Qed.

(** [trim] leaves a string alone when it neither starts nor ends with a blank. *)
Lemma trim_id s : (forall c r, s = c :: r -> is_space c = false) ->
  (forall c r, s = r ++ [c] -> is_space c = false) -> trim s = s.
Proof.
  intros Hh Ht. unfold trim. rewrite (drop_spaces_id s Hh).
  rewrite drop_spaces_id; [apply rev_involutive|].
  intros c r E. apply (Ht c (rev r)). rewrite <- (rev_involutive s), E. reflexivity.
Qed.

Lemma Forall_first {A} (P : A -> Prop) s : Forall P s -> forall c r, s = c :: r -> P c.
Proof. intros H c r ->. now inversion H. Qed.

Lemma Forall_last {A} (P : A -> Prop) s : Forall P s -> forall c r, s = r ++ [c] -> P c.
Proof. intros H c r ->. apply Forall_app in H as [_ H]. now inversion H. Qed.

Lemma trim_hex f k : (forall b, is_u8 b -> hex_pair_ok f b = true) -> Forall is_u8 k ->
  trim (map f (flat_map toHexByte k)) = map f (flat_map toHexByte k).
Proof.
  intros Hf Hk. pose proof (hex_chars f k Hf Hk) as H.
  apply trim_id; [apply (Forall_first _ _ H) | apply (Forall_last _ _ H)].
Qed.

Lemma parseHexKey16_hex f k : (forall b, is_u8 b -> hex_pair_ok f b = true) ->
  length k = 16%nat -> Forall is_u8 k -> parseHexKey16 (map f (flat_map toHexByte k)) = Some k.
Proof.
  intros Hf Hl Hk. unfold parseHexKey16. rewrite (trim_hex f k Hf Hk).
  destruct k as [|b k']; [discriminate|].
  assert (Hb : is_u8 b) by now inversion Hk.
  pose proof (Hf b Hb) as H. unfold hex_pair_ok in H.
  apply andb_prop in H as [_ H5]. apply negb_true_iff in H5.
  assert (Es : map f (flat_map toHexByte (b :: k'))
               = f (nth 0 (toHexByte b) 0) :: f (nth 1 (toHexByte b) 0)
                 :: map f (flat_map toHexByte k')) by reflexivity.
  rewrite Es. cbn iota. rewrite H5, andb_false_r. rewrite <- Es.
  cbn zeta. rewrite length_hex, Hl. cbn [Nat.eqb negb Nat.mul Nat.add].
  now apply parse_pairs_hex.
Qed.

Lemma meshKeyHex_16 k : length k = 16%nat -> meshKeyHex k = flat_map toHexByte k.
Proof. intros Hl. unfold meshKeyHex. now rewrite firstn_all2 by lia. Qed.

Lemma trim_app a b :
  (forall c r, a = c :: r -> is_space c = false) -> a <> [] ->
  Forall (fun c => is_space c = false) b -> b <> [] -> trim (a ++ b) = a ++ b.
Proof.
  intros Ha Hna Hb Hnb. apply trim_id.
  - intros c r E. destruct a as [|x a]; [contradiction|]. injection E as -> _.
    now apply (Ha c a).
  - intros c r E. destruct (exists_last Hnb) as (b' & c' & ->).
    rewrite app_assoc in E. apply app_inj_tail in E as [_ ->].
    exact (Forall_last _ _ Hb c b' eq_refl).
Qed.

Lemma flat_map_hex_nonempty k : k <> [] -> flat_map toHexByte k <> [].
Proof. destruct k; [contradiction|]. discriminate. Qed.

(** X4. For every 16-byte key, the hex text [meshKeyHex] prints parses back
    to the key with [parseHexKey16], and typing [mesh key] followed by that
    text (which [handleCommand] lower-cases) installs exactly that key and
    reports [mesh_key] and [ok]. *)
Theorem meshKeyHex_roundtrip (st : Node) (k : list Z) :
  length k = 16%nat -> Forall is_u8 k ->
  parseHexKey16 (meshKeyHex k) = Some k
  /\ meshKey (meshKeySetCommand (str_mesh_key_sp ++ meshKeyHex k) st) = k
  /\ msgs (meshKeySetCommand (str_mesh_key_sp ++ meshKeyHex k) st)
     = EvtOk :: EvtOther EvtName.mesh_key :: msgs st.
Proof.
  intros Hl Hk. rewrite (meshKeyHex_16 k Hl).
  assert (Hp : parseHexKey16 (flat_map toHexByte k) = Some k).
  { rewrite <- (map_id (flat_map toHexByte k)).
    apply parseHexKey16_hex; [exact hex_pair_ok_id | exact Hl | exact Hk]. }
  assert (Hne : k <> []) by (intros ->; discriminate).
  assert (Hc : meshKeySetCommand (str_mesh_key_sp ++ flat_map toHexByte k) st
               = emit EvtOk (emit (EvtOther EvtName.mesh_key) (set_meshKey k st))).
  { unfold meshKeySetCommand. rewrite trim_app.
    - rewrite map_app. change (map to_lower str_mesh_key_sp) with str_mesh_key_sp.
      rewrite skipn_app. change (length str_mesh_key_sp) with 9%nat.
      rewrite Nat.sub_diag. change (skipn 9 str_mesh_key_sp) with (@nil Z). cbn [app skipn].
      now rewrite parseHexKey16_hex by (exact hex_pair_ok_lower || assumption).
    - intros c r E. injection E as <- _. reflexivity.
    - discriminate.
    - rewrite <- (map_id (flat_map toHexByte k)). apply hex_chars; [exact hex_pair_ok_id | exact Hk].
    - now apply flat_map_hex_nonempty. }
  split; [exact Hp|]. rewrite Hc. split; reflexivity.
Qed.

Lemma list_pairs_ind (P : list Z -> Prop) :
  P [] -> (forall c, P [c]) -> (forall a b r, P r -> P (a :: b :: r)) -> forall t, P t.
Proof.
  intros H0 H1 H2. fix IH 1. intros [|a [|b r]]; [exact H0 | apply H1 | apply H2, IH].
Qed.

Lemma parse_pairs_some t k : parse_pairs t = Some k ->
  length k = Nat.div2 (length t) /\ Forall is_u8 k.
Proof.
  revert k. induction t as [|c|a b r IH] using list_pairs_ind; intros k H.
  - injection H as <-. split; [reflexivity | constructor].
  - injection H as <-. split; [reflexivity | constructor].
  - cbn [parse_pairs] in H. destruct (_ || _); [discriminate|].
    destruct (parse_pairs r) as [k'|] eqn:E; [|discriminate].
    cbn [option_map] in H. injection H as <-.
    destruct (IH k' eq_refl) as [Hl Hu]. split.
    + cbn [length Nat.div2]. now rewrite Hl.
    + constructor; [apply u8_range | exact Hu].
Qed.

Lemma parse_pairs_defined t : Nat.Even (length t) ->
  (parse_pairs t <> None <-> Forall (fun c => 0 <= nibble c) t).
Proof.
  induction t as [|c|a b r IH] using list_pairs_ind; intros Hev.
  - split; [constructor | discriminate].
  - exfalso. destruct Hev as [m Hm]. cbn in Hm. lia.
  - assert (Hr : Nat.Even (length r)).
    { destruct Hev as [m Hm]. exists (m - 1)%nat. cbn in Hm. lia. }
    specialize (IH Hr). cbn [parse_pairs].
    destruct (Z.ltb_spec (nibble a) 0) as [Ha|Ha], (Z.ltb_spec (nibble b) 0) as [Hb|Hb];
      cbn [orb].
    + split; [intros N; contradiction N; reflexivity | intros N; inversion N; lia].
    + split; [intros N; contradiction N; reflexivity | intros N; inversion N; lia].
    + split; [intros N; contradiction N; reflexivity |
              intros N; inversion N as [|? ? ? N']; inversion N'; lia].
    + rewrite Forall_cons_iff, Forall_cons_iff, <- IH.
      destruct (parse_pairs r); cbn [option_map]; split.
      * intros _. split; [lia | split; [lia | discriminate]].
      * intros _. discriminate.
      * intros H. contradiction H. reflexivity.
      * intros (_ & _ & H). contradiction H. reflexivity.
Qed.

Lemma parseHexKey16_body s :
  parseHexKey16 s = if negb (length (hex_body s) =? 32)%nat then None else parse_pairs (hex_body s).
Proof. reflexivity. Qed.

(** X5. [parseHexKey16] succeeds exactly when the text, trimmed and without
    an optional [0x]/[0X] prefix, is 32 characters that are all hex digits
    (of either case); what it returns is then 16 bytes. *)
Theorem parseHexKey16_spec (s : list Z) :
  (parseHexKey16 s <> None
   <-> length (hex_body s) = 32%nat /\ Forall (fun c => 0 <= nibble c) (hex_body s))
  /\ forall k, parseHexKey16 s = Some k -> length k = 16%nat /\ Forall is_u8 k.
Proof.
  rewrite parseHexKey16_body. split.
  - destruct (Nat.eqb_spec (length (hex_body s)) 32) as [E|E]; cbn [negb].
    + rewrite parse_pairs_defined by (rewrite E; exists 16%nat; reflexivity).
      split; [intros H; split; assumption | intros [_ H]; exact H].
    + split; [intros H; contradiction H; reflexivity | intros [H _]; contradiction].
  - intros k. destruct (Nat.eqb_spec (length (hex_body s)) 32) as [E|E]; cbn [negb];
      [|discriminate].
    intros H. apply parse_pairs_some in H as [Hl Hu]. rewrite E in Hl. split; assumption.
Qed.

Lemma toHex_byte b : is_u8 b -> toHex [b] = toHexByte b.
Proof.
  intros Hb.
  pose proof (range_check
    (fun b => if list_eq_dec Z.eq_dec (toHex [b]) (toHexByte b) then true else false) 256
    ltac:(vm_compute; reflexivity) b Hb) as H.
  cbv beta in H. destruct (list_eq_dec Z.eq_dec (toHex [b]) (toHexByte b)); [assumption|discriminate].
Qed.

Lemma toHex_flat buf : Forall is_u8 buf -> toHex buf = flat_map toHexByte buf.
Proof.
  intros H. induction H as [|b buf Hb _ IH]; [reflexivity|].
  change (toHex (b :: buf)) with (toHex [b] ++ toHex buf).
  rewrite toHex_byte, IH by exact Hb. reflexivity.
Qed.

Lemma toHexByte_digits b : is_u8 b -> Forall (fun c => In c hex_table) (toHexByte b).
Proof.
  intros Hb. unfold toHexByte.
  apply Forall_cons; [|apply Forall_cons; [|apply Forall_nil]]; apply nth_In.
  all: cbn [length hex_table]; unfold is_u8 in Hb.
  all: change 15 with (Z.ones 4); rewrite Z.land_ones by lia.
  - pose proof (Z.mod_pos_bound (Z.shiftr b 4) (2 ^ 4)). lia.
  - pose proof (Z.mod_pos_bound b (2 ^ 4)). lia.
Qed.

(** X6. [toHex], which renders a received frame in the [rx] notification,
    writes every byte as the same two upper-case hex digits as [toHexByte]:
    the text has two characters per byte, all of them from [0-9A-F], and
    [parseHexKey16]'s pairwise digit decoding gives the bytes back. *)
Theorem toHex_roundtrip (buf : list Z) :
  Forall is_u8 buf ->
  toHex buf = flat_map toHexByte buf
  /\ length (toHex buf) = (2 * length buf)%nat
  /\ Forall (fun c => In c hex_table) (toHex buf)
  /\ parse_pairs (toHex buf) = Some buf.
Proof.
  intros Hb. rewrite (toHex_flat buf Hb). split; [reflexivity|]. split.
  - rewrite <- (map_id (flat_map toHexByte buf)). apply length_hex.
  - split.
    + apply Forall_flat_map. eapply Forall_impl; [|exact Hb]. exact toHexByte_digits.
    + rewrite <- (map_id (flat_map toHexByte buf)).
      apply parse_pairs_hex; [exact hex_pair_ok_id | exact Hb].
Qed.

(** ** JSON escaping *)

Lemma u8_u8 x : u8 (u8 x) = u8 x.
Proof. apply u8_id, u8_range. Qed.

Lemma jsonEscape_char_u8 x : jsonEscape_char x = jsonEscape_char (u8 x).
Proof. unfold jsonEscape_char. now rewrite u8_u8. Qed.

Lemma jsonEscape_char_printable x :
  jsonEscape_char x <> [] /\ Forall (fun c => 32 <= c <= 126) (jsonEscape_char x).
Proof.
  rewrite jsonEscape_char_u8.
  pose proof (range_check (fun x => negb (length (jsonEscape_char x) =? 0)%nat
                && forallb (fun c => (32 <=? c) && (c <=? 126)) (jsonEscape_char x)) 256
                ltac:(vm_compute; reflexivity) (u8 x) (u8_range x)) as H.
  cbv beta in H. apply andb_prop in H as [H1 H2]. split.
  - intros E. rewrite E in H1. discriminate.
  - rewrite forallb_forall in H2. apply Forall_forall. intros c Hc.
    specialize (H2 c Hc). apply andb_prop in H2 as [A B].
    apply Z.leb_le in A. apply Z.leb_le in B. lia.
Qed.

Lemma jsonEscape_char_prefix_free x y : is_u8 x -> is_u8 y ->
  is_prefix (jsonEscape_char x) (jsonEscape_char y) = true -> x = y.
Proof.
  intros Hx Hy Hp.
  pose proof (range_check (fun x => forallb (fun y =>
                negb (is_prefix (jsonEscape_char x) (jsonEscape_char y)) || (x =? y))
                (zrange 0 256)) 256 ltac:(vm_compute; reflexivity) x Hx) as H.
  cbv beta in H. rewrite forallb_forall in H.
  assert (Hin : In y (zrange 0 256)) by (apply in_zrange; unfold is_u8 in Hy; lia).
  specialize (H y Hin). rewrite Hp in H. cbn [negb orb] in H. now apply Z.eqb_eq.
Qed.

Lemma app_is_prefix l1 r1 l2 r2 : l1 ++ r1 = l2 ++ r2 ->
  is_prefix l1 l2 = true \/ is_prefix l2 l1 = true.
Proof.
  revert l2. induction l1 as [|x l1 IH]; intros l2 E; [left; reflexivity|].
  destruct l2 as [|y l2]; [right; reflexivity|].
  cbn [app] in E. injection E as -> E. cbn [is_prefix]. rewrite Z.eqb_refl.
  exact (IH l2 E).
Qed.

(** X7. [jsonEscape] writes only printable ASCII (codes 32 to 126), so no
    raw control character reaches a JSON notification, and it loses nothing:
    two strings with the same escaped text are the same bytes. *)
Theorem jsonEscape_printable_injective :
  (forall s : list Z, Forall (fun c => 32 <= c <= 126) (jsonEscape s))
  /\ forall s t : list Z, jsonEscape s = jsonEscape t -> map u8 s = map u8 t.
Proof.
  split.
  - intros s. apply Forall_flat_map. apply Forall_forall. intros x _.
    apply jsonEscape_char_printable.
  - intros s. induction s as [|x s IH]; intros [|y t] E; cbn [map]; try reflexivity.
    + exfalso. cbn [jsonEscape flat_map] in E.
      destruct (jsonEscape_char_printable y) as [Hn _].
      destruct (jsonEscape_char y); [contradiction | discriminate].
    + exfalso. cbn [jsonEscape flat_map] in E.
      destruct (jsonEscape_char_printable x) as [Hn _].
      destruct (jsonEscape_char x); [contradiction | discriminate].
    + cbn [jsonEscape flat_map] in E. rewrite (jsonEscape_char_u8 x), (jsonEscape_char_u8 y) in E.
      assert (Hxy : u8 x = u8 y).
      { destruct (app_is_prefix _ _ _ _ E) as [P|P];
          [|symmetry]; apply jsonEscape_char_prefix_free; try apply u8_range; exact P. }
      rewrite Hxy in E. apply app_inv_head in E. f_equal; [exact Hxy | apply IH, E].
Qed.

(** ** The peer table *)

Lemma refresh_peer_none id now ps :
  refresh_peer id now ps = None <-> ~ In id (map peer_id ps).
Proof.
  induction ps as [|p ps IH]; cbn [refresh_peer map In]; [tauto|].
  destruct (Z.eqb_spec (peer_id p) id) as [E|E].
  - split; [discriminate | intros H; exfalso; apply H; left; exact E].
  - destruct (refresh_peer id now ps) as [l|]; cbn [option_map]; split.
    + discriminate.
    + intros H. assert (N : Some l = None) by (apply IH; intros Hin; apply H; right; exact Hin).
      discriminate.
    + intros _ [H|H]; [contradiction|]. now apply IH.
    + reflexivity.
Qed.

Lemma refresh_peer_some id now ps ps' : refresh_peer id now ps = Some ps' ->
  map peer_id ps' = map peer_id ps /\ In (mkMeshPeer id now) ps'
  /\ forall p, In p ps -> peer_id p <> id -> In p ps'.
Proof.
  revert ps'. induction ps as [|q ps IH]; intros ps' H; cbn [refresh_peer] in H;
    [discriminate|].
  destruct (Z.eqb_spec (peer_id q) id) as [E|E].
  - injection H as <-. cbn [map peer_id]. rewrite E. split; [reflexivity|].
    split; [left; reflexivity|]. intros p [<-|Hp] Hne; [contradiction | right; exact Hp].
  - destruct (refresh_peer id now ps) as [ps''|]; [|discriminate].
    cbn [option_map] in H. injection H as <-.
    destruct (IH ps'' eq_refl) as (Hm & Hin & Hk).
    cbn [map]. rewrite Hm. split; [reflexivity|]. split; [right; exact Hin|].
    intros p [<-|Hp] Hne; [left; reflexivity | right; apply Hk; assumption].
Qed.

(** X8. [updatePeer] keeps the peer table well formed (at most [MAX_PEERS]
    entries, distinct ids, none 0).  For a nonzero id that is already listed
    or fits, the table afterwards holds that id seen at [now], and every
    entry for another id is kept; id 0, and a new id when the table is full,
    leave the node unchanged. *)
Theorem updatePeer_table (id now : Z) (st : Node) :
  peers_wf (peers st) ->
  peers_wf (peers (updatePeer id now st))
  /\ (id <> 0 -> In id (map peer_id (peers st)) \/ (length (peers st) < MAX_PEERS)%nat ->
      In (mkMeshPeer id now) (peers (updatePeer id now st)))
  /\ (forall p, In p (peers st) -> peer_id p <> id -> In p (peers (updatePeer id now st)))
  /\ (id = 0 \/ (~ In id (map peer_id (peers st)) /\ length (peers st) = MAX_PEERS)
      -> updatePeer id now st = st).
Proof.
  intros (Hl & Hnd & H0). unfold updatePeer.
  destruct (Z.eqb_spec id 0) as [Hz|Hz].
  - split; [repeat split; assumption|]. split; [intros; contradiction|].
    split; [intros; assumption | reflexivity].
  - destruct (refresh_peer id now (peers st)) as [ps|] eqn:R.
    + destruct (refresh_peer_some _ _ _ _ R) as (Hm & Hin & Hk).
      cbn [peers set_peers]. split.
      * unfold peers_wf. rewrite Hm. repeat split; try assumption.
        rewrite <- (length_map peer_id ps), Hm, length_map. exact Hl.
      * split; [intros; exact Hin|]. split; [exact Hk|].
        intros [E|[E _]]; [contradiction|].
        apply (proj2 (refresh_peer_none id now (peers st))) in E. congruence.
    + apply refresh_peer_none in R.
      destruct (Nat.ltb_spec (length (peers st)) MAX_PEERS) as [Hlt|Hge].
      * cbn [peers set_peers]. split.
        -- unfold peers_wf. rewrite length_app, map_app. cbn [length map].
           split; [lia|]. split.
           ++ apply NoDup_app; [exact Hnd | constructor; [intros []|constructor] |].
              intros x Hx [<-|[]]. contradiction.
           ++ rewrite in_app_iff. intros [N|[N|[]]]; contradiction.
        -- split; [intros _ _; apply in_or_app; right; left; reflexivity|].
           split; [intros p Hp _; apply in_or_app; left; exact Hp|].
           intros [E|[_ E]]; [contradiction | lia].
      * split; [repeat split; assumption|]. split; [intros _ [N|N]; [contradiction | lia]|].
        split; [intros; assumption | reflexivity].
Qed.

(** ** The sensor table *)

Lemma set_sensor_mode_none pin m ss :
  set_sensor_mode pin m ss = None <-> ~ In pin (map sensor_pin ss).
Proof.
  induction ss as [|s ss IH]; cbn [set_sensor_mode map In]; [tauto|].
  destruct (Z.eqb_spec (sensor_pin s) pin) as [E|E].
  - split; [discriminate | intros H; exfalso; apply H; left; exact E].
  - destruct (set_sensor_mode pin m ss) as [l|]; cbn [option_map]; split.
    + discriminate.
    + intros H. assert (N : Some l = None) by (apply IH; intros Hin; apply H; right; exact Hin).
      discriminate.
    + intros _ [H|H]; [contradiction|]. now apply IH.
    + reflexivity.
Qed.

Lemma set_sensor_mode_some pin m ss ss' : set_sensor_mode pin m ss = Some ss' ->
  map sensor_pin ss' = map sensor_pin ss /\ In (mkSensorDef pin m) ss'
  /\ forall s, In s ss -> sensor_pin s <> pin -> In s ss'.
Proof.
  revert ss'. induction ss as [|q ss IH]; intros ss' H; cbn [set_sensor_mode] in H;
    [discriminate|].
  destruct (Z.eqb_spec (sensor_pin q) pin) as [E|E].
  - injection H as <-. cbn [map sensor_pin]. rewrite E. split; [reflexivity|].
    split; [left; reflexivity|]. intros s [<-|Hs] Hne; [contradiction | right; exact Hs].
  - destruct (set_sensor_mode pin m ss) as [ss''|]; [|discriminate].
    cbn [option_map] in H. injection H as <-.
    destruct (IH ss'' eq_refl) as (Hm & Hin & Hk).
    cbn [map]. rewrite Hm. split; [reflexivity|]. split; [right; exact Hin|].
    intros s [<-|Hs] Hne; [left; reflexivity | right; apply Hk; assumption].
Qed.

(** X9. [addSensor] keeps the sensor table well formed (at most
    [MAX_SENSORS] entries, distinct pins).  It succeeds exactly when the pin
    is already listed or the table has room, and then the table lists the
    pin with the requested mode and keeps every entry for another pin; when
    it fails the node is unchanged. *)
Theorem addSensor_table (pin : Z) (analogMode : bool) (st : Node) :
  sensors_wf (sensors (weather st)) ->
  sensors_wf (sensors (weather (snd (addSensor pin analogMode st))))
  /\ (fst (addSensor pin analogMode st) = true
      <-> In pin (map sensor_pin (sensors (weather st)))
          \/ Z.of_nat (length (sensors (weather st))) < MAX_SENSORS)
  /\ (fst (addSensor pin analogMode st) = true ->
      In (mkSensorDef pin analogMode) (sensors (weather (snd (addSensor pin analogMode st)))))
  /\ (fst (addSensor pin analogMode st) = false -> snd (addSensor pin analogMode st) = st)
  /\ (forall s, In s (sensors (weather st)) -> sensor_pin s <> pin ->
      In s (sensors (weather (snd (addSensor pin analogMode st))))).
Proof.
  intros (Hl & Hnd). unfold addSensor.
  destruct (set_sensor_mode pin analogMode (sensors (weather st))) as [ss|] eqn:R.
  - destruct (set_sensor_mode_some _ _ _ _ R) as (Hm & Hin & Hk).
    cbn [fst snd weather set_weather sensors]. split.
    + unfold sensors_wf. rewrite Hm. split; [|exact Hnd].
      rewrite <- (length_map sensor_pin ss), Hm, length_map. exact Hl.
    + split; [split; [intros _; left | reflexivity]|].
      * destruct (in_dec Z.eq_dec pin (map sensor_pin (sensors (weather st)))) as [I|I];
          [exact I|]. apply (proj2 (set_sensor_mode_none pin analogMode _)) in I. congruence.
      * split; [intros _; exact Hin|]. split; [discriminate | exact Hk].
  - apply set_sensor_mode_none in R.
    destruct (Z.geb_spec (Z.of_nat (length (sensors (weather st)))) MAX_SENSORS) as [Hge|Hlt].
    + cbn [fst snd]. split; [split; assumption|].
      split; [split; [discriminate | intros [N|N]; [contradiction | lia]]|].
      split; [discriminate|]. split; [reflexivity | intros; assumption].
    + cbn [fst snd weather set_weather sensors]. split.
      * unfold sensors_wf. rewrite length_app, map_app. cbn [length map].
        split; [lia|]. apply NoDup_app; [exact Hnd | constructor; [intros []|constructor] |].
        intros x Hx [<-|[]]. contradiction.
      * split; [split; [intros _; right; lia | reflexivity]|].
        split; [intros _; apply in_or_app; right; left; reflexivity|].
        split; [discriminate|]. intros s Hs _. apply in_or_app. left. exact Hs.
Qed.

(** ** Persisted configuration *)

Lemma clamp_500 i : (if i <? 500 then 500 else i) = Z.max 500 i.
Proof. destruct (Z.ltb_spec i 500); lia. Qed.

Lemma saved_sensors (ss : list SensorDef) : Z.of_nat (length ss) <= MAX_SENSORS ->
  firstn (Z.to_nat (if Z.of_nat (length ss) >? MAX_SENSORS then MAX_SENSORS
                    else Z.of_nat (length ss)))
    (ss ++ repeat (mkSensorDef 0 false) (Z.to_nat MAX_SENSORS - length ss)) = ss.
Proof.
  intros Hl. destruct (Z.gtb_spec (Z.of_nat (length ss)) MAX_SENSORS); [lia|].
  rewrite Nat2Z.id, firstn_app, Nat.sub_diag, firstn_all. cbn [firstn]. apply app_nil_r.
Qed.

Lemma loadWeatherConfig_saved st st0 : Z.of_nat (length (sensors (weather st))) <= MAX_SENSORS ->
  wx_blob (prefs st0) = wx_blob (prefs (saveWeatherConfig st)) ->
  weather (loadWeatherConfig st0)
  = mkWeather (weatherModeEnabled (weather st)) (Z.max 500 (weatherIntervalMs (weather st)))
      (sensors (weather st)).
Proof.
  intros Hl Hw. unfold loadWeatherConfig. rewrite Hw.
  unfold saveWeatherConfig. cbn [prefs set_prefs wx_blob weather].
  cbn [w_magic w_weatherMode w_weatherIntervalMs w_sensorCount w_sensors].
  rewrite Z.eqb_refl, clamp_500, saved_sensors by exact Hl.
  destruct (weatherModeEnabled (weather st)); reflexivity.
Qed.

(** X10. What [saveWeatherConfig] stores, read back by [loadWeatherConfig]
    on any node (after a reboot, say), restores the weather mode, the
    interval and the sensor list exactly, except that an interval below
    500 ms comes back as 500 ms. *)
Theorem weather_config_roundtrip (st st0 : Node) :
  Z.of_nat (length (sensors (weather st))) <= MAX_SENSORS ->
  weather (loadWeatherConfig (set_prefs (prefs (saveWeatherConfig st)) st0))
  = mkWeather (weatherModeEnabled (weather st)) (Z.max 500 (weatherIntervalMs (weather st)))
      (sensors (weather st)).
Proof. intros Hl. now apply loadWeatherConfig_saved. Qed.

(** X11. Whatever the store holds, [loadWeatherConfig] leaves at most
    [MAX_SENSORS] sensors.  Either the interval afterwards is at least
    500 ms, or no valid weather record was found: the sensor list is then
    emptied and the mode and interval are kept. *)
Theorem loadWeatherConfig_bounds (st : Node) :
  Z.of_nat (length (sensors (weather (loadWeatherConfig st)))) <= MAX_SENSORS
  /\ (500 <= weatherIntervalMs (weather (loadWeatherConfig st))
      \/ weather (loadWeatherConfig st)
         = mkWeather (weatherModeEnabled (weather st)) (weatherIntervalMs (weather st)) []).
Proof.
  unfold loadWeatherConfig.
  destruct (wx_blob (prefs st)) as [|pw|len];
    [split; [cbn; unfold MAX_SENSORS; lia | right; reflexivity]| |
     split; [cbn; unfold MAX_SENSORS; lia | right; reflexivity]].
  destruct (w_magic pw =? WX_MAGIC);
    [|split; [cbn; unfold MAX_SENSORS; lia | right; reflexivity]].
  cbn [weather set_weather sensors weatherIntervalMs]. split.
  - rewrite length_firstn. unfold MAX_SENSORS.
    destruct (Z.gtb_spec (w_sensorCount pw) 6); lia.
  - left. rewrite clamp_500. lia.
Qed.

(** X12. What [saveConfig] stores, read back by [loadConfig] on any node
    (after a reboot, say), is accepted: [loadConfig] returns true, marks the
    configuration saved, restores the radio configuration with its magic set
    (and, for device type 0, the Heltec pins enforced), and restores the
    weather settings as [loadWeatherConfig] reads them. *)
Theorem saveConfig_loadConfig_roundtrip (st st0 : Node) :
  Z.of_nat (length (sensors (weather st))) <= MAX_SENSORS ->
  fst (loadConfig (set_prefs (prefs (saveConfig st)) st0)) = true
  /\ cfg (snd (loadConfig (set_prefs (prefs (saveConfig st)) st0)))
     = (if deviceType (cfg st) =? 0 then enforceHeltecPins (with_magic CFG_MAGIC (cfg st))
        else with_magic CFG_MAGIC (cfg st))
  /\ weather (snd (loadConfig (set_prefs (prefs (saveConfig st)) st0)))
     = mkWeather (weatherModeEnabled (weather st)) (Z.max 500 (weatherIntervalMs (weather st)))
         (sensors (weather st))
  /\ configSaved (snd (loadConfig (set_prefs (prefs (saveConfig st)) st0))) = true.
Proof.
  intros Hl. unfold loadConfig.
  change (cfg_blob (prefs (set_prefs (prefs (saveConfig st)) st0)))
    with (CfgCurrent (with_magic CFG_MAGIC (cfg st))).
  cbv iota zeta.
  change (magic (with_magic CFG_MAGIC (cfg st))) with CFG_MAGIC. rewrite Z.eqb_refl.
  change (deviceType (with_magic CFG_MAGIC (cfg st))) with (deviceType (cfg st)).
  destruct (deviceType (cfg st) =? 0); cbn [fst snd]; split; try reflexivity.
  all: cbn [cfg configSaved weather set_configSaved]; rewrite loadWeatherConfig_cfg.
  all: split; [reflexivity|]; split; [|reflexivity]; apply loadWeatherConfig_saved;
       [exact Hl | reflexivity].
Qed.

(** ** Sending *)

Lemma u8_cast_short (p : list Z) : (length p < 256)%nat ->
  firstn (Z.to_nat (u8 (Z.of_nat (length p)))) p = p.
Proof.
  intros Hl. rewrite u8_id by (unfold is_u8; lia). rewrite Nat2Z.id. apply firstn_all.
Qed.

(** X13. [sendWebsiteMessage] sends nothing and leaves the node unchanged
    when the mesh is not running, the radio is not ready, or the trimmed
    text is empty or longer than 120 bytes; otherwise it sends the trimmed
    text, whole, as one type 0x20 frame to [dst]. *)
Theorem sendWebsiteMessage_checks (st : Node) (dst : Z) (payload : list Z) (r0 r1 : Z) :
  (meshRunning st && radioReady st = false \/ trim payload = []
   \/ (120 < length (trim payload))%nat ->
   sendWebsiteMessage st dst payload r0 r1 = (false, st))
  /\ (meshRunning st && radioReady st = true -> trim payload <> [] ->
      (length (trim payload) <= 120)%nat ->
      sendWebsiteMessage st dst payload r0 r1 = sendMeshPacket st 0x20 dst (trim payload) r0 r1).
Proof.
  unfold sendWebsiteMessage. split.
  - intros [H|[H|H]].
    + rewrite H. reflexivity.
    + destruct (negb _); [reflexivity|]. rewrite H. reflexivity.
    + destruct (negb _); [reflexivity|].
      replace (120 <? Z.of_nat (length (trim payload))) with true by (symmetry; apply Z.ltb_lt; lia).
      rewrite orb_true_r. reflexivity.
  - intros Hr Hn Hl. rewrite Hr. cbn [negb].
    replace (length (trim payload) =? 0)%nat with false
      by (symmetry; apply Nat.eqb_neq; intros E; apply Hn, length_zero_iff_nil, E).
    replace (120 <? Z.of_nat (length (trim payload))) with false by (symmetry; apply Z.ltb_ge; lia).
    cbn [orb]. rewrite u8_cast_short by lia. reflexivity.
Qed.

(** ** Starting the mesh *)

Lemma tryCombos_mesh doEmit combos st lastState :
  let st' := snd (fst (tryCombos doEmit combos st lastState)) in
  meshRunning st' = meshRunning st /\ nodeId st' = nodeId st.
Proof.
  revert st lastState.
  induction combos as [|[t p] rest IH]; intros st lastState; cbn [tryCombos]; [split; reflexivity|].
  unfold beginWith.
  destruct (radio_begin (beginCalls st) (cfg st) t p =? RADIOLIB_ERR_NONE).
  - destruct doEmit; cbn; split; reflexivity.
  - destruct (IH (set_beginCalls (S (beginCalls st)) (set_radioPresent true st))
                 (radio_begin (beginCalls st) (cfg st) t p)) as (A & B).
    node_simpl. split; assumption.
Qed.

Lemma tryProfile_mesh doEmit enforcePins st lastState :
  let st' := snd (fst (tryProfile doEmit enforcePins st lastState)) in
  meshRunning st' = meshRunning st /\ nodeId st' = nodeId st.
Proof.
  unfold tryProfile.
  destruct (enforcePins && (deviceType (cfg st) =? 0)).
  - destruct (tryCombos_mesh doEmit (tryOrder (cfg (set_cfg (enforceHeltecPins (cfg st)) st)))
                (set_cfg (enforceHeltecPins (cfg st)) st) lastState) as (A & B).
    node_simpl. auto.
  - apply tryCombos_mesh.
Qed.

Lemma initRadioRobust_mesh doEmit st :
  meshRunning (snd (initRadioRobust doEmit st)) = meshRunning st
  /\ nodeId (snd (initRadioRobust doEmit st)) = nodeId st.
Proof.
  unfold initRadioRobust.
  destruct (tryProfile doEmit false st (-999)) as [[ok1 st1] l1] eqn:E1.
  destruct (tryProfile_mesh doEmit false st (-999)) as (A1 & B1).
  rewrite E1 in A1, B1. cbn [fst snd] in A1, B1.
  destruct (negb ok1 && (deviceType (cfg st1) =? 0)).
  - destruct (tryProfile doEmit true st1 l1) as [[ok2 st2] l2] eqn:E2.
    destruct (tryProfile_mesh doEmit true st1 l1) as (A2 & B2).
    rewrite E2 in A2, B2. cbn [fst snd] in A2, B2.
    destruct ok2, doEmit; cbn; split; congruence.
  - destruct ok1, doEmit; cbn; split; congruence.
Qed.

(** X14. [ensureMeshRunning] does not touch a radio that is already ready
    (no [begin] call, configuration unchanged) and then succeeds.  When it
    succeeds the radio is ready, the mesh is running and the node id is the
    low 16 bits of the eFuse MAC; when it fails the radio is not ready and
    the mesh flag and node id are as before. *)
Theorem ensureMeshRunning_result (doEmit : bool) (st : Node) :
  (radioReady st = true ->
   fst (ensureMeshRunning doEmit st) = true
   /\ beginCalls (snd (ensureMeshRunning doEmit st)) = beginCalls st
   /\ cfg (snd (ensureMeshRunning doEmit st)) = cfg st)
  /\ (fst (ensureMeshRunning doEmit st) = true ->
      radioReady (snd (ensureMeshRunning doEmit st)) = true
      /\ meshRunning (snd (ensureMeshRunning doEmit st)) = true
      /\ nodeId (snd (ensureMeshRunning doEmit st)) = u16 (Z.land efuse_mac 0xFFFF))
  /\ (fst (ensureMeshRunning doEmit st) = false ->
      radioReady (snd (ensureMeshRunning doEmit st)) = false
      /\ meshRunning (snd (ensureMeshRunning doEmit st)) = meshRunning st
      /\ nodeId (snd (ensureMeshRunning doEmit st)) = nodeId st).
Proof.
  unfold ensureMeshRunning. destruct (radioReady st) eqn:R.
  - cbn [negb]. split; [intros _; destruct doEmit; cbn; repeat split; reflexivity|].
    split; [intros _; destruct doEmit; cbn; repeat split; assumption || reflexivity|].
    intros H. discriminate H.
  - split; [discriminate|].
    destruct (initRadioRobust_flags doEmit st) as (F & _).
    destruct (initRadioRobust_mesh doEmit st) as (M & N).
    destruct (initRadioRobust doEmit st) as [ok st1]. cbn [fst snd] in F, M, N.
    destruct ok; cbn [negb].
    + split; [|discriminate]. intros _. destruct doEmit; cbn; repeat split; assumption.
    + split; [discriminate|]. intros _. destruct doEmit; cbn; repeat split; assumption.
Qed.

(** ** Bluetooth notification chunks *)

Lemma firstn_min_len {A} n (s : list A) : firstn (Nat.min n (length s)) s = firstn n s.
Proof.
  destruct (Nat.le_ge_cases n (length s)) as [H|H].
  - now rewrite Nat.min_l by exact H.
  - rewrite Nat.min_r by exact H. rewrite firstn_all, firstn_all2 by exact H. reflexivity.
Qed.

Lemma sendMsg_chunks_concat fuel off line : (length line - off <= BLE_CHUNK * fuel)%nat ->
  concat (sendMsg_chunks fuel off line) = skipn off line.
Proof.
  revert off. induction fuel as [|f IH]; intros off Hf; cbn [sendMsg_chunks].
  - symmetry. apply skipn_all2. unfold BLE_CHUNK in Hf. lia.
  - destruct (Nat.ltb_spec off (length line)) as [Hlt|Hge].
    + cbn [concat]. rewrite IH by (unfold BLE_CHUNK in *; lia).
      rewrite <- (length_skipn off line), firstn_min_len.
      rewrite Nat.add_comm, <- skipn_skipn. apply firstn_skipn.
    + symmetry. now apply skipn_all2.
Qed.

Lemma sendMsg_chunks_sizes fuel off line :
  Forall (fun ch => (1 <= length ch <= BLE_CHUNK)%nat) (sendMsg_chunks fuel off line).
Proof.
  revert off. induction fuel as [|f IH]; intros off; cbn [sendMsg_chunks]; [constructor|].
  destruct (Nat.ltb_spec off (length line)) as [Hlt|Hge]; [|constructor].
  constructor; [|apply IH].
  rewrite length_firstn, length_skipn. unfold BLE_CHUNK. lia.
Qed.

Lemma sendMsg_chunks_full fuel off line i :
  (S i < length (sendMsg_chunks fuel off line))%nat ->
  length (nth i (sendMsg_chunks fuel off line) []) = BLE_CHUNK.
Proof.
  revert off i. induction fuel as [|f IH]; intros off i Hi; cbn [sendMsg_chunks] in *;
    [cbn in Hi; lia|].
  destruct (Nat.ltb_spec off (length line)) as [Hlt|Hge]; [|cbn in Hi; lia].
  destruct i as [|i].
  - cbn [nth]. cbn [length] in Hi. destruct f as [|f]; [cbn in Hi; lia|].
    cbn [sendMsg_chunks] in Hi.
    destruct (Nat.ltb_spec (off + BLE_CHUNK) (length line)) as [H2|H2]; [|cbn in Hi; lia].
    rewrite length_firstn, length_skipn. unfold BLE_CHUNK in *. lia.
  - cbn [nth]. apply IH. cbn [length] in Hi. lia.
Qed.

(** X15. [sendMsg] cuts a notification line into Bluetooth chunks that,
    put back together in order, give the line exactly; each chunk holds
    1 to 180 bytes, and every chunk but the last holds exactly 180. *)
Theorem sendMsg_chunks_split (line : list Z) :
  concat (ble_chunks line) = line
  /\ Forall (fun ch => (1 <= length ch <= 180)%nat) (ble_chunks line)
  /\ (forall i, (S i < length (ble_chunks line))%nat ->
      length (nth i (ble_chunks line) []) = 180%nat).
Proof.
  unfold ble_chunks. split; [|split].
  - rewrite sendMsg_chunks_concat by (unfold BLE_CHUNK; lia). reflexivity.
  - apply sendMsg_chunks_sizes.
  - intros i Hi. now apply sendMsg_chunks_full.
Qed.

(** ** Assembling Bluetooth command lines *)

Lemma rx_feed_app t a b :
  rx_feed t (a ++ b)
  = let '(t1, l1) := rx_feed t a in let '(t2, l2) := rx_feed t1 b in (t2, l1 ++ l2).
Proof.
  revert t. induction a as [|c a IH]; intros t.
  - cbn [app rx_feed]. destruct (rx_feed t b). reflexivity.
  - cbn [app rx_feed]. destruct (c =? 13); [apply IH|].
    destruct (c =? 10).
    + rewrite IH. destruct (rx_feed [] a) as [t1 l1]. destruct (rx_feed t1 b) as [t2 l2].
      destruct (length (trim t) =? 0)%nat; reflexivity.
    + apply IH.
Qed.

Lemma until_nul_app a b : ~ In 0 a -> until_nul (a ++ b) = a ++ until_nul b.
Proof.
  induction a as [|c a IH]; intros H; [reflexivity|]. cbn [app until_nul].
  destruct (Z.eqb_spec c 0) as [E|E]; [exfalso; apply H; left; exact E|].
  f_equal. apply IH. intros N. apply H. right. exact N.
Qed.

Lemma RxCB_onWrite_feed t v : RxCB_onWrite t v = rx_feed t (until_nul v).
Proof.
  unfold RxCB_onWrite. destruct (until_nul v); reflexivity.
Qed.

Lemma until_nul_no_nul v : ~ In 0 (until_nul v).
Proof.
  induction v as [|c v IH]; cbn [until_nul]; [intros []|].
  destruct (Z.eqb_spec c 0) as [E|E]; [intros []|]. intros [H|H]; [contradiction | exact (IH H)].
Qed.

Lemma drop_spaces_incl s : incl (drop_spaces s) s.
Proof.
  induction s as [|c s IH]; cbn [drop_spaces]; [apply incl_refl|].
  destruct (is_space c); [|apply incl_refl]. intros x Hx. right. exact (IH x Hx).
Qed.

Lemma trim_incl s : incl (trim s) s.
Proof.
  unfold trim. intros x Hx. apply in_rev in Hx. apply drop_spaces_incl in Hx.
  apply in_rev in Hx. apply drop_spaces_incl in Hx. exact Hx.
Qed.

Lemma rx_feed_clean (P : Z -> Prop) t inc :
  (forall c, P c <-> c <> 0 /\ c <> 10 /\ c <> 13) ->
  Forall P t -> ~ In 0 inc ->
  Forall P (fst (rx_feed t inc)) /\ Forall (fun l => l <> [] /\ Forall P l) (snd (rx_feed t inc)).
Proof.
  intros HP. revert t. induction inc as [|c inc IH]; intros t Ht Hn; cbn [rx_feed].
  - split; [exact Ht | constructor].
  - assert (Hn' : ~ In 0 inc) by (intros N; apply Hn; right; exact N).
    destruct (Z.eqb_spec c 13) as [E13|E13]; [now apply IH|].
    destruct (Z.eqb_spec c 10) as [E10|E10].
    + destruct (IH [] (Forall_nil _) Hn') as [A B].
      destruct (rx_feed [] inc) as [t1 l1]. cbn [fst snd] in *. split; [exact A|].
      destruct (Nat.eqb_spec (length (trim t)) 0) as [Z0|Z0]; [exact B|].
      constructor; [|exact B]. split.
      * intros E. rewrite E in Z0. apply Z0. reflexivity.
      * apply Forall_forall. intros x Hx. apply trim_incl in Hx.
        exact (proj1 (Forall_forall P t) Ht x Hx).
    + apply IH; [|exact Hn']. apply Forall_app. split; [exact Ht|]. constructor; [|constructor].
      apply HP. split; [|split; assumption]. intros E. apply Hn. left. exact E.
Qed.

(** X16. [RxCB::onWrite] does not depend on how the input is split into
    writes: a write [a] (without NUL) followed by a write [b] leaves the same
    buffer and hands the same command lines to [handleCommand] as the single
    write [a ++ b].  Starting from a buffer without NUL, CR or LF, every line
    handed on is nonempty and free of NUL, CR and LF, and so is the buffer
    left over. *)
Theorem RxCB_onWrite_lines (t a b : list Z) :
  (~ In 0 a ->
   RxCB_onWrite t (a ++ b)
   = let '(t1, l1) := RxCB_onWrite t a in let '(t2, l2) := RxCB_onWrite t1 b in (t2, l1 ++ l2))
  /\ (Forall (fun c => c <> 0 /\ c <> 10 /\ c <> 13) t ->
      Forall (fun c => c <> 0 /\ c <> 10 /\ c <> 13) (fst (RxCB_onWrite t a))
      /\ Forall (fun l => l <> [] /\ Forall (fun c => c <> 0 /\ c <> 10 /\ c <> 13) l)
           (snd (RxCB_onWrite t a))).
Proof.
  split.
  - intros Ha.
    assert (Ua : until_nul a = a)
      by (pose proof (until_nul_app a [] Ha) as U; rewrite !app_nil_r in U; exact U).
    rewrite !RxCB_onWrite_feed, until_nul_app, rx_feed_app, Ua by exact Ha.
    destruct (rx_feed t a) as [t1 l1]. rewrite RxCB_onWrite_feed. reflexivity.
  - intros Ht. rewrite RxCB_onWrite_feed.
    apply rx_feed_clean; [intros c; reflexivity | exact Ht | apply until_nul_no_nul].
Qed.

(** ** Discovery *)

Lemma dec_string_u16 n : is_u16 n -> (length (dec_string n) <= 5)%nat /\ Forall is_u8 (dec_string n).
Proof.
  intros Hn.
  assert (Hc : forallb (fun v => (length (dec_string v) <=? 5)%nat && forallb u8b (dec_string v))
                 (zrange 0 (Z.to_nat 65536)) = true) by (vm_compute; reflexivity).
  pose proof (range_check _ _ Hc n ltac:(rewrite Z2Nat.id by lia; unfold is_u16 in Hn; lia))
    as H.
  apply andb_prop in H as [H1 H2]. split; [now apply Nat.leb_le|].
  apply Forall_forall. intros x Hx. rewrite forallb_forall in H2. specialize (H2 x Hx).
  unfold u8b in H2. apply andb_prop in H2 as [A B]. unfold is_u8. lia.
Qed.

Lemma send_plain st type dst payload r0 r1 :
  radioReady st = true -> radioPresent st = true -> plainType type = true ->
  (length payload <= 120)%nat ->
  sendMeshPacket st type dst payload r0 r1
  = (radio_transmit (wire_frame st type dst payload r0 r1 payload) =? RADIOLIB_ERR_NONE,
     set_air (wire_frame st type dst payload r0 r1 payload :: air st)
       (set_txCounter (u32 (txCounter st + 1)) st)).
Proof.
  intros Hr Hp Ht Hl. unfold sendMeshPacket. rewrite Hr, Hp, Ht. cbn [andb negb].
  replace (120 <? Z.of_nat (length payload)) with false by (symmetry; apply Z.ltb_ge; lia).
  reflexivity.
Qed.

Lemma updatePeer_shape id now st :
  updatePeer id now st = st \/ exists ps, updatePeer id now st = set_peers ps st.
Proof.
  unfold updatePeer. destruct (id =? 0); [now left|].
  destruct (refresh_peer id now (peers st)); [right; eexists; reflexivity|].
  destruct (_ <? _)%nat; [right; eexists; reflexivity | now left].
Qed.

(** X17. Discovery between two nodes whose radios are up, with 16-bit node
    ids and 32-bit packet counters: [broadcastDiscovery] on [a] puts one plain
    type 0x01 broadcast frame ["DISCOVER:<id of a>"] on the air; [b],
    handling it, reports [a] as found and answers with one type 0x02 frame
    ["NODE:<id of b>"] addressed to [a]; and [a], handling that answer,
    reports [b] as found. *)
Theorem discovery_handshake (a b : Node) (r0 r1 now s0 s1 t0 t1 : Z) :
  radioReady a = true -> radioPresent a = true -> is_u16 (nodeId a) -> is_u32 (txCounter a) ->
  radioReady b = true -> radioPresent b = true -> is_u16 (nodeId b) -> is_u32 (txCounter b) ->
  let a1 := broadcastDiscovery a r0 r1 in
  let p := str_DISCOVER ++ dec_string (nodeId a) in
  let q := str_NODE ++ dec_string (nodeId b) in
  let fa := wire_frame a 0x01 BROADCAST p r0 r1 p in
  let b1 := handleMeshFrame b fa now s0 s1 in
  let fb := wire_frame b 0x02 (nodeId a) q s0 s1 q in
  air a1 = fa :: air a
  /\ air b1 = fb :: air b
  /\ head (msgs b1) = Some (EvtPeerFound (nodeId a))
  /\ head (msgs (handleMeshFrame a1 fb now t0 t1)) = Some (EvtPeerFound (nodeId b)).
Proof.
  intros Har Hap Hia Hca Hbr Hbp Hib Hcb a1 p q fa b1 fb.
  destruct (dec_string_u16 _ Hia) as [La _]. destruct (dec_string_u16 _ Hib) as [Lb _].
  assert (Lp : (length p <= 14)%nat)
    by (unfold p; rewrite length_app; change (length str_DISCOVER) with 9%nat; lia).
  assert (Lq : (length q <= 10)%nat)
    by (unfold q; rewrite length_app; change (length str_NODE) with 5%nat; lia).
  assert (HA : air a1 = fa :: air a /\ nodeId a1 = nodeId a).
  { unfold a1, broadcastDiscovery. fold p.
    rewrite u8_cast_short by lia. rewrite send_plain by (reflexivity || assumption || lia).
    destruct (_ =? _); split; reflexivity. }
  assert (DB : decodeFrame b fa
               = Some (mkDecoded 0x01 (nodeId a) BROADCAST (txCounter a) (make_nonce r0 r1) p)).
  { unfold fa, wire_frame. apply decode_sealed;
      [unfold is_u8; lia | exact Hia | unfold is_u16, BROADCAST; lia | exact Hca | lia
      | now left | reflexivity]. }
  assert (HB : b1 = emit (EvtPeerFound (nodeId a))
                  (snd (sendMeshPacket (updatePeer (nodeId a) now b) 0x02 (nodeId a)
                     (str_NODE ++ dec_string (nodeId (updatePeer (nodeId a) now b))) s0 s1))).
  { unfold b1, handleMeshFrame. rewrite DB. reflexivity. }
  assert (HB' : air b1 = fb :: air b).
  { rewrite HB. destruct (updatePeer_shape (nodeId a) now b) as [E|[ps E]]; rewrite E.
    - fold q. rewrite send_plain by (reflexivity || assumption || lia). reflexivity.
    - change (nodeId (set_peers ps b)) with (nodeId b). fold q.
      rewrite send_plain by (exact Hbr || exact Hbp || reflexivity || lia). reflexivity. }
  split; [exact (proj1 HA)|]. split; [exact HB'|]. split; [rewrite HB; reflexivity|].
  assert (DA : decodeFrame a1 fb
               = Some (mkDecoded 0x02 (nodeId b) (nodeId a) (txCounter b) (make_nonce s0 s1) q)).
  { unfold fb, wire_frame. apply decode_sealed.
    - unfold is_u8; lia.
    - exact Hib.
    - exact Hia.
    - exact Hcb.
    - lia.
    - right. symmetry. exact (proj2 HA).
    - reflexivity. }
  unfold handleMeshFrame. rewrite DA. reflexivity.
Qed.

(** ** Key exchange *)

Lemma sendMeshPacket_keeps st type dst payload r0 r1 :
  meshKey (snd (sendMeshPacket st type dst payload r0 r1)) = meshKey st
  /\ msgs (snd (sendMeshPacket st type dst payload r0 r1)) = msgs st.
Proof.
  destruct (sendMeshPacket_counter st type dst payload r0 r1) as [H|[enc H]];
    rewrite H; split; reflexivity.
Qed.

(** X18. [mesh keysend <dst>] on a node whose mesh is running and radio
    ready, with a 16-byte key, a 16-bit node id and a 32-bit packet counter,
    puts one type 0x30 frame on the air whose payload is ["KEY:"] and the
    key in hex, unencrypted.  Any node [b] the frame is addressed to
    ([dst] is [b]'s id or the broadcast id) takes that key as its own on
    handling the frame, whatever key and encryption setting it had, and
    reports it as received from the sender. *)
Theorem meshKeysend_delivers_key (a b : Node) (dst r0 r1 now s0 s1 : Z) :
  meshRunning a = true -> radioReady a = true -> radioPresent a = true ->
  is_u16 (nodeId a) -> is_u32 (txCounter a) ->
  length (meshKey a) = 16%nat -> Forall is_u8 (meshKey a) ->
  is_u16 dst -> (dst = BROADCAST \/ dst = nodeId b) ->
  let p := str_KEY ++ meshKeyHex (meshKey a) in
  let fa := wire_frame a 0x30 dst p r0 r1 p in
  air (meshKeysend a dst r0 r1) = fa :: air a
  /\ meshKey (handleMeshFrame b fa now s0 s1) = meshKey a
  /\ head (msgs (handleMeshFrame b fa now s0 s1)) = Some (EvtMeshKeyRx (nodeId a) (meshKey a)).
Proof.
  intros Hm Hr Hp Hia Hca Hl Hk Hd Hdb p fa.
  assert (Hx : meshKeyHex (meshKey a) = map (fun c => c) (flat_map toHexByte (meshKey a)))
    by (rewrite map_id; exact (meshKeyHex_16 _ Hl)).
  assert (Lp : length p = 36%nat).
  { unfold p. rewrite length_app, Hx, length_hex, Hl. reflexivity. }
  split.
  { unfold meshKeysend. rewrite Hm, Hr. cbn [andb negb]. fold p.
    rewrite u8_cast_short by lia. rewrite send_plain by (reflexivity || assumption || lia).
    destruct (_ =? _); reflexivity. }
  assert (DB : decodeFrame b fa
               = Some (mkDecoded 0x30 (nodeId a) dst (txCounter a) (make_nonce r0 r1) p)).
  { unfold fa, wire_frame. apply decode_sealed;
      [unfold is_u8; lia | exact Hia | exact Hd | exact Hca | lia | exact Hdb | reflexivity]. }
  assert (HP : firstn 4 p = str_KEY /\ skipn 4 p = meshKeyHex (meshKey a))
    by (split; reflexivity).
  assert (HK : parseHexKey16 (meshKeyHex (meshKey a)) = Some (meshKey a))
    by (rewrite Hx; apply parseHexKey16_hex; [exact hex_pair_ok_id | exact Hl | exact Hk]).
  unfold handleMeshFrame. rewrite DB.
  cbv beta iota zeta delta [dispatchFrame d_src d_type d_payload].
  cbn [Z.eqb Pos.eqb]. rewrite (proj1 HP).
  destruct (list_eq_dec Z.eq_dec str_KEY str_KEY) as [_|N]; [|contradiction].
  rewrite (proj2 HP), HK.
  rewrite !(proj1 (sendMeshPacket_keeps _ _ _ _ _ _)), (proj2 (sendMeshPacket_keeps _ _ _ _ _ _)).
  split; reflexivity.
Qed.

End Firmware.

(** * Witnesses and counterexamples *)

Lemma forall_u8_check l : forallb u8b l = true -> Forall is_u8 l.
Proof.
  induction l as [|x l IH]; cbn; intros H; constructor.
  - apply andb_prop in H as [H _]. unfold u8b in H.
    apply andb_prop in H as [H1 H2]. apply Z.leb_le in H1. apply Z.ltb_lt in H2.
    unfold is_u8. lia.
  - apply IH. apply andb_prop in H as [_ H]. exact H.
Qed.

Lemma encode_decode_roundtrip_witness :
  exists frame,
    air (snd (sendMeshPacket sample_setkey sample_ecb sample_transmit ready_node
                0x20 BROADCAST [72; 105] 3 4)) = frame :: air ready_node
    /\ decodeFrame sample_setkey sample_ecb ready_node frame
       = Some (mkDecoded 0x20 (nodeId ready_node) BROADCAST (txCounter ready_node)
                 (make_nonce 3 4) [72; 105]).
Proof.
  apply (encode_decode_roundtrip sample_setkey sample_ecb sample_transmit
           ready_node ready_node 0x20 BROADCAST [72; 105] 3 4).
  - unfold is_u8; lia.
  - unfold is_u16, BROADCAST; lia.
  - apply forall_u8_check; reflexivity.
  - cbn; lia.
  - unfold is_u16; cbn; lia.
  - unfold is_u32; cbn; lia.
  - reflexivity.
  - reflexivity.
  - reflexivity.
  - left; reflexivity.
  - reflexivity.
  - reflexivity.
Defined.

Lemma cipher_roundtrip_witness :
  let c := match encryptCtr sample_setkey sample_ecb true default_key [72; 105]
                   (make_nonce 3 4) 1 with Some c => c | None => [] end in
  encryptCtr sample_setkey sample_ecb true default_key [72; 105] (make_nonce 3 4) 1 = Some c
  /\ decryptCtr sample_setkey sample_ecb true default_key c (make_nonce 3 4) 1 = Some [72; 105]
  /\ encryptCtr sample_setkey sample_ecb false default_key [72; 105] (make_nonce 3 4) 1
     = Some [72; 105].
Proof.
  intros c.
  assert (E : encryptCtr sample_setkey sample_ecb true default_key [72; 105]
                (make_nonce 3 4) 1 = Some c) by (vm_compute; reflexivity).
  split; [exact E|].
  exact (cipher_roundtrip sample_setkey sample_ecb true default_key [72; 105]
           (make_nonce 3 4) 1 c (forall_u8_check [72; 105] eq_refl) E).
Defined.

Lemma handleMeshFrame_rejects_witness :
  exists e, msgs (handleMeshFrame sample_setkey sample_ecb sample_transmit
                    ready_node frame_to_all 0 0 0) = e :: msgs ready_node.
Proof.
  apply (proj2 (proj2 (proj2 (handleMeshFrame_rejects sample_setkey sample_ecb sample_transmit
                  ready_node frame_to_all 0 0 0 (forall_u8_check frame_to_all eq_refl))
                  ltac:(repeat split; vm_compute; try reflexivity; lia)))).
  - left; vm_compute; reflexivity.
  - right; left; reflexivity.
  - vm_compute; discriminate.
Defined.

(** The frame for node 7 passes the length, magic, CRC and length-field
    checks, yet node 9 drops it without a notification. *)
Lemma handleMeshFrame_rejects_counterexample :
  let st := set_nodeId 9 ready_node in
  ((22 <= length frame_to_7)%nat /\ byte_at frame_to_7 0 = 0x4D /\ byte_at frame_to_7 1 = 0x58
   /\ byte_at frame_to_7 (length frame_to_7 - 2) * 256
      + byte_at frame_to_7 (length frame_to_7 - 1)
      = crc16_ccitt (firstn (length frame_to_7 - 2) frame_to_7)
   /\ 21 + byte_at frame_to_7 20 + 2 = Z.of_nat (length frame_to_7))
  /\ handleMeshFrame sample_setkey sample_ecb sample_transmit st frame_to_7 0 0 0 = st.
Proof.
  intros st. split.
  - repeat split; vm_compute; try reflexivity; lia.
  - vm_compute. reflexivity.
Qed.

Lemma plaintext_types_bypass_cipher_witness :
  air (snd (sendMeshPacket sample_setkey sample_ecb sample_transmit
              (set_encEnabled true ready_node) 0x01 BROADCAST [68] 3 4))
  = wire_frame (set_encEnabled true ready_node) 0x01 BROADCAST [68] 3 4 [68]
      :: air ready_node.
Proof.
  exact (proj1 (plaintext_types_bypass_cipher sample_setkey sample_ecb sample_transmit
                  (set_encEnabled true ready_node) 0x01 BROADCAST [68] 3 4
                  eq_refl eq_refl ltac:(cbn; lia)) eq_refl).
Defined.

Lemma send_key_failure_aborts_witness :
  sendMeshPacket sample_setkey_fail sample_ecb sample_transmit
    (set_encEnabled true ready_node) 0x20 BROADCAST [68] 3 4
  = (false, set_encEnabled true ready_node).
Proof.
  exact (proj1 (send_key_failure_aborts sample_setkey_fail sample_ecb sample_transmit
                  (set_encEnabled true ready_node) 0x20 BROADCAST [68] 3 4
                  eq_refl eq_refl) eq_refl).
Defined.

Lemma isDuplicate_ring_witness :
  fst (isDuplicate 5 (submit_all [1; 2; 3] (snd (isDuplicate 5 boot_node)))) = true.
Proof.
  apply (proj2 (proj2 (isDuplicate_ring sample_setkey sample_ecb sample_transmit 5 boot_node
                         ltac:(unfold dup_wf; cbn; split; [reflexivity|lia])))).
  - discriminate.
  - reflexivity.
  - cbn; lia.
Defined.

(** A checksum already in the cache is reported without being stored again:
    the ring position stays at 1 instead of moving to 2. *)
Lemma isDuplicate_ring_counterexample :
  let st := set_dupHead 1 (set_dupCache (5 :: repeat 0 23) boot_node) in
  isDuplicate 5 st = (true, st) /\ dupHead (snd (isDuplicate 5 st)) <> (dupHead st + 1) mod 24.
Proof.
  intros st. split.
  - reflexivity.
  - vm_compute. discriminate.
Qed.

Lemma txCounter_advances_witness :
  (exists frame,
    air (snd (sendMeshPacket sample_setkey sample_ecb sample_transmit ready_node
                0x20 BROADCAST [68] 3 4)) = frame :: air ready_node
    /\ frame_ctr frame = txCounter ready_node
    /\ txCounter (snd (sendMeshPacket sample_setkey sample_ecb sample_transmit ready_node
                         0x20 BROADCAST [68] 3 4)) = u32 (txCounter ready_node + 1)
    /\ fst (sendMeshPacket sample_setkey sample_ecb sample_transmit ready_node
              0x20 BROADCAST [68] 3 4)
       = (sample_transmit frame =? RADIOLIB_ERR_NONE))
  /\ advances ready_node
       (run_ops sample_setkey sample_ecb sample_begin sample_transmit sample_mac ready_node
          [OpDiscovery 1 2; OpCommand CmdStartmesh; OpWebsite 7 [72; 105] 3 4;
           OpKeysend 7 5 6]).
Proof.
  split.
  - apply (proj1 (txCounter_advances sample_setkey sample_ecb sample_begin sample_transmit
                    sample_mac ready_node 0x20 BROADCAST [68] 3 4
                    ltac:(unfold is_u32; cbn; lia))).
    + reflexivity.
    + reflexivity.
    + cbn; lia.
    + right; left; reflexivity.
  - exact (proj2 (proj2 (proj2 (txCounter_advances sample_setkey sample_ecb sample_begin
             sample_transmit sample_mac ready_node 0x20 BROADCAST [68] 3 4
             ltac:(unfold is_u32; cbn; lia))))
             [OpDiscovery 1 2; OpCommand CmdStartmesh; OpWebsite 7 [72; 105] 3 4;
              OpKeysend 7 5 6]).
Defined.

(** Two sends from a node whose counter is 0xFFFFFFFF: the second frame
    carries counter 0, below the first frame's. *)
Lemma txCounter_advances_counterexample :
  let st0 := set_txCounter 0xFFFFFFFF ready_node in
  let st1 := snd (sendMeshPacket sample_setkey sample_ecb sample_transmit st0
                    0x01 BROADCAST [68] 0 0) in
  let st2 := snd (sendMeshPacket sample_setkey sample_ecb sample_transmit st1
                    0x01 BROADCAST [68] 0 0) in
  map frame_ctr (air st2) = [0; 4294967295].
Proof. vm_compute. reflexivity. Qed.

Lemma initRadioRobust_retry_matrix_witness :
  exists st', initRadioRobust sample_begin true boot_node = (true, st')
    /\ radioReady st' = true
    /\ tcxoVoltage (cfg st') = 16 # 10 /\ pwr (cfg st') = pwr (cfg boot_node).
Proof.
  apply (proj1 (proj2 (proj2 (initRadioRobust_retry_matrix sample_begin true boot_node)))).
  - vm_compute. discriminate.
  - vm_compute. discriminate.
  - vm_compute. reflexivity.
Defined.

Lemma setup_loop_exit_witness :
  exists st', startConfigMode sample_begin sample_mac
                [(Some CmdInit, false); (Some CmdSave, true)] boot_node = (Some [], st')
    /\ setupMode st' = false /\ configSaved st' = true /\ meshRunning st' = true.
Proof.
  destruct (proj2 (proj2 (proj2 (setup_loop_exit sample_begin sample_mac)))
              boot_node false true []
              (snd (initRadioRobust sample_begin true (enterConfigMode boot_node)))
              ltac:(vm_compute; reflexivity))
    as (st' & E & M & S & _ & R & _).
  exists st'. repeat split; assumption.
Defined.

Lemma loadConfig_legacy_upgrade_witness :
  exists st', loadConfig (set_prefs (mkPrefs (CfgLegacy legacy_sample) WxAbsent) boot_node)
              = (true, st')
    /\ pwr (cfg st') = 17 /\ sclkPin (cfg st') = 18 /\ nssPin (cfg st') = 5
    /\ dio1Pin (cfg st') = 35.
Proof.
  destruct (loadConfig_legacy_upgrade
              (set_prefs (mkPrefs (CfgLegacy legacy_sample) WxAbsent) boot_node)
              legacy_sample eq_refl eq_refl eq_refl) as (st' & E & _ & C).
  exists st'. rewrite C. repeat split; exact E || reflexivity.
Defined.


(** ** Witnesses of the further properties *)

Lemma sendMeshPacket_frame_crc_zero_witness :
  let frame := hd [] (air (snd (sendMeshPacket sample_setkey sample_ecb sample_transmit
                                  ready_node 0x20 BROADCAST [72; 105] 3 4))) in
  crc16_ccitt frame = 0 /\ (23 <= length frame)%nat.
Proof.
  intros frame.
  apply (sendMeshPacket_frame_crc_zero sample_setkey sample_ecb sample_transmit
           ready_node 0x20 BROADCAST [72; 105] 3 4 frame).
  vm_compute. reflexivity.
Defined.

Lemma handleIncoming_valid_frames_not_suppressed_witness :
  crc16_ccitt frame_to_all = 0
  /\ fst (isDuplicate (crc16_ccitt frame_to_all) ready_node) = false
  /\ handleIncoming sample_setkey sample_ecb sample_transmit ready_node frame_to_all 0 0 0
     = handleMeshFrame sample_setkey sample_ecb sample_transmit
         (emit (EvtRx frame_to_all) (snd (isDuplicate 0 ready_node))) frame_to_all 0 0 0
  /\ exists l,
       msgs (handleIncoming sample_setkey sample_ecb sample_transmit
               (handleIncoming sample_setkey sample_ecb sample_transmit ready_node
                  frame_to_all 0 0 0) frame_to_all 0 0 0)
       = l ++ EvtRx frame_to_all
              :: msgs (handleIncoming sample_setkey sample_ecb sample_transmit ready_node
                         frame_to_all 0 0 0).
Proof.
  apply (handleIncoming_valid_frames_not_suppressed sample_setkey sample_ecb sample_transmit
           ready_node frame_to_all 0 0 0).
  - apply forall_u8_check. vm_compute. reflexivity.
  - vm_compute. lia.
  - vm_compute. reflexivity.
Defined.

Lemma frame_single_byte_change_rejected_witness :
  let body := frame_header 0x20 5 BROADCAST 1 (repeat 0 8) 2 ++ [72; 105] in
  decodeFrame sample_setkey sample_ecb ready_node (list_set 22 0 (seal_frame body)) = None
  /\ forall now r0 r1,
       handleMeshFrame sample_setkey sample_ecb sample_transmit ready_node
         (list_set 22 0 (seal_frame body)) now r0 r1 = ready_node.
Proof.
  intros body.
  apply (frame_single_byte_change_rejected sample_setkey sample_ecb sample_transmit
           ready_node body 22 0).
  - apply forall_u8_check. vm_compute. reflexivity.
  - unfold is_u8. lia.
  - vm_compute. lia.
  - vm_compute. lia.
Defined.

Lemma meshKeyHex_roundtrip_witness :
  parseHexKey16 (meshKeyHex default_key) = Some default_key
  /\ meshKey (meshKeySetCommand (str_mesh_key_sp ++ meshKeyHex default_key) boot_node)
     = default_key
  /\ msgs (meshKeySetCommand (str_mesh_key_sp ++ meshKeyHex default_key) boot_node)
     = EvtOk :: EvtOther EvtName.mesh_key :: msgs boot_node.
Proof.
  apply (meshKeyHex_roundtrip boot_node default_key).
  - reflexivity.
  - apply forall_u8_check. vm_compute. reflexivity.
Defined.

Lemma toHex_roundtrip_witness :
  toHex frame_to_all = flat_map toHexByte frame_to_all
  /\ length (toHex frame_to_all) = (2 * length frame_to_all)%nat
  /\ Forall (fun c => In c hex_table) (toHex frame_to_all)
  /\ parse_pairs (toHex frame_to_all) = Some frame_to_all.
Proof.
  apply toHex_roundtrip. apply forall_u8_check. vm_compute. reflexivity.
Defined.


Lemma updatePeer_table_witness :
  peers_wf (peers (updatePeer 7 300 peers_node))
  /\ (7 <> 0 -> In 7 (map peer_id (peers peers_node)) \/ (length (peers peers_node) < MAX_PEERS)%nat ->
      In (mkMeshPeer 7 300) (peers (updatePeer 7 300 peers_node)))
  /\ (forall p, In p (peers peers_node) -> peer_id p <> 7 ->
      In p (peers (updatePeer 7 300 peers_node)))
  /\ (7 = 0 \/ (~ In 7 (map peer_id (peers peers_node)) /\ length (peers peers_node) = MAX_PEERS)
      -> updatePeer 7 300 peers_node = peers_node).
Proof.
  apply updatePeer_table. unfold peers_wf, MAX_PEERS. cbn. split; [lia|]. split.
  - constructor; [intros [H|[]]; lia | constructor; [intros []|constructor]].
  - intros [H|[H|[]]]; lia.
Defined.


Lemma addSensor_table_witness :
  sensors_wf (sensors (weather (snd (addSensor 26 true sensor_node))))
  /\ (fst (addSensor 26 true sensor_node) = true
      <-> In 26 (map sensor_pin (sensors (weather sensor_node)))
          \/ Z.of_nat (length (sensors (weather sensor_node))) < MAX_SENSORS)
  /\ (fst (addSensor 26 true sensor_node) = true ->
      In (mkSensorDef 26 true) (sensors (weather (snd (addSensor 26 true sensor_node)))))
  /\ (fst (addSensor 26 true sensor_node) = false -> snd (addSensor 26 true sensor_node) = sensor_node)
  /\ (forall s, In s (sensors (weather sensor_node)) -> sensor_pin s <> 26 ->
      In s (sensors (weather (snd (addSensor 26 true sensor_node))))).
Proof.
  apply addSensor_table. unfold sensors_wf. cbn. split; [unfold MAX_SENSORS; lia|].
  constructor; [intros [H|[]]; lia | constructor; [intros []|constructor]].
Defined.

Lemma weather_config_roundtrip_witness :
  weather (loadWeatherConfig (set_prefs (prefs (saveWeatherConfig sensor_node)) boot_node))
  = mkWeather (weatherModeEnabled (weather sensor_node))
      (Z.max 500 (weatherIntervalMs (weather sensor_node))) (sensors (weather sensor_node)).
Proof.
  apply weather_config_roundtrip. unfold MAX_SENSORS. cbn. lia.
Defined.

Lemma saveConfig_loadConfig_roundtrip_witness :
  fst (loadConfig (set_prefs (prefs (saveConfig sensor_node)) boot_node)) = true
  /\ cfg (snd (loadConfig (set_prefs (prefs (saveConfig sensor_node)) boot_node)))
     = (if deviceType (cfg sensor_node) =? 0
        then enforceHeltecPins (with_magic CFG_MAGIC (cfg sensor_node))
        else with_magic CFG_MAGIC (cfg sensor_node))
  /\ weather (snd (loadConfig (set_prefs (prefs (saveConfig sensor_node)) boot_node)))
     = mkWeather (weatherModeEnabled (weather sensor_node))
         (Z.max 500 (weatherIntervalMs (weather sensor_node))) (sensors (weather sensor_node))
  /\ configSaved (snd (loadConfig (set_prefs (prefs (saveConfig sensor_node)) boot_node))) = true.
Proof.
  apply saveConfig_loadConfig_roundtrip. unfold MAX_SENSORS. cbn. lia.
Defined.


Lemma sendWebsiteMessage_checks_witness :
  sendWebsiteMessage sample_setkey sample_ecb sample_transmit mesh_node 7 [32; 72; 105; 10] 3 4
  = sendMeshPacket sample_setkey sample_ecb sample_transmit mesh_node 0x20 7 [72; 105] 3 4.
Proof.
  exact (proj2 (sendWebsiteMessage_checks sample_setkey sample_ecb sample_transmit
                  mesh_node 7 [32; 72; 105; 10] 3 4)
           eq_refl ltac:(vm_compute; discriminate) ltac:(vm_compute; lia)).
Defined.

Lemma ensureMeshRunning_result_witness :
  fst (ensureMeshRunning sample_begin sample_mac true ready_node) = true
  /\ beginCalls (snd (ensureMeshRunning sample_begin sample_mac true ready_node))
     = beginCalls ready_node
  /\ cfg (snd (ensureMeshRunning sample_begin sample_mac true ready_node)) = cfg ready_node.
Proof.
  exact (proj1 (ensureMeshRunning_result sample_begin sample_mac true ready_node) eq_refl).
Defined.


Lemma discovery_handshake_witness :
  let a1 := broadcastDiscovery sample_setkey sample_ecb sample_transmit ready_node 1 2 in
  let p := str_DISCOVER ++ dec_string (nodeId ready_node) in
  let q := str_NODE ++ dec_string (nodeId peer_b) in
  let fa := wire_frame ready_node 0x01 BROADCAST p 1 2 p in
  let b1 := handleMeshFrame sample_setkey sample_ecb sample_transmit peer_b fa 0 3 4 in
  let fb := wire_frame peer_b 0x02 (nodeId ready_node) q 3 4 q in
  air a1 = fa :: air ready_node
  /\ air b1 = fb :: air peer_b
  /\ head (msgs b1) = Some (EvtPeerFound (nodeId ready_node))
  /\ head (msgs (handleMeshFrame sample_setkey sample_ecb sample_transmit a1 fb 0 5 6))
     = Some (EvtPeerFound (nodeId peer_b)).
Proof.
  apply (discovery_handshake sample_setkey sample_ecb sample_transmit ready_node peer_b
           1 2 0 3 4 5 6); try reflexivity; unfold is_u16, is_u32; cbn; lia.
Defined.

Lemma meshKeysend_delivers_key_witness :
  let p := str_KEY ++ meshKeyHex (meshKey mesh_node) in
  let fa := wire_frame mesh_node 0x30 BROADCAST p 1 2 p in
  air (meshKeysend sample_setkey sample_ecb sample_transmit mesh_node BROADCAST 1 2)
  = fa :: air mesh_node
  /\ meshKey (handleMeshFrame sample_setkey sample_ecb sample_transmit peer_b fa 0 3 4)
     = meshKey mesh_node
  /\ head (msgs (handleMeshFrame sample_setkey sample_ecb sample_transmit peer_b fa 0 3 4))
     = Some (EvtMeshKeyRx (nodeId mesh_node) (meshKey mesh_node)).
Proof.
  apply (meshKeysend_delivers_key sample_setkey sample_ecb sample_transmit mesh_node peer_b
           BROADCAST 1 2 0 3 4); try reflexivity.
  - unfold is_u16; cbn; lia.
  - unfold is_u32; cbn; lia.
  - apply forall_u8_check; vm_compute; reflexivity.
  - unfold is_u16, BROADCAST; lia.
  - left; reflexivity.
Defined.
